(** * Envio_Indicadores_Diario: the export pipeline of ENVIO_EMAIL.py

    A shallow embedding of the Python script that exports Power BI reports
    to PDF, applies page rules, merges the documents and mails the result.

    The script drives Selenium, the file system, PyPDF2 and Outlook.  Every
    such external call is an event answered by an abstract platform; the
    program itself is written in a state-and-exception monad over a world
    made of the wall clock, the platform's hidden state and the history of
    log records and external calls.

    Conventions.
    - Time is counted in milliseconds ([Z]); only [time.sleep] advances the
      clock: the external calls take no time.  The script's timeouts are
      given in seconds and converted.  The clock readings of the script are
      binary64 numbers of seconds: where it compares the difference of two
      readings with a bound that the difference meets exactly, to the
      millisecond, the rounding of the subtraction decides, and the
      platform holds it ([clock_tie]).
    - Loops guarded by a deadline are unrolled with fuel; the fuel chosen by
      each function is shown to be enough ([Diverged] is never produced).
    - A Python string is held as its UTF-8 bytes.
    - [os.path] and the iteration order of sets belong to the platform. *)

From Stdlib Require Import ZArith List String Ascii Bool Lia DecimalString Permutation.
From ExtLib Require Import Structures.Monad Structures.MonadExc.
Import ListNotations.
Import MonadNotation.
Local Open Scope string_scope.
Local Open Scope list_scope.
Local Open Scope Z_scope.
Local Open Scope monad_scope.

Set Implicit Arguments.

(* ================================================================== *)
(** ** Python strings *)

Module Py.

Definition lower_ascii (c : ascii) : ascii :=
  let n := nat_of_ascii c in
  if (Nat.leb 65 n && Nat.leb n 90)%bool then ascii_of_nat (n + 32) else c.

Definition byte_is (c : ascii) (n : nat) : bool := Nat.eqb (nat_of_ascii c) n.

(** [s.lower()].  Outside ASCII two characters have a lower case that
    holds an ASCII letter: U+212A KELVIN SIGN (bytes E2 84 AA) gives k, and
    U+0130 (bytes C4 B0) gives i followed by U+0307 (bytes CC 87).  The
    lower case of every other character outside ASCII lies outside ASCII;
    those characters are left as they are, which none of the script's
    comparisons, all of them with ASCII text, can tell. *)
Fixpoint lower (s : string) : string :=
  match s with
  | EmptyString => EmptyString
  | String c r =>
      match r with
      | String c2 r2 =>
          if (byte_is c 196 && byte_is c2 176)%bool then
            String "i" (String (ascii_of_nat 204) (String (ascii_of_nat 135) (lower r2)))
          else
            match r2 with
            | String c3 r3 =>
                if (byte_is c 226 && byte_is c2 132 && byte_is c3 170)%bool
                then String "k" (lower r3)
                else String (lower_ascii c) (lower r)
            | EmptyString => String (lower_ascii c) (lower r)
            end
      | EmptyString => String (lower_ascii c) EmptyString
      end
  end.

(** [s.startswith(p)] *)
Definition startswith (s p : string) : bool := String.prefix p s.

(** [s.endswith(p)] *)
Definition endswith (s p : string) : bool :=
  let n := String.length s in
  let m := String.length p in
  (Nat.leb m n && String.eqb (String.substring (n - m) m s) p)%bool.

(** [s.endswith((p1, p2, ...))] *)
Definition endswith_any (s : string) (ps : list string) : bool :=
  existsb (endswith s) ps.

(** The white space of [str.strip]: the characters for which
    [str.isspace] holds, by the bytes of their UTF-8 form.  In one byte:
    U+0009..U+000D, U+001C..U+001F and U+0020; in two: U+0085 and U+00A0;
    in three: U+1680, U+2000..U+200A, U+2028, U+2029, U+202F, U+205F and
    U+3000. *)
Definition is_space1 (a : ascii) : bool :=
  let n := nat_of_ascii a in
  (Nat.eqb n 32 || (Nat.leb 9 n && Nat.leb n 13) || (Nat.leb 28 n && Nat.leb n 31))%bool.

Definition is_space2 (a b : ascii) : bool :=
  (byte_is a 194 && (byte_is b 133 || byte_is b 160))%bool.

Definition is_space3 (a b c : ascii) : bool :=
  let n := nat_of_ascii c in
  ((byte_is a 225 && byte_is b 154 && byte_is c 128)
   || (byte_is a 226 && byte_is b 128
       && ((Nat.leb 128 n && Nat.leb n 138)
           || byte_is c 168 || byte_is c 169 || byte_is c 175))
   || (byte_is a 226 && byte_is b 129 && byte_is c 159)
   || (byte_is a 227 && byte_is b 128 && byte_is c 128))%bool.

(** [s.lstrip()] *)
Fixpoint lstrip (s : string) : string :=
  match s with
  | EmptyString => EmptyString
  | String a r =>
      if is_space1 a then lstrip r
      else
        match r with
        | String b r2 =>
            if is_space2 a b then lstrip r2
            else
              match r2 with
              | String c r3 => if is_space3 a b c then lstrip r3 else s
              | EmptyString => s
              end
        | EmptyString => s
        end
  end.

(** [s.rstrip()] on the bytes of [s] in reverse order. *)
Fixpoint rstrip_rev (s : string) : string :=
  match s with
  | EmptyString => EmptyString
  | String c r =>
      if is_space1 c then rstrip_rev r
      else
        match r with
        | String b r2 =>
            if is_space2 b c then rstrip_rev r2
            else
              match r2 with
              | String a r3 => if is_space3 a b c then rstrip_rev r3 else s
              | EmptyString => s
              end
        | EmptyString => s
        end
  end.

Fixpoint rev_string (s : string) (acc : string) : string :=
  match s with
  | EmptyString => acc
  | String c r => rev_string r (String c acc)
  end.

(** [s.strip()] *)
Definition strip (s : string) : string :=
  rev_string (rstrip_rev (rev_string (lstrip s) EmptyString)) EmptyString.

(** Truth value of a string, a list, an optional value. *)
Definition truthy_str (s : string) : bool :=
  match s with EmptyString => false | _ => true end.

Definition truthy_list {A} (l : list A) : bool :=
  match l with [] => false | _ => true end.

(** [sep.join(parts)] *)
Fixpoint join (sep : string) (parts : list string) : string :=
  match parts with
  | [] => EmptyString
  | [p] => p
  | p :: r => (p ++ sep ++ join sep r)%string
  end.

(** [range(lo, hi)] *)
Fixpoint range_from (lo : Z) (n : nat) : list Z :=
  match n with
  | O => []
  | S k => lo :: range_from (lo + 1) k
  end.

Definition range (lo hi : Z) : list Z := range_from lo (Z.to_nat (hi - lo)).

(** [l[i]] with Python's negative indices; [None] stands for IndexError. *)
Definition index {A} (l : list A) (i : Z) : option A :=
  let n := Z.of_nat (List.length l) in
  let j := if i <? 0 then i + n else i in
  if (j <? 0) || (n <=? j) then None else nth_error l (Z.to_nat j).

(** [str(n)] for an integer *)
Definition str_of_int (n : Z) : string := NilZero.string_of_int (Z.to_int n).

(** Truth value of an optional integer and of an optional list. *)
Definition truthy_int (x : option Z) : bool :=
  match x with Some n => negb (n =? 0) | None => false end.

Definition truthy_opt_list {A} (x : option (list A)) : bool :=
  match x with Some l => truthy_list l | None => false end.

Definition truthy_opt_str (x : option string) : bool :=
  match x with Some s => truthy_str s | None => false end.

(** [x in l] for strings *)
Definition mem (x : string) (l : list string) : bool :=
  existsb (String.eqb x) l.

(** [set(l)], held as the list of its distinct members.  The script only
    tests membership in such a set or takes a difference with it; the order
    in which a set is iterated is the platform's ([set_difference]). *)
Fixpoint distinct (l : list string) : list string :=
  match l with
  | [] => []
  | x :: r => x :: filter (fun y => negb (String.eqb x y)) (distinct r)
  end.

(** [max(l, key=...)] on already computed keys: the first maximal item. *)
Fixpoint max_by_key {A} (best : A * Z) (l : list (A * Z)) : A * Z :=
  match l with
  | [] => best
  | x :: r => max_by_key (if snd best <? snd x then x else best) r
  end.

End Py.

(* ================================================================== *)
(** ** Data model *)

(** [@dataclass class Report] *)
Record Report := {
  name : string;
  url : string;
  extract_page : option Z;
  drop_pages : option (list Z);
  drop_last_pages : option Z
}.

(** The module-level configuration, read from the process environment
    when the script is imported. *)
Record Config := {
  EMAIL_LIST_DIR : string;
  MSEDGEDRIVER_PATH : string;
  PRE_EXPORT_COOLDOWN_SEC : Z;
  IDLE_STABLE_SECONDS : Z;
  IDLE_TIMEOUT_SEC : Z;
  DOWNLOAD_TIMEOUT_SEC : Z;
  FORCE_EXPORT_IMMEDIATE : bool;
  IMMEDIATE_TRIES : Z;
  DATA_HOJE : string;
  RUN_DIR : string;
  REPORTS : list Report
}.

(** A page of a PDF document and a Selenium WebElement are opaque. *)
Definition Page := Z.
Definition Element := Z.

(** Exceptions.  [External] is whatever a library call raised; the others
    are the script's own [raise] statements and Python's IndexError. *)
Inductive Exn :=
| ValueError_ambiguous (rep_name : string)
| FileNotFoundError_driver (path : string)
| TimeoutError_element (selector : string)
| TimeoutError_idle (rep_name : string)
| TimeoutError_download (rep_name : string)
| RuntimeError_menu (rep_name : string)
| RuntimeError_confirm (rep_name : string)
| IndexError
| External (what : string).

Inductive Reply (A : Type) :=
| Done (a : A)
| Fails (what : string).
Arguments Fails {A} what.

Inductive By := XPATH | TAG_NAME.
Inductive Script := ScrollIntoView | JsClick.
Inductive Expected :=
| element_to_be_clickable (by_ : By) (selector : string)
| presence_of_element_located (by_ : By) (selector : string).

(** The external calls of the script, indexed by the type of their answer. *)
Inductive Call : Type -> Type :=
| EdgeStart (download_dir : string) : Call unit
| DriverGet (url_ : string) : Call unit
| DriverRefresh : Call unit
| DriverQuit : Call unit
| SwitchDefault : Call unit
| SwitchFrame (fr : Element) : Call unit
| FindElements (by_ : By) (selector : string) : Call (list Element)
| WaitUntil (wait : Z) (cond : Expected) : Call Element
| WaitReadyState (wait : Z) : Call unit
| ExecScript (s : Script) (el : Element) : Call unit
| ElemClick (el : Element) : Call unit
| ElemText (el : Element) : Call string
| OsListdir (dir : string) : Call (list string)
| OsGetmtime (path : string) : Call Z
| OsGetsize (path : string) : Call Z
| OsPathExists (path : string) : Call bool
| OsRemove (path : string) : Call unit
| ShutilMove (src dst : string) : Call unit
| ReadLines (path : string) : Call (list string)
| PdfRead (path : string) : Call (list Page)
| PdfWrite (path : string) (pages : list Page) : Call unit
| OutlookDispatch : Call unit
| Popen (path : string) : Call unit
| MailCompose (to_list : list string) (subject html attach : string) : Call unit
| MailSend : Call unit.

Inductive Level := INFO | WARNING | ERROR.

(** One constructor per log statement of the script. *)
Inductive LogMsg :=
| MsgIdleWindow (rep_name : string)
| MsgIdleStable (rep_name : string) (secs : Z)
| MsgTryDirect (rep_name : string)
| MsgDirectOpened (rep_name : string)
| MsgDirectUnavailable (rep_name : string) (e : Exn)
| MsgTryOverflow (rep_name : string)
| MsgOverflowOpened (rep_name : string)
| MsgOverflowUnavailable (rep_name : string) (e : Exn)
| MsgTryFileMenu (rep_name : string)
| MsgFileMenuOpened (rep_name : string)
| MsgFileMenuUnavailable (rep_name : string) (e : Exn)
| MsgConfirmed (rep_name : string)
| MsgConfirmedByText (rep_name : string)
| MsgConfirmFailed (rep_name : string) (e : Exn)
| MsgExportTriggered (rep_name : string)
| MsgMerging (n : nat) (output : string)
| MsgMerged
| MsgAwaitDownload (rep_name : string)
| MsgDownloadDetected (rep_name : string) (new : list string)
| MsgDownloadDone (rep_name : string) (base : string) (size : Z)
| MsgAwaitFinish (rep_name : string) (s1 s2 : Z)
| MsgMailSent
| MsgMailFailed (e : Exn) (to_list : list string)
| MsgStart (rep_name : string)
| MsgImmediateAttempt (rep_name : string) (attempt tries : Z)
| MsgImmediateFailed (rep_name : string) (e : Exn)
| MsgFallback (rep_name : string)
| MsgSaved (rep_name : string) (destino : string)
| MsgExtracting (rep_name : string) (page : Z)
| MsgDroppingLast (rep_name : string) (n : Z)
| MsgDroppingPages (rep_name : string) (pages : list Z)
| MsgFinished (rep_name : string)
| MsgReportError (rep_name : string)
| MsgMainStart
| MsgNoPdf
| MsgNoRecipients
| MsgMainEnd.

Inductive Event :=
| ELog (lvl : Level) (m : LogMsg)
| ECall (A : Type) (c : Call A) (r : Reply A).

(** The platform answers a call from the current time and its own state.
    It also holds what the script takes from the Python runtime and the
    host without leaving a record:
    - [os.path.join] and [os.path.basename], whose rules (drives, UNC
      names, separators) are those of the host; the script relies on one
      fact only, that joining a file name that is not empty gives a path
      that is not empty;
    - the order in which the difference of two sets of names is iterated,
      which depends on the hashes of the process: any order of the members;
    - [clock_tie t s], the outcome of [t - s >= bound] for two clock
      readings that lie, to the millisecond, exactly [bound] apart, where
      the rounding of the binary64 readings decides. *)
Class Platform (Env : Type) := {
  respond : forall A, Call A -> Z -> Env -> Reply A * Env;
  os_path_join : string -> string -> string;
  os_path_basename : string -> string;
  os_path_join_named :
    forall d f, f <> EmptyString -> os_path_join d f <> EmptyString;
  set_difference : list string -> list string -> list string;
  set_difference_members :
    forall listing existing,
      Permutation (set_difference listing existing)
        (filter (fun n => negb (Py.mem n existing)) (Py.distinct listing));
  clock_tie : Z -> Z -> bool
}.

(** [os.path] *)
Module Path.

Definition join {Env} {P : Platform Env} (d f : string) : string :=
  os_path_join d f.

Definition basename {Env} {P : Platform Env} (p : string) : string :=
  os_path_basename p.

End Path.

(** [PDF_FINAL_PATH] *)
Definition PDF_FINAL_PATH {Env} {P : Platform Env} (cfg : Config) : string :=
  Path.join (RUN_DIR cfg) ("IndicadoresDiarios_" ++ DATA_HOJE cfg ++ ".pdf")%string.

Record World (Env : Type) := {
  now : Z;
  env : Env;
  trace : list Event
}.

(* ================================================================== *)
(** ** The monad of the script *)

Inductive Outcome (A : Type) :=
| Ret (a : A)
| Raise (e : Exn)
| Diverged.
Arguments Raise {A} e.
Arguments Diverged {A}.

Definition M (Env : Type) (A : Type) : Type := World Env -> Outcome A * World Env.

Section Monad.
Context {Env : Type}.

Definition m_ret {A} (a : A) : M Env A := fun w => (Ret a, w).

Definition m_bind {A B} (m : M Env A) (k : A -> M Env B) : M Env B :=
  fun w =>
    match m w with
    | (Ret a, w1) => k a w1
    | (Raise e, w1) => (Raise e, w1)
    | (Diverged, w1) => (Diverged, w1)
    end.

Definition m_raise {A} (e : Exn) : M Env A := fun w => (Raise e, w).

(** [try: m  except Exception as e: h e] *)
Definition m_catch {A} (m : M Env A) (h : Exn -> M Env A) : M Env A :=
  fun w =>
    match m w with
    | (Raise e, w1) => h e w1
    | r => r
    end.

#[global] Instance Monad_M : Monad (M Env) :=
  {| ret := @m_ret; bind := @m_bind |}.

#[global] Instance MonadExc_M : MonadExc Exn (M Env) :=
  {| raise := @m_raise; catch := @m_catch |}.

(** [try: m  finally: fin] *)
Definition try_finally {A} (m : M Env A) (fin : M Env unit) : M Env A :=
  fun w =>
    match m w with
    | (Diverged, w1) => (Diverged, w1)
    | (o, w1) =>
        match fin w1 with
        | (Ret _, w2) => (o, w2)
        | (Raise e, w2) => (Raise e, w2)
        | (Diverged, w2) => (Diverged, w2)
        end
    end.

Definition out_of_fuel {A} : M Env A := fun w => (Diverged, w).

(** [time.time()], in milliseconds *)
Definition time_time : M Env Z := fun w => (Ret (now w), w).

(** The world [ms] milliseconds later. *)
Definition later (ms : Z) (w : World Env) : World Env :=
  {| now := now w + ms; env := env w; trace := trace w |}.

(** [time.sleep(ms / 1000)]; a negative length is a ValueError. *)
Definition time_sleep (ms : Z) : M Env unit :=
  fun w =>
    if ms <? 0
    then (Raise (External "ValueError: sleep length must be non-negative"), w)
    else (Ret tt, later ms w).

(** The world after one more event. *)
Definition noted (ev : Event) (w : World Env) : World Env :=
  {| now := now w; env := env w; trace := trace w ++ [ev] |}.

Definition emit (ev : Event) : M Env unit := fun w => (Ret tt, noted ev w).

Definition log_info (m : LogMsg) : M Env unit := emit (ELog INFO m).
Definition log_warning (m : LogMsg) : M Env unit := emit (ELog WARNING m).
Definition log_error (m : LogMsg) : M Env unit := emit (ELog ERROR m).

(** An external call: the platform answers, the exchange is recorded, and
    a failure surfaces as an exception. *)
Definition call `{Platform Env} {A} (c : Call A) : M Env A :=
  fun w =>
    let (r, env') := respond c (now w) (env w) in
    let w' := {| now := now w; env := env'; trace := trace w ++ [ECall c r] |} in
    match r with
    | Done a => (Ret a, w')
    | Fails x => (Raise (External x), w')
    end.

(** [while time.time() < deadline: body].  The body answers [inl s] to go
    round again with loop state [s] and [inr a] for a [return a] from
    inside the loop; [None] means the loop condition ended the loop. *)
Fixpoint while_before {St A} (fuel : nat) (deadline : Z)
    (body : St -> M Env (St + A)) (s : St) : M Env (option A) :=
  match fuel with
  | O => out_of_fuel
  | S k =>
      t <- time_time ;;
      if t <? deadline then
        r <- body s ;;
        match r with
        | inl s' => while_before k deadline body s'
        | inr a => ret (Some a)
        end
      else ret None
  end.

(** Enough rounds for a loop that sleeps at least [period] ms per round
    and gives up [span] ms after it started. *)
Definition poll_fuel (span period : Z) : nat :=
  S (S (Z.to_nat (span / period))).

End Monad.

(* ================================================================== *)
(** ** The script *)

Section Script.
Context {Env : Type} {P : Platform Env}.
Variable cfg : Config.

(** [x is not None], as the summand it is in [Report.validate] *)
Definition is_not_None {A} (x : option A) : nat :=
  match x with Some _ => 1%nat | None => 0%nat end.

(** [Report.validate] *)
Definition flags (rep : Report) : nat :=
  (is_not_None (extract_page rep)
   + is_not_None (drop_pages rep)
   + is_not_None (drop_last_pages rep))%nat.

Definition validate (rep : Report) : M Env unit :=
  if Nat.ltb 1 (flags rep) then raise (ValueError_ambiguous (name rep))
  else ret tt.

(** [setup_edge_driver] *)
Definition setup_edge_driver (download_dir : string) : M Env unit :=
  ex <- call (OsPathExists (MSEDGEDRIVER_PATH cfg)) ;;
  if negb ex then raise (FileNotFoundError_driver (MSEDGEDRIVER_PATH cfg))
  else call (EdgeStart download_dir).

(** The [for fr in frames] loop of [switch_to_frame_with]; [true] stands
    for the [return True] inside it. *)
Fixpoint search_frames (by_ : By) (selector : string) (frames : list Element)
    : M Env bool :=
  match frames with
  | [] => ret false
  | fr :: rest =>
      hit <- catch
               (call SwitchDefault ;;
                call (SwitchFrame fr) ;;
                els <- call (FindElements by_ selector) ;;
                ret (Py.truthy_list els))
               (fun _ => ret false) ;;
      if hit then ret true else search_frames by_ selector rest
  end.

Definition switch_to_frame_with_body (by_ : By) (selector : string) (_ : unit)
    : M Env (unit + bool) :=
  hit <- catch
           (call SwitchDefault ;;
            els <- call (FindElements by_ selector) ;;
            ret (Py.truthy_list els))
           (fun _ => ret false) ;;
  if hit then ret (inr true)
  else
    frames <- call (FindElements TAG_NAME "iframe") ;;
    hit2 <- search_frames by_ selector frames ;;
    if hit2 then ret (inr true)
    else time_sleep 300 ;; ret (inl tt).

(** [switch_to_frame_with(driver, by, selector, timeout)] *)
Definition switch_to_frame_with (by_ : By) (selector : string) (timeout : Z)
    : M Env bool :=
  t0 <- time_time ;;
  let end_ := t0 + 1000 * timeout in
  r <- while_before (poll_fuel (1000 * timeout) 300) end_
         (switch_to_frame_with_body by_ selector) tt ;;
  match r with
  | Some b => ret b
  | None => ret false
  end.

(** [click_anywhere(driver, by, selector, wait, must_be_clickable, timeout)] *)
Definition click_anywhere (by_ : By) (selector : string) (wait : Z)
    (must_be_clickable : bool) (timeout : Z) : M Env Element :=
  found <- switch_to_frame_with by_ selector timeout ;;
  if negb found then raise (TimeoutError_element selector)
  else
    el <- (if must_be_clickable
           then call (WaitUntil wait (element_to_be_clickable by_ selector))
           else call (WaitUntil wait (presence_of_element_located by_ selector))) ;;
    catch
      (call (ExecScript ScrollIntoView el) ;;
       time_sleep 50 ;;
       call (ElemClick el))
      (fun _ => call (ExecScript JsClick el)) ;;
    ret el.

(** [pbix_ready(driver, wait, extra_sleep)] *)
Definition pbix_ready (wait : Z) (extra_sleep : Z) : M Env unit :=
  call SwitchDefault ;;
  catch
    (call (WaitUntil wait (presence_of_element_located TAG_NAME "iframe")) ;;
     ret tt)
    (fun _ => ret tt) ;;
  time_sleep extra_sleep.

Definition loading_selectors : list string :=
  [ "//*[@aria-busy='true']";
    "//*[contains(@class,'busy') or contains(@class,'loading') or contains(@class,'spinner')]";
    "//*[@role='progressbar']";
    "//div[contains(@class,'powerbi-loader')]";
    "//div[contains(@class,'waitSpinner')]" ].

(** [any(driver.find_elements(By.XPATH, s) for s in sels)] *)
Fixpoint any_found (sels : list string) : M Env bool :=
  match sels with
  | [] => ret false
  | s :: rest =>
      els <- call (FindElements XPATH s) ;;
      if Py.truthy_list els then ret true else any_found rest
  end.

(** [_has_loading_indicators(driver)] *)
Definition _has_loading_indicators : M Env bool := any_found loading_selectors.

(** [t - s >= required] on two clock readings: decided by the difference
    in milliseconds, except when readings of different times differ by the
    bound exactly: the rounding of the subtraction decides then. *)
Definition elapsed_ge (t s : Z) (required : Z) : bool :=
  if (t - s =? 1000 * required) && negb (t =? s) then clock_tie t s
  else 1000 * required <=? t - s.

(** One round of the loop of [wait_report_idle]; the loop state is
    [stable_start]. *)
Definition wait_report_idle_body (stable_required : Z) (rep_name : string)
    (stable_start : option Z) : M Env (option Z + bool) :=
  busy <- _has_loading_indicators ;;
  if negb busy then
    s <- match stable_start with
         | None =>
             t <- time_time ;;
             log_info (MsgIdleWindow rep_name) ;;
             ret t
         | Some s => ret s
         end ;;
    t <- time_time ;;
    if elapsed_ge t s stable_required then
      log_info (MsgIdleStable rep_name stable_required) ;;
      ret (inr true)
    else
      time_sleep 400 ;; ret (inl (Some s))
  else
    time_sleep 400 ;; ret (inl None).

(** [wait_report_idle(driver, timeout, stable_required, rep_name)] *)
Definition wait_report_idle (timeout stable_required : Z) (rep_name : string)
    : M Env bool :=
  t0 <- time_time ;;
  let end_ := t0 + 1000 * timeout in
  r <- while_before (poll_fuel (1000 * timeout) 400) end_
         (wait_report_idle_body stable_required rep_name) None ;;
  match r with
  | Some b => ret b
  | None => raise (TimeoutError_idle rep_name)
  end.

(** *** Export: menu navigation, confirmation, the two export modes *)

Definition export_btn : string :=
  "//button[@id='exportMenuBtn'] | " ++
  "//button[contains(@title,'Export') or contains(@aria-label,'Export') or contains(@aria-label,'Exportar')]".

Definition overflow_btn : string :=
  "//button[contains(@aria-label,'Mais opções') or contains(@aria-label,'More options') " ++
  "or contains(@title,'Mais opções') or contains(@title,'More options')]".

Definition pdf_item : string :=
  "//button[.//span[contains(text(),'Exportar para PDF') or contains(text(),'Export to PDF')]]" ++
  " | //div[.//span[contains(text(),'Exportar para PDF') or contains(text(),'Export to PDF')]]//button" ++
  " | //li[.//span[contains(text(),'Exportar para PDF') or contains(text(),'Export to PDF')]]".

Definition file_menu : string :=
  "//button[contains(@aria-label,'Arquivo') or contains(@aria-label,'File') " ++
  "or contains(@title,'Arquivo') or contains(@title,'File')]".

Definition export_sub : string :=
  "//button[.//span[contains(text(),'Exportar') or contains(text(),'Export')]] | " ++
  "//div[.//span[contains(text(),'Exportar') or contains(text(),'Export')]]//button".

Definition pdf_item2 : string :=
  "//button[.//span[contains(text(),'PDF')]] | //div[.//span[contains(text(),'PDF')]]//button".

(** The body of the first [try] of [open_export_menu_unified]. *)
Definition strategy_direct (wait : Z) (rep_name : string) : M Env string :=
  log_info (MsgTryDirect rep_name) ;;
  click_anywhere XPATH export_btn wait true 25 ;;
  log_info (MsgDirectOpened rep_name) ;;
  ret "direct".

(** The body of the second [try]. *)
Definition strategy_overflow (wait : Z) (rep_name : string) : M Env string :=
  log_info (MsgTryOverflow rep_name) ;;
  click_anywhere XPATH overflow_btn wait true 25 ;;
  time_sleep 400 ;;
  click_anywhere XPATH pdf_item wait false 25 ;;
  log_info (MsgOverflowOpened rep_name) ;;
  ret "overflow".

(** The body of the third [try]. *)
Definition strategy_filemenu (wait : Z) (rep_name : string) : M Env string :=
  log_info (MsgTryFileMenu rep_name) ;;
  click_anywhere XPATH file_menu wait true 25 ;;
  time_sleep 400 ;;
  click_anywhere XPATH export_sub wait false 25 ;;
  time_sleep 400 ;;
  click_anywhere XPATH pdf_item2 wait false 25 ;;
  log_info (MsgFileMenuOpened rep_name) ;;
  ret "filemenu".

(** [try: ...; return tag  except Exception as e: log.info(...)]: [Some tag]
    is the [return], [None] falls through to the next statement. *)
Definition try_strategy (body : M Env string) (unavailable : Exn -> LogMsg)
    : M Env (option string) :=
  catch (tag <- body ;; ret (Some tag))
        (fun e => log_info (unavailable e) ;; ret None).

(** [open_export_menu_unified(driver, wait, rep_name)] *)
Definition open_export_menu_unified (wait : Z) (rep_name : string) : M Env string :=
  pbix_ready wait 500 ;;
  r1 <- try_strategy (strategy_direct wait rep_name)
          (MsgDirectUnavailable rep_name) ;;
  match r1 with
  | Some tag => ret tag
  | None =>
      r2 <- try_strategy (strategy_overflow wait rep_name)
              (MsgOverflowUnavailable rep_name) ;;
      match r2 with
      | Some tag => ret tag
      | None =>
          r3 <- try_strategy (strategy_filemenu wait rep_name)
                  (MsgFileMenuUnavailable rep_name) ;;
          match r3 with
          | Some tag => ret tag
          | None => raise (RuntimeError_menu rep_name)
          end
      end
  end.

Definition confirm_selectors : list string :=
  [ "//*[@id='okButton']";
    "//button[@data-testid='dialog-ok-btn']";
    "//button[normalize-space(.)='OK']";
    "//button[normalize-space(.)='Exportar']";
    "//button[normalize-space(.)='Export']" ].

(** The [for sel in selectors] loop of [confirm_pdf_export]. *)
Fixpoint confirm_by_selectors (wait : Z) (rep_name : string) (sels : list string)
    : M Env bool :=
  match sels with
  | [] => ret false
  | sel :: rest =>
      hit <- catch
               (click_anywhere XPATH sel wait true 15 ;;
                log_info (MsgConfirmed rep_name) ;;
                ret true)
               (fun _ => ret false) ;;
      if hit then ret true else confirm_by_selectors wait rep_name rest
  end.

(** The [for b in driver.find_elements(By.TAG_NAME, "button")] loop. *)
Fixpoint confirm_by_text (rep_name : string) (buttons : list Element) : M Env bool :=
  match buttons with
  | [] => ret false
  | b :: rest =>
      txt <- call (ElemText b) ;;
      let t := Py.lower (Py.strip txt) in
      if Py.mem t ["ok"; "exportar"; "export"] then
        call (ExecScript JsClick b) ;;
        log_info (MsgConfirmedByText rep_name) ;;
        ret true
      else confirm_by_text rep_name rest
  end.

(** [confirm_pdf_export(driver, wait, rep_name)] *)
Definition confirm_pdf_export (wait : Z) (rep_name : string) : M Env bool :=
  call SwitchDefault ;;
  hit <- confirm_by_selectors wait rep_name confirm_selectors ;;
  if hit then ret true
  else
    hit2 <- catch
              (call SwitchDefault ;;
               buttons <- call (FindElements TAG_NAME "button") ;;
               confirm_by_text rep_name buttons)
              (fun e => log_error (MsgConfirmFailed rep_name e) ;; ret false) ;;
    if hit2 then ret true else raise (RuntimeError_confirm rep_name).

(** [export_to_pdf_immediate(driver, wait, rep_name)] *)
Definition export_to_pdf_immediate (wait : Z) (rep_name : string) : M Env unit :=
  (if 0 <? PRE_EXPORT_COOLDOWN_SEC cfg
   then time_sleep (1000 * PRE_EXPORT_COOLDOWN_SEC cfg)
   else ret tt) ;;
  path_used <- open_export_menu_unified wait rep_name ;;
  (if String.eqb path_used "direct" then
     catch
       (click_anywhere XPATH "//button[@data-testid='export-to-pdf-btn']" wait true 25 ;;
        ret tt)
       (fun _ =>
          click_anywhere XPATH "//button[.//span[contains(text(),'PDF')]]" wait true 25 ;;
          ret tt)
   else ret tt) ;;
  confirm_pdf_export wait rep_name ;;
  log_info (MsgExportTriggered rep_name).

(** [export_to_pdf_with_idle(driver, wait, rep_name)] *)
Definition export_to_pdf_with_idle (wait : Z) (rep_name : string) : M Env unit :=
  switch_to_frame_with TAG_NAME "button" 10 ;;
  wait_report_idle (IDLE_TIMEOUT_SEC cfg) (IDLE_STABLE_SECONDS cfg) rep_name ;;
  export_to_pdf_immediate wait rep_name.

(** *** PDF helpers *)

(** [for p in paths: m.append(p)] *)
Fixpoint merger_append (paths : list string) (acc : list Page) : M Env (list Page) :=
  match paths with
  | [] => ret acc
  | p :: rest =>
      pages <- call (PdfRead p) ;;
      merger_append rest (acc ++ pages)
  end.

(** [merge_pdfs(paths, output)] *)
Definition merge_pdfs (paths : list string) (output : string) : M Env unit :=
  log_info (MsgMerging (List.length paths) output) ;;
  merged <- merger_append paths [] ;;
  call (PdfWrite output merged) ;;
  log_info MsgMerged.

(** [for i in idxs: writer.add_page(reader.pages[i])] *)
Fixpoint add_pages (pages : list Page) (idxs : list Z) (acc : list Page)
    : M Env (list Page) :=
  match idxs with
  | [] => ret acc
  | i :: rest =>
      match Py.index pages i with
      | Some pg => add_pages pages rest (acc ++ [pg])
      | None => raise IndexError
      end
  end.

(** [extract_single_page(src, dst, page_no)] *)
Definition extract_single_page (src dst : string) (page_no : Z) : M Env unit :=
  pages <- call (PdfRead src) ;;
  kept <- add_pages pages [page_no - 1] [] ;;
  call (PdfWrite dst kept).

(** [strip_last_pages(src, dst, n_last)] *)
Definition strip_last_pages (src dst : string) (n_last : Z) : M Env unit :=
  pages <- call (PdfRead src) ;;
  let total := Z.of_nat (List.length pages) in
  kept <- add_pages pages (Py.range 0 (Z.max 0 (total - n_last))) [] ;;
  call (PdfWrite dst kept).

(** [strip_specific_pages(src, dst, pages_to_remove)] *)
Definition strip_specific_pages (src dst : string) (pages_to_remove : list Z)
    : M Env unit :=
  pages <- call (PdfRead src) ;;
  let total := Z.of_nat (List.length pages) in
  kept <- add_pages pages
            (filter (fun i => negb (existsb (Z.eqb (i + 1)) pages_to_remove))
                    (Py.range 0 total)) [] ;;
  call (PdfWrite dst kept).

(** *** Download watcher *)

(** [_is_temp_file(fn)] *)
Definition _is_temp_file (fn : string) : bool :=
  Py.endswith_any (Py.lower fn) [".crdownload"; ".tmp"; ".part"; ".partial"].

Definition is_pdf_name (n : string) : bool := Py.endswith (Py.lower n) ".pdf".

Definition is_download_name (n : string) : bool :=
  Py.endswith_any (Py.lower n) [".pdf"; ".crdownload"; ".tmp"; ".part"; ".partial"].

(** The keys of [max(paths, key=os.path.getmtime)], read in order. *)
Fixpoint with_mtime (paths : list string) : M Env (list (string * Z)) :=
  match paths with
  | [] => ret []
  | p :: rest =>
      t <- call (OsGetmtime p) ;;
      keyed <- with_mtime rest ;;
      ret ((p, t) :: keyed)
  end.

Definition latest_by_mtime (paths : list string) : M Env string :=
  keyed <- with_mtime paths ;;
  match keyed with
  | [] => raise (External "ValueError: max() arg is an empty sequence")
  | k :: rest => ret (fst (Py.max_by_key k rest))
  end.

Definition option_string_eqb (a : string) (b : option string) : bool :=
  match b with Some b' => String.eqb a b' | None => false end.

(** One round of the loop of [wait_for_pdf_download]; the loop state is
    [(started, last_base)]. *)
Definition wait_for_pdf_download_body (download_dir : string)
    (existing_files : list string) (rep_name : string)
    (st : bool * option string) : M Env (bool * option string + string) :=
  let '(started, last_base) := st in
  listing <- call (OsListdir download_dir) ;;
  let new := set_difference listing existing_files in
  started <- (if negb started && existsb is_download_name new
              then log_info (MsgDownloadDetected rep_name new) ;; ret true
              else ret started) ;;
  if started : bool then
    let pdfs := filter is_pdf_name new in
    let temps := filter _is_temp_file new in
    if Py.truthy_list pdfs && negb (Py.truthy_list temps) then
      let paths := map (Path.join download_dir) pdfs in
      latest <- latest_by_mtime paths ;;
      s1 <- call (OsGetsize latest) ;;
      time_sleep 1200 ;;
      s2 <- call (OsGetsize latest) ;;
      if (s1 =? s2) && (0 <? s2) then
        log_info (MsgDownloadDone rep_name (Path.basename latest) s2) ;;
        ret (inr latest)
      else
        let base := Path.basename latest in
        last_base <- (if negb (option_string_eqb base last_base)
                      then log_info (MsgAwaitFinish rep_name s1 s2) ;; ret (Some base)
                      else ret last_base) ;;
        time_sleep 800 ;; ret (inl (started, last_base))
    else
      time_sleep 800 ;; ret (inl (started, last_base))
  else
    time_sleep 800 ;; ret (inl (started, last_base)).

(** [wait_for_pdf_download(download_dir, existing_files, rep_name, timeout)] *)
Definition wait_for_pdf_download (download_dir : string)
    (existing_files : list string) (rep_name : string) (timeout : Z)
    : M Env string :=
  t0 <- time_time ;;
  let deadline := t0 + 1000 * timeout in
  log_info (MsgAwaitDownload rep_name) ;;
  r <- while_before (poll_fuel (1000 * timeout) 800) deadline
         (wait_for_pdf_download_body download_dir existing_files rep_name)
         (false, None) ;;
  match r with
  | Some path => ret path
  | None => raise (TimeoutError_download rep_name)
  end.

(** *** Recipients and mail *)

Definition is_recipient_file (fn : string) : bool :=
  Py.endswith_any (Py.lower fn) [".txt"; ".csv"].

(** [read_recipients(folder)] *)
Definition read_recipients (folder : string) : M Env (list string) :=
  listing <- call (OsListdir folder) ;;
  match find is_recipient_file listing with
  | Some fn =>
      lines <- call (ReadLines (Path.join folder fn)) ;;
      ret (filter Py.truthy_str (map Py.strip lines))
  | None => ret []
  end.

Definition outlook_candidates : list string :=
  [ "[seu caminho]\OUTLOOK.EXE"; "[seu caminho]\OUTLOOK.EXE" ].

(** [for path in candidates: if os.path.exists(path): ...; break] *)
Fixpoint start_outlook (candidates : list string) : M Env unit :=
  match candidates with
  | [] => ret tt
  | path :: rest =>
      ex <- call (OsPathExists path) ;;
      if ex : bool then call (Popen path) ;; time_sleep 8000
      else start_outlook rest
  end.

(** [send_email_outlook_html(to_list, subject, html_body, attach)] *)
Definition send_email_outlook_html (to_list : list string)
    (subject html_body attach : string) : M Env unit :=
  catch (call OutlookDispatch)
        (fun _ => start_outlook outlook_candidates ;; call OutlookDispatch) ;;
  call (MailCompose to_list subject html_body attach) ;;
  catch (call MailSend ;; log_info MsgMailSent)
        (fun e => log_error (MsgMailFailed e to_list)).

(** *** Main flow *)

(** The [for attempt in range(1, IMMEDIATE_TRIES + 1)] loop of
    [process_single_report]; the result is [immediate_ok]. *)
Fixpoint immediate_attempts (wait : Z) (rep_name : string) (attempts : list Z)
    : M Env bool :=
  match attempts with
  | [] => ret false
  | attempt :: rest =>
      ok <- catch
              (log_info (MsgImmediateAttempt rep_name attempt (IMMEDIATE_TRIES cfg)) ;;
               export_to_pdf_immediate wait rep_name ;;
               ret true)
              (fun e =>
                 log_warning (MsgImmediateFailed rep_name e) ;;
                 call DriverRefresh ;;
                 time_sleep 1000 ;;
                 ret false) ;;
      if ok : bool then ret true else immediate_attempts wait rep_name rest
  end.

(** The export step of [process_single_report]: immediate attempts, then
    the fallback that waits for the report to be idle. *)
Definition export_stage (wait : Z) (rep_name : string) : M Env unit :=
  immediate_ok <- (if FORCE_EXPORT_IMMEDIATE cfg
                   then immediate_attempts wait rep_name
                          (Py.range 1 (IMMEDIATE_TRIES cfg + 1))
                   else ret false) ;;
  if negb immediate_ok then
    log_info (MsgFallback rep_name) ;;
    export_to_pdf_with_idle wait rep_name
  else ret tt.

Definition raw_artifact (rep : Report) : string :=
  Path.join (RUN_DIR cfg) (name rep ++ "_" ++ DATA_HOJE cfg ++ ".pdf").

Definition derived_artifact (rep : Report) (suffix : string) : string :=
  Path.join (RUN_DIR cfg) (name rep ++ "_" ++ DATA_HOJE cfg ++ "_" ++ suffix ++ ".pdf").

(** The page rule of [process_single_report]; the result is [final_path]. *)
Definition apply_page_rule (rep : Report) (destino : string) : M Env string :=
  let rep_name := name rep in
  if Py.truthy_int (extract_page rep) then
    let page := match extract_page rep with Some n => n | None => 0 end in
    let only := derived_artifact rep ("pg" ++ Py.str_of_int page) in
    log_info (MsgExtracting rep_name page) ;;
    extract_single_page destino only page ;;
    ret only
  else if Py.truthy_int (drop_last_pages rep) then
    let n := match drop_last_pages rep with Some n => n | None => 0 end in
    let trimmed := derived_artifact rep "sem_ult" in
    log_info (MsgDroppingLast rep_name n) ;;
    strip_last_pages destino trimmed n ;;
    ret trimmed
  else if Py.truthy_opt_list (drop_pages rep) then
    let l := match drop_pages rep with Some l => l | None => [] end in
    let trimmed := derived_artifact rep "sem_paginas" in
    log_info (MsgDroppingPages rep_name l) ;;
    strip_specific_pages destino trimmed l ;;
    ret trimmed
  else ret destino.

(** The first statements of the [try] of [process_single_report]: the
    snapshot of the run directory and the loading of the report.  The
    result is [existing]. *)
Definition open_report (rep : Report) (wait : Z) : M Env (list string) :=
  log_info (MsgStart (name rep)) ;;
  listing <- call (OsListdir (RUN_DIR cfg)) ;;
  let existing := Py.distinct listing in
  call (DriverGet (url rep)) ;;
  call (WaitReadyState wait) ;;
  pbix_ready wait 500 ;;
  ret existing.

(** The body of the [try] of [process_single_report]. *)
Definition process_report_body (rep : Report) (wait : Z) : M Env string :=
  let rep_name := name rep in
  existing <- open_report rep wait ;;
  export_stage wait rep_name ;;
  pdf_tmp <- wait_for_pdf_download (RUN_DIR cfg) existing rep_name
               (DOWNLOAD_TIMEOUT_SEC cfg) ;;
  let destino := raw_artifact rep in
  ex <- call (OsPathExists destino) ;;
  (if ex : bool then call (OsRemove destino) else ret tt) ;;
  call (ShutilMove pdf_tmp destino) ;;
  log_info (MsgSaved rep_name destino) ;;
  final_path <- apply_page_rule rep destino ;;
  log_info (MsgFinished rep_name) ;;
  ret final_path.

(** [process_single_report(driver, rep, wait)] *)
Definition process_single_report (rep : Report) (wait : Z) : M Env (option string) :=
  validate rep ;;
  catch (final_path <- process_report_body rep wait ;; ret (Some final_path))
        (fun _ => log_error (MsgReportError (name rep)) ;; ret None).

(** The [for rep in reports] loop of [run_all_reports]. *)
Fixpoint run_reports (wait : Z) (reports : list Report)
    (ok_paths falhas : list string) : M Env (list string * list string) :=
  match reports with
  | [] => ret (ok_paths, falhas)
  | rep :: rest =>
      out <- process_single_report rep wait ;;
      let ok_paths' :=
        match out with
        | Some p => if Py.truthy_str p then ok_paths ++ [p] else ok_paths
        | None => ok_paths
        end in
      let falhas' :=
        if Py.truthy_opt_str out then falhas else falhas ++ [name rep] in
      time_sleep 500 ;;
      run_reports wait rest ok_paths' falhas'
  end.

(** [run_all_reports(driver, reports)] *)
Definition run_all_reports (reports : list Report)
    : M Env (list string * list string) :=
  let wait := 60 in
  run_reports wait reports [] [].

Definition nl : string := String (ascii_of_nat 10) EmptyString.
Definition dquote : string := String (ascii_of_nat 34) EmptyString.

(** The item of one failed report and the section that lists them all, as
    [build_email_html] writes them. *)
Definition failed_item (n : string) : string := "<li>" ++ n ++ "</li>".

Definition failures_section (failed_names : list string) : string :=
  "<p><b>Falhas:</b></p><ul>"
  ++ Py.join EmptyString (map failed_item failed_names)
  ++ "</ul>".

(** [build_email_html(ok_reports, failed_names)] *)
Definition build_email_html (ok_reports : list Report) (failed_names : list string)
    : string :=
  let lis_ok :=
    map (fun r => "<li>" ++ name r ++ " — <a href=" ++ dquote ++ url r ++ dquote
                  ++ ">abrir</a></li>")%string
        ok_reports in
  let failed_html :=
    if Py.truthy_list failed_names then failures_section failed_names
    else EmptyString in
  (nl ++ "    <p>Bom dia,</p>" ++
   nl ++ "    <p>Segue o PDF diário consolidado (data " ++ DATA_HOJE cfg ++ ") em anexo.</p>" ++
   nl ++ "    <p>Relatórios processados:</p>" ++
   nl ++ "    <ul>" ++ Py.join EmptyString lis_ok ++ "</ul>" ++
   nl ++ "    " ++ failed_html ++
   nl ++ "    <p>Atenciosamente,<br>Sua Equipe</p>" ++
   nl ++ "    ")%string.

(** [[r for r in REPORTS if any(os.path.basename(p).startswith(r.name + "_")
      for p in ok_paths)]] *)
Definition reports_done (ok_paths : list string) : list Report :=
  filter (fun r =>
            existsb (fun p => Py.startswith (Path.basename p) (name r ++ "_"))
                    ok_paths)
         (REPORTS cfg).

Definition email_subject : string :=
  "Indicadores diários (" ++ DATA_HOJE cfg ++ ")".

(** The [try] block of [main]. *)
Definition main_body : M Env unit :=
  '(ok_paths, falhas) <- run_all_reports (REPORTS cfg) ;;
  if negb (Py.truthy_list ok_paths) then
    log_error MsgNoPdf
  else
    merge_pdfs ok_paths (PDF_FINAL_PATH cfg) ;;
    recipients <- read_recipients (EMAIL_LIST_DIR cfg) ;;
    if negb (Py.truthy_list recipients) then
      log_warning MsgNoRecipients
    else
      let ok_reports := reports_done ok_paths in
      let html := build_email_html ok_reports falhas in
      let subject := email_subject in
      send_email_outlook_html recipients subject html (PDF_FINAL_PATH cfg).

(** [main()] *)
Definition main : M Env unit :=
  log_info MsgMainStart ;;
  setup_edge_driver (RUN_DIR cfg) ;;
  try_finally main_body
    (catch (call DriverQuit) (fun _ => ret tt) ;;
     log_info MsgMainEnd).

End Script.

Arguments process_single_report {Env P} cfg rep wait.
Arguments run_all_reports {Env P} cfg reports.

(* ================================================================== *)
(** ** A scripted platform, for running the script on concrete scenarios *)

Module Demo.

Record Scenario := {
  idle_from : Z;                      (* a loading indicator shows before this time *)
  broken_until : Z;                   (* no element can be waited for before this time *)
  missing : list string;              (* selectors that match nothing *)
  failing_loads : list nat;           (* which [driver.get] calls raise, counted from 1 *)
  good_reloads : option nat;          (* [Some k]: [driver.refresh] raises after k calls *)
  mail_dir : string;                  (* the folder of the recipient list *)
  mail_files : list string;
  mail_lines : list string;
  download_names : Z -> list string;  (* what a pending download looks like at a time *)
  download_size : Z -> Z;
  pdf_pages : list Page
}.

Record State := {
  loads : nat;        (* [driver.get] calls so far *)
  reloads : nat;      (* [driver.refresh] calls so far *)
  pending : bool      (* an export was confirmed and its file not yet moved *)
}.

Definition start : State := {| loads := 0; reloads := 0; pending := false |}.

Definition answer (sc : Scenario) A (c : Call A) (t : Z) (s : State)
    : Reply A * State :=
  match c in Call T return Reply T * State with
  | EdgeStart _ => (Done tt, s)
  | DriverGet _ =>
      let n := S (loads s) in
      let s' := {| loads := n; reloads := reloads s; pending := pending s |} in
      if existsb (Nat.eqb n) (failing_loads sc)
      then (Fails "WebDriverException: navigation failed", s')
      else (Done tt, s')
  | DriverRefresh =>
      let s' := {| loads := loads s; reloads := S (reloads s); pending := pending s |} in
      match good_reloads sc with
      | Some k => if Nat.ltb (reloads s) k then (Done tt, s')
                  else (Fails "WebDriverException: session lost", s')
      | None => (Done tt, s')
      end
  | DriverQuit => (Done tt, s)
  | SwitchDefault => (Done tt, s)
  | SwitchFrame _ => (Done tt, s)
  | FindElements by_ sel =>
      match by_ with
      | TAG_NAME => (Done [1], s)
      | XPATH =>
          if Py.mem sel loading_selectors
          then (Done (if t <? idle_from sc then [7] else []), s)
          else (Done (if Py.mem sel (missing sc) then [] else [1]), s)
      end
  | WaitUntil _ _ =>
      if t <? broken_until sc
      then (Fails "TimeoutException: element not ready", s)
      else (Done 1, s)
  | WaitReadyState _ => (Done tt, s)
  | ExecScript _ _ => (Done tt, s)
  | ElemClick _ =>
      (Done tt, {| loads := loads s; reloads := reloads s; pending := true |})
  | ElemText _ => (Done "OK", s)
  | OsListdir dir =>
      if String.eqb dir (mail_dir sc) then (Done (mail_files sc), s)
      else (Done (if pending s then download_names sc t else []), s)
  | OsGetmtime _ => (Done 1, s)
  | OsGetsize _ => (Done (download_size sc t), s)
  | OsPathExists _ => (Done true, s)
  | OsRemove _ => (Done tt, s)
  | ShutilMove _ _ =>
      (Done tt, {| loads := loads s; reloads := reloads s; pending := false |})
  | ReadLines _ => (Done (mail_lines sc), s)
  | PdfRead _ => (Done (pdf_pages sc), s)
  | PdfWrite _ _ => (Done tt, s)
  | OutlookDispatch => (Done tt, s)
  | Popen _ => (Done tt, s)
  | MailCompose _ _ _ _ => (Done tt, s)
  | MailSend => (Done tt, s)
  end.

(** [os.path] for the scenarios, whose file names are plain (no drive, no
    separator): the name is put after the folder, with a separator unless
    the folder is empty or ends in a separator or a colon; the base name is
    what follows the last separator. *)
Definition sep : string := "\"%string.

Definition is_sep (c : ascii) : bool :=
  (Ascii.eqb c "\"%char || Ascii.eqb c "/"%char)%bool.

Fixpoint ends_folder (d : string) : bool :=
  match d with
  | EmptyString => true
  | String c EmptyString => (is_sep c || Ascii.eqb c ":"%char)%bool
  | String _ r => ends_folder r
  end.

Definition join (d f : string) : string :=
  if ends_folder d then (d ++ f)%string else (d ++ sep ++ f)%string.

Fixpoint basename (p : string) : string :=
  match p with
  | EmptyString => EmptyString
  | String c r =>
      if is_sep c then basename r
      else if existsb is_sep (list_ascii_of_string r) then basename r
      else p
  end.

Definition join_named
    : forall d f, f <> EmptyString -> join d f <> EmptyString :=
  ltac:(intros d f H; unfold join; destruct (ends_folder d); destruct d;
        cbn; try discriminate; exact H).

(** Sets are iterated in the order of the listing they were made from. *)
Definition difference (listing existing : list string) : list string :=
  filter (fun n => negb (Py.mem n existing)) (Py.distinct listing).

(** The platform that answers the calls with [r] and decides with [tie]
    the comparisons of clock readings that meet their bound exactly. *)
Definition scripted (r : forall A, Call A -> Z -> State -> Reply A * State)
    (tie : Z -> Z -> bool) : Platform State :=
  {| respond := r;
     os_path_join := join;
     os_path_basename := basename;
     os_path_join_named := join_named;
     set_difference := difference;
     set_difference_members := fun listing existing => Permutation_refl _;
     clock_tie := tie |}.

(** The platform of a scenario; a difference of clock readings that meets
    its bound exactly passes. *)
Definition platform (sc : Scenario) : Platform State :=
  scripted (answer sc) (fun _ _ => true).

(** The same platform with clock readings whose difference, where it meets
    a bound exactly, is rounded below it. *)
Definition rounding_down (sc : Scenario) : Platform State :=
  scripted (answer sc) (fun _ _ => false).

Definition world (t : Z) : World State :=
  {| now := t; env := start; trace := [] |}.

(** The report is ready at once, every control is there, the download is
    complete when first seen. *)
Definition smooth : Scenario := {|
  idle_from := 0;
  broken_until := 0;
  missing := [];
  failing_loads := [];
  good_reloads := None;
  mail_dir := "mail";
  mail_files := ["lista.txt"];
  mail_lines := ["ana@example.org"; "  "; " rui@example.org "];
  download_names := fun _ => ["export.pdf"];
  download_size := fun _ => 2048;
  pdf_pages := [11; 12; 13]
|}.

(** The loading indicator is shown until [t]. *)
Definition busy_until (t : Z) : Scenario := {|
  idle_from := t;
  broken_until := 0;
  missing := [];
  failing_loads := [];
  good_reloads := None;
  mail_dir := "mail";
  mail_files := [];
  mail_lines := [];
  download_names := fun _ => [];
  download_size := fun _ => 0;
  pdf_pages := []
|}.

(** A download that shows a partial name for two seconds, then its final
    name. *)
Definition downloading : Scenario := {|
  idle_from := 0;
  broken_until := 0;
  missing := [];
  failing_loads := [];
  good_reloads := None;
  mail_dir := "mail";
  mail_files := [];
  mail_lines := [];
  download_names :=
    fun t => if t <? 2000 then ["export.pdf.crdownload"] else ["export.pdf"];
  download_size := fun _ => 2048;
  pdf_pages := []
|}.

(** A final-named file whose size is different at every look. *)
Definition growing : Scenario := {|
  idle_from := 0;
  broken_until := 0;
  missing := [];
  failing_loads := [];
  good_reloads := None;
  mail_dir := "mail";
  mail_files := [];
  mail_lines := [];
  download_names := fun _ => ["export.pdf"];
  download_size := fun t => t + 1;
  pdf_pages := []
|}.

(** The page answers no click during its first eight seconds, and reloads
    work as often as [reloads] says. *)
Definition sluggish (reloads : option nat) : Scenario := {|
  idle_from := 0;
  broken_until := 8000;
  missing := [];
  failing_loads := [];
  good_reloads := reloads;
  mail_dir := "mail";
  mail_files := ["lista.txt"];
  mail_lines := ["ana@example.org"];
  download_names := fun _ => ["export.pdf"];
  download_size := fun _ => 2048;
  pdf_pages := [11; 12; 13]
|}.

(** The second report cannot be loaded; [files] is what the folder of the
    recipient list holds. *)
Definition second_fails (files : list string) : Scenario := {|
  idle_from := 0;
  broken_until := 0;
  missing := [];
  failing_loads := [2%nat];
  good_reloads := None;
  mail_dir := "mail";
  mail_files := files;
  mail_lines := ["ana@example.org"];
  download_names := fun _ => ["export.pdf"];
  download_size := fun _ => 2048;
  pdf_pages := [11; 12; 13]
|}.

(** The world in which [main] starts the batch. *)
Definition started : World State :=
  {| now := 0;
     env := start;
     trace := [ELog INFO MsgMainStart;
               ECall (OsPathExists "msedgedriver.exe") (Done true);
               ECall (EdgeStart "run") (Done tt)] |}.

(** Neither the direct export button nor the overflow menu is there. *)
Definition only_file_menu : Scenario := {|
  idle_from := 0;
  broken_until := 0;
  missing := [export_btn; overflow_btn];
  failing_loads := [];
  good_reloads := None;
  mail_dir := "mail";
  mail_files := [];
  mail_lines := [];
  download_names := fun _ => [];
  download_size := fun _ => 0;
  pdf_pages := []
|}.

(** The direct export button is not there. *)
Definition no_direct_button : Scenario := {|
  idle_from := 0;
  broken_until := 0;
  missing := [export_btn];
  failing_loads := [];
  good_reloads := None;
  mail_dir := "mail";
  mail_files := [];
  mail_lines := [];
  download_names := fun _ => [];
  download_size := fun _ => 0;
  pdf_pages := []
|}.

(** A world in which an export was just confirmed. *)
Definition exporting (t : Z) : World State :=
  {| now := t;
     env := {| loads := 1; reloads := 0; pending := true |};
     trace := [] |}.

Definition config (reports : list Report) : Config := {|
  EMAIL_LIST_DIR := "mail";
  MSEDGEDRIVER_PATH := "msedgedriver.exe";
  PRE_EXPORT_COOLDOWN_SEC := 1;
  IDLE_STABLE_SECONDS := 5;
  IDLE_TIMEOUT_SEC := 90;
  DOWNLOAD_TIMEOUT_SEC := 600;
  FORCE_EXPORT_IMMEDIATE := true;
  IMMEDIATE_TRIES := 3;
  DATA_HOJE := "2024-05-06";
  RUN_DIR := "run";
  REPORTS := reports
|}.

Definition report (n : string) : Report :=
  {| name := n; url := "[seu link]"; extract_page := None;
     drop_pages := None; drop_last_pages := None |}.

(** The four reports of the script's [REPORTS]. *)
Definition reports : list Report :=
  [ report "Relatorio_A";
    {| name := "Relatorio_B"; url := "[seu link]"; extract_page := None;
       drop_pages := Some [4]; drop_last_pages := None |};
    {| name := "Relatorio_C"; url := "[seu link]"; extract_page := Some 5;
       drop_pages := None; drop_last_pages := None |};
    {| name := "Relatorio_D"; url := "[seu link]"; extract_page := None;
       drop_pages := None; drop_last_pages := Some 1 |} ].

(** A report with two page rules. *)
Definition ambiguous : Report :=
  {| name := "Relatorio_X"; url := "[seu link]"; extract_page := Some 1;
     drop_pages := None; drop_last_pages := Some 1 |}.

(** The export dialog shows none of the known confirmation buttons. *)
Definition no_dialog : Scenario := {|
  idle_from := 0;
  broken_until := 0;
  missing := confirm_selectors;
  failing_loads := [];
  good_reloads := None;
  mail_dir := "mail";
  mail_files := [];
  mail_lines := [];
  download_names := fun _ => [];
  download_size := fun _ => 0;
  pdf_pages := []
|}.

(** The platform of a scenario, patched: the calls for which [over] has a
    reply get that reply and leave the state alone. *)
Definition patched (over : forall A, Call A -> option (Reply A)) (sc : Scenario)
    : Platform State :=
  scripted (fun A c t s =>
              match over A c with
              | Some r => (r, s)
              | None => answer sc c t s
              end)
           (fun _ _ => true).

(** The frames of the page cannot be listed. *)
Definition no_frame_list A (c : Call A) : option (Reply A) :=
  match c in Call T return option (Reply T) with
  | FindElements TAG_NAME _ => Some (Fails "WebDriverException: no such window")
  | _ => None
  end.

(** No element can be waited for. *)
Definition no_click A (c : Call A) : option (Reply A) :=
  match c in Call T return option (Reply T) with
  | WaitUntil _ _ => Some (Fails "TimeoutException: element not ready")
  | _ => None
  end.

(** Native clicks are intercepted by an overlay. *)
Definition intercepted A (c : Call A) : option (Reply A) :=
  match c in Call T return option (Reply T) with
  | ElemClick _ => Some (Fails "ElementClickInterceptedException")
  | _ => None
  end.

(** Outlook refuses to send. *)
Definition no_send A (c : Call A) : option (Reply A) :=
  match c in Call T return option (Reply T) with
  | MailSend => Some (Fails "com_error: send refused")
  | _ => None
  end.

(** The driver executable is not where the configuration says. *)
Definition no_driver A (c : Call A) : option (Reply A) :=
  match c in Call T return option (Reply T) with
  | OsPathExists _ => Some (Done false)
  | _ => None
  end.

(** The size of a file cannot be read. *)
Definition no_size A (c : Call A) : option (Reply A) :=
  match c in Call T return option (Reply T) with
  | OsGetsize _ => Some (Fails "OSError: file vanished")
  | _ => None
  end.

End Demo.

(* ================================================================== *)
(** ** Observations on the history *)

(** The Selenium calls made while looking for and clicking elements. *)
Definition ui_call (e : Event) : bool :=
  match e with
  | ECall c _ =>
      match c with
      | SwitchDefault | SwitchFrame _ | FindElements _ _ | WaitUntil _ _
      | ExecScript _ _ | ElemClick _ | ElemText _ => true
      | _ => false
      end
  | ELog _ _ => false
  end.

(** The log records of one export attempt and of the wait for idleness. *)
Definition export_log (m : LogMsg) : bool :=
  match m with
  | MsgIdleWindow _ | MsgIdleStable _ _
  | MsgTryDirect _ | MsgDirectOpened _ | MsgDirectUnavailable _ _
  | MsgTryOverflow _ | MsgOverflowOpened _ | MsgOverflowUnavailable _ _
  | MsgTryFileMenu _ | MsgFileMenuOpened _ | MsgFileMenuUnavailable _ _
  | MsgConfirmed _ | MsgConfirmedByText _ | MsgConfirmFailed _ _
  | MsgExportTriggered _ => true
  | _ => false
  end.

(** What one export attempt, or the wait for idleness, may add. *)
Definition export_event (e : Event) : bool :=
  match e with
  | ELog _ m => export_log m
  | ECall _ _ => ui_call e
  end.

Definition any_event (e : Event) : bool := true.

(** The log records of a history. *)
Fixpoint logs_of (evs : list Event) : list LogMsg :=
  match evs with
  | [] => []
  | ELog _ m :: r => m :: logs_of r
  | ECall _ _ :: r => logs_of r
  end.

(** *** The notification *)

(** [x] occurs in [s]. *)
Definition contains (s x : string) : Prop :=
  exists a b, s = (a ++ x ++ b)%string.

(** The calls that compose and send the mail. *)
Definition mail_call (e : Event) : bool :=
  match e with
  | ECall c _ =>
      match c with
      | OutlookDispatch | Popen _ | MailCompose _ _ _ _ | MailSend => true
      | _ => false
      end
  | ELog _ _ => false
  end.

(** *** Steps of the export orchestrator *)

Inductive Step :=
| Attempt (n : Z)      (* an immediate attempt is announced *)
| Failed               (* the attempt is reported as failed *)
| Reload (ok : bool)   (* [driver.refresh()], and whether it returned *)
| Fallback.            (* the fallback is announced *)

Definition step_of (e : Event) : option Step :=
  match e with
  | ELog _ (MsgImmediateAttempt _ n _) => Some (Attempt n)
  | ELog _ (MsgImmediateFailed _ _) => Some Failed
  | ELog _ (MsgFallback _) => Some Fallback
  | ECall c r =>
      match c with
      | DriverRefresh => Some (Reload (match r with Done _ => true | Fails _ => false end))
      | _ => None
      end
  | _ => None
  end.

(** The orchestrator's steps in a history. *)
Fixpoint steps (evs : list Event) : list Step :=
  match evs with
  | [] => []
  | e :: r =>
      match step_of e with
      | Some st => st :: steps r
      | None => steps r
      end
  end.

(** [k] failed attempts numbered from [first], each followed by a reload. *)
Fixpoint failed_rounds (first : Z) (k : nat) : list Step :=
  match k with
  | O => []
  | S k' => Attempt first :: Failed :: Reload true :: failed_rounds (first + 1) k'
  end.

(** *** Polls of the readiness detector *)

(** The time of the [i]-th poll of a wait that started at [t0]. *)
Definition poll_time (t0 : Z) (i : nat) : Z := t0 + 400 * Z.of_nat i.

(** Poll [j] opens a stability window: it is the first poll, or the poll
    before it saw the report busy. *)
Definition opens_window (signal : Z -> bool) (t0 : Z) (j : nat) : Prop :=
  j = 0%nat \/ exists j', j = S j' /\ signal (poll_time t0 j') = true.

(** What [stable_start] records before poll [i]. *)
Definition window_state (signal : Z -> bool) (t0 required : Z) (i : nat)
    (stable_start : option Z) : Prop :=
  match stable_start with
  | None => opens_window signal t0 i
  | Some s =>
      exists j, (j < i)%nat /\ s = poll_time t0 j /\
        (forall l, (j <= l < i)%nat -> signal (poll_time t0 l) = false) /\
        opens_window signal t0 j /\
        poll_time t0 i - 400 - s <= required
  end.

(** Success at time [p]: every poll from some poll [j] that opened a window
    up to the poll at [p] saw the report idle, [required] ms or more lie
    between the two, and no more than [required] ms lay between poll [j]
    and the poll before [p]: the poll at [p] is the first at which the
    requirement is met, or the one after a poll that met it exactly and
    whose clock comparison was rounded down. *)
Definition stable_stretch (signal : Z -> bool) (t0 required p : Z) : Prop :=
  exists j k, (j <= k)%nat /\ p = poll_time t0 k /\
    (forall l, (j <= l <= k)%nat -> signal (poll_time t0 l) = false) /\
    opens_window signal t0 j /\
    required <= poll_time t0 k - poll_time t0 j /\
    (k = j \/ poll_time t0 k - 400 - poll_time t0 j <= required).

(** *** Rounds of the download watcher *)

(** The entries of a listing that are new since the snapshot. *)
Definition new_entries {Env} {P : Platform Env}
    (existing_files listing : list string) : list string :=
  set_difference listing existing_files.

Definition mtime_read (k : string * Z) : Event :=
  ECall (OsGetmtime (fst k)) (Done (snd k)).

(** The round of [wait_for_pdf_download] that ends with [return latest]:
    what it saw, between the world [w1] it started from and the world [w']
    it ended in.  The new entries come in the order in which the set is
    iterated, which the platform chooses. *)
Definition accepted {Env} {P : Platform Env}
    (download_dir : string) (existing_files : list string)
    (rep_name path : string) (w1 w' : World Env) : Prop :=
  exists listing keyed size detected,
    let new := new_entries existing_files listing in
    let pdfs := filter is_pdf_name new in
    (* the new entries are those of the listing that the snapshot lacks *)
    (forall n, In n new <-> In n listing /\ ~ In n existing_files) /\
    (* a final-named entry is there and no partial-named one *)
    pdfs <> [] /\
    filter _is_temp_file new = [] /\
    (* the path returned is one of the final-named entries ... *)
    (exists n, In n pdfs /\ path = Path.join download_dir n) /\
    (* ... and none of them was modified later *)
    map fst keyed = map (Path.join download_dir) pdfs /\
    (exists t, In (path, t) keyed /\ forall k, In k keyed -> snd k <= t) /\
    (* its size was read twice, 1.2 s apart, with the same non-zero answer *)
    0 < size /\
    now w' = now w1 + 1200 /\
    (detected = [] \/ detected = [ELog INFO (MsgDownloadDetected rep_name new)]) /\
    trace w' =
      trace w1
      ++ ECall (OsListdir download_dir) (Done listing) :: detected
      ++ map mtime_read keyed
      ++ [ECall (OsGetsize path) (Done size);
          ECall (OsGetsize path) (Done size);
          ELog INFO (MsgDownloadDone rep_name (Path.basename path) size)].

(** The directory and file queries of the watcher answer (they do not
    raise). *)
(** *** Results of the batch *)

(** The artifact that [process_single_report] returns for a report. *)
Definition final_artifact {Env} {P : Platform Env} (cfg : Config) (rep : Report)
    : string :=
  if Py.truthy_int (extract_page rep) then
    derived_artifact cfg rep
      ("pg" ++ Py.str_of_int (match extract_page rep with Some n => n | None => 0 end))
  else if Py.truthy_int (drop_last_pages rep) then derived_artifact cfg rep "sem_ult"
  else if Py.truthy_opt_list (drop_pages rep) then derived_artifact cfg rep "sem_paginas"
  else raw_artifact cfg rep.

(** The file name of that artifact: what [process_single_report] joins to
    the run folder. *)
Definition final_file (cfg : Config) (rep : Report) : string :=
  if Py.truthy_int (extract_page rep) then
    name rep ++ "_" ++ DATA_HOJE cfg ++ "_"
    ++ ("pg" ++ Py.str_of_int (match extract_page rep with Some n => n | None => 0 end))
    ++ ".pdf"
  else if Py.truthy_int (drop_last_pages rep) then
    name rep ++ "_" ++ DATA_HOJE cfg ++ "_" ++ "sem_ult" ++ ".pdf"
  else if Py.truthy_opt_list (drop_pages rep) then
    name rep ++ "_" ++ DATA_HOJE cfg ++ "_" ++ "sem_paginas" ++ ".pdf"
  else name rep ++ "_" ++ DATA_HOJE cfg ++ ".pdf".

(** The members of [l] whose mark is [true]. *)
Fixpoint picked {A} (marks : list bool) (l : list A) : list A :=
  match marks, l with
  | m :: marks', x :: l' => if m then x :: picked marks' l' else picked marks' l'
  | _, _ => []
  end.

(** The result of a batch in which the reports marked [true] succeeded. *)
Definition batch_result {Env} {P : Platform Env}
    (cfg : Config) (marks : list bool) (reports : list Report)
    : list string * list string :=
  (map (final_artifact cfg) (picked marks reports),
   map name (picked (map negb marks) reports)).

(** An outcome of the batch loop, had its accumulators started from [x]
    and [y]. *)
Definition prepend (x y : list string) (o : Outcome (list string * list string))
    : Outcome (list string * list string) :=
  match o with
  | Ret (a, b) => Ret (x ++ a, y ++ b)
  | Raise e => Raise e
  | Diverged => Diverged
  end.

(** The reads of [merge_pdfs], one per path, with the pages each gave. *)
Fixpoint pdf_reads (paths : list string) (docs : list (list Page)) : list Event :=
  match paths, docs with
  | p :: paths', d :: docs' => ECall (PdfRead p) (Done d) :: pdf_reads paths' docs'
  | _, _ => []
  end.

(** What [process_single_report] returned for each report of a batch in
    which the reports marked [true] succeeded. *)
Fixpoint returns_of {Env} {P : Platform Env}
    (cfg : Config) (marks : list bool) (reports : list Report)
    : list (option string) :=
  match marks, reports with
  | m :: marks', rep :: reports' =>
      (if m then Some (final_artifact cfg rep) else None)
      :: returns_of cfg marks' reports'
  | _, _ => []
  end.

(** The reports of a batch processed in turn, from [w] to [w']: each
    report is processed in the world left by the report before it and by
    the pause of half a second that follows it; [outs] is what
    [process_single_report] returned for each. *)
Inductive processed {Env} {P : Platform Env} (cfg : Config) (wait : Z)
    : list Report -> World Env -> list (option string) -> World Env -> Prop :=
| processed_nil (w : World Env) : processed cfg wait [] w [] w
| processed_cons (rep : Report) (rest : list Report) (w w1 w' : World Env)
    (out : option string) (outs : list (option string)) :
    process_single_report cfg rep wait w = (Ret out, w1) ->
    processed cfg wait rest (later 500 w1) outs w' ->
    processed cfg wait (rep :: rest) w (out :: outs) w'.

(** The announcement of immediate attempt number [i]. *)
Definition attempt_announced (cfg : Config) (rep_name : string) (i : Z) : Event :=
  ELog INFO (MsgImmediateAttempt rep_name i (IMMEDIATE_TRIES cfg)).

(** The world after a failed attempt that ended in [w1] with error [e],
    its report and the reload, answered by [r], that left the platform in
    [env2]. *)
Definition reloaded {Env} (rep_name : string) (e : Exn) (w1 : World Env)
    (r : Reply unit) (env2 : Env) : World Env :=
  {| now := now w1; env := env2;
     trace := trace w1 ++ [ELog WARNING (MsgImmediateFailed rep_name e);
                           ECall DriverRefresh r] |}.

(** [k] immediate attempts in a row, numbered from [first], that failed,
    from [w] to [w']: each is announced, runs [export_to_pdf_immediate]
    once, is reported as failed and is followed by one reload that
    returned and by a pause of one second. *)
Inductive failed_attempts {Env} {P : Platform Env}
    (cfg : Config) (wait : Z) (rep_name : string)
    : Z -> nat -> World Env -> World Env -> Prop :=
| failed_none (first : Z) (w : World Env) :
    failed_attempts cfg wait rep_name first 0 w w
| failed_more (first : Z) (k : nat) (w w1 w' : World Env) (e : Exn) (env2 : Env) :
    export_to_pdf_immediate cfg wait rep_name
      (noted (attempt_announced cfg rep_name first) w) = (Raise e, w1) ->
    respond DriverRefresh (now w1) (env w1) = (Done tt, env2) ->
    failed_attempts cfg wait rep_name (first + 1) k
      (later 1000 (reloaded rep_name e w1 (Done tt) env2)) w' ->
    failed_attempts cfg wait rep_name first (S k) w w'.

(** *** Further observations *)

(** A [find_elements] by XPath that found nothing. *)
Definition empty_find (selector : string) : Event :=
  ECall (FindElements XPATH selector) (Done []).

(** [[pages[i] for i in idxs]], or [None] if an index is out of range. *)
Fixpoint index_all {A} (pages : list A) (idxs : list Z) : option (list A) :=
  match idxs with
  | [] => Some []
  | i :: rest =>
      match Py.index pages i, index_all pages rest with
      | Some pg, Some l => Some (pg :: l)
      | _, _ => None
      end
  end.

(** The pages with their 0-based positions, counted from [lo]. *)
Definition positions {A} (lo : Z) (pages : list A) : list (Z * A) :=
  combine (Py.range_from lo (List.length pages)) pages.

(** The pages that [strip_specific_pages] keeps. *)
Definition pages_kept {A} (pages_to_remove : list Z) (pages : list A) : list A :=
  map snd
    (filter (fun ip => negb (existsb (Z.eqb (fst ip + 1)) pages_to_remove))
            (positions 0 pages)).

(** The end of a run that read [pages] from [src] and wrote [kept] to
    [dst], the write being answered by [r]; and the world of a run that
    read [pages] from [src] and did nothing more. *)
Definition rewritten {Env} (w : World Env) (src : string) (pages : list Page)
    (dst : string) (kept : list Page) (r : Reply unit) (env2 : Env)
    : Outcome unit * World Env :=
  (match r with Done _ => Ret tt | Fails x => Raise (External x) end,
   {| now := now w; env := env2;
      trace := trace w ++ [ECall (PdfRead src) (Done pages);
                           ECall (PdfWrite dst kept) r] |}).

Definition only_read {Env} (w : World Env) (src : string) (pages : list Page)
    (env1 : Env) : World Env :=
  {| now := now w; env := env1;
     trace := trace w ++ [ECall (PdfRead src) (Done pages)] |}.

(** The error text of a directory or file query of the download watcher
    that failed, and of a look for a loading indicator that failed. *)
Definition query_failure (ev : Event) : option string :=
  match ev with
  | ECall c r =>
      match r with
      | Fails x =>
          match c with
          | OsListdir _ | OsGetmtime _ | OsGetsize _ => Some x
          | _ => None
          end
      | Done _ => None
      end
  | ELog _ _ => None
  end.

Definition indicator_failure (ev : Event) : option string :=
  match ev with
  | ECall c r =>
      match r with
      | Fails x =>
          match c with
          | FindElements XPATH sel =>
              if Py.mem sel loading_selectors then Some x else None
          | _ => None
          end
      | Done _ => None
      end
  | ELog _ _ => None
  end.

(** The last character of a string. *)
Fixpoint last_char (s : string) : option ascii :=
  match s with
  | EmptyString => None
  | String c EmptyString => Some c
  | String _ r => last_char r
  end.

(** *** Properties of runs *)

Section RunProperties.
Context {Env : Type} {P : Platform Env}.

(** A run is well behaved for a class [Q] of events when it ends (it does
    not exhaust its fuel), the clock does not go back, and what it adds to
    the history is in [Q]. *)
Definition grows (Q : Event -> bool) (w w' : World Env) : Prop :=
  now w <= now w' /\
  exists evs, trace w' = trace w ++ evs /\ forallb Q evs = true.

Definition safe {A} (Q : Event -> bool) (m : M Env A) : Prop :=
  forall w o w', m w = (o, w') -> o <> Diverged /\ grows Q w w'.

(** A piece of the script that raises nothing. *)
Definition no_raise {A} (m : M Env A) : Prop :=
  forall w e w', m w <> (Raise e, w').

(** A call that the platform always answers. *)
Definition answered {A} (c : Call A) : Prop :=
  forall t e, exists a e', respond c t e = (Done a, e').

(** The directory and file queries of the download watcher answer. *)
Definition queries_answer : Prop :=
  (forall dir, answered (OsListdir dir)) /\
  (forall path, answered (OsGetmtime path)) /\
  (forall path, answered (OsGetsize path)).

(** A loop body that sleeps at least [period] before going round again. *)
Definition advances {St A} (period : Z) (body : St -> M Env (St + A)) : Prop :=
  forall s w s' w', body s w = (Ret (inl s'), w') -> now w + period <= now w'.

End RunProperties.

(* ================================================================== *)
(** ** Reasoning about runs *)

Unset Implicit Arguments.

Section Laws.
Context {Env : Type} {P : Platform Env}.

Lemma run_bind {A B} (m : M Env A) (k : A -> M Env B) w :
  bind m k w =
  match m w with
  | (Ret a, w1) => k a w1
  | (Raise e, w1) => (Raise e, w1)
  | (Diverged, w1) => (Diverged, w1)
  end.
Proof. reflexivity. Qed.

Lemma run_catch {A} (m : M Env A) (h : Exn -> M Env A) w :
  catch m h w =
  match m w with
  | (Raise e, w1) => h e w1
  | r => r
  end.
Proof. reflexivity. Qed.

Lemma run_ret {A} (a : A) (w : World Env) : (ret a : M Env A) w = (Ret a, w).
Proof. reflexivity. Qed.

Lemma run_raise {A} (e : Exn) (w : World Env) :
  (raise e : M Env A) w = (Raise e, w).
Proof. reflexivity. Qed.

Lemma run_sleep (ms : Z) (w : World Env) :
  0 <= ms -> time_sleep ms w = (Ret tt, later ms w).
Proof.
  intros H. unfold time_sleep. rewrite (proj2 (Z.ltb_ge ms 0) H). reflexivity.
Qed.

Lemma grows_refl Q (w : World Env) : grows Q w w.
Proof.
  split; [lia|]. exists []. rewrite app_nil_r. auto.
Qed.

Lemma grows_trans Q (w1 w2 w3 : World Env) :
  grows Q w1 w2 -> grows Q w2 w3 -> grows Q w1 w3.
Proof.
  intros [H1 [e1 [T1 F1]]] [H2 [e2 [T2 F2]]]. split; [lia|].
  exists (e1 ++ e2). rewrite T2, T1, app_assoc, forallb_app, F1, F2. auto.
Qed.

Lemma grows_weaken (Q Q' : Event -> bool) (w w' : World Env) :
  (forall e, Q e = true -> Q' e = true) -> grows Q w w' -> grows Q' w w'.
Proof.
  intros HQ [H [evs [T F]]]. split; [exact H|]. exists evs. split; [exact T|].
  rewrite forallb_forall in *. auto.
Qed.

Lemma safe_weaken {A} (Q Q' : Event -> bool) (m : M Env A) :
  (forall e, Q e = true -> Q' e = true) -> safe Q m -> safe Q' m.
Proof.
  intros HQ Hm w o w' E. destruct (Hm _ _ _ E) as [Hd Hg].
  split; [exact Hd | eapply grows_weaken; eauto].
Qed.

Lemma safe_ret {A} Q (a : A) : safe Q (ret a : M Env A).
Proof.
  intros w o w' E. rewrite run_ret in E. inversion E; subst.
  split; [discriminate | apply grows_refl].
Qed.

Lemma safe_raise {A} Q e : safe Q (raise e : M Env A).
Proof.
  intros w o w' E. rewrite run_raise in E. inversion E; subst.
  split; [discriminate | apply grows_refl].
Qed.

Lemma safe_bind {A B} Q (m : M Env A) (k : A -> M Env B) :
  safe Q m -> (forall a, safe Q (k a)) -> safe Q (bind m k).
Proof.
  intros Hm Hk w o w' E. rewrite run_bind in E.
  destruct (m w) as [[a|e|] w1] eqn:Em; destruct (Hm _ _ _ Em) as [Hd Hg].
  - destruct (Hk a _ _ _ E) as [Hd' Hg']. split; [exact Hd'|].
    eapply grows_trans; eauto.
  - inversion E; subst. split; [discriminate | exact Hg].
  - congruence.
Qed.

Lemma safe_catch {A} Q (m : M Env A) (h : Exn -> M Env A) :
  safe Q m -> (forall e, safe Q (h e)) -> safe Q (catch m h).
Proof.
  intros Hm Hh w o w' E. rewrite run_catch in E.
  destruct (m w) as [[a|e|] w1] eqn:Em; destruct (Hm _ _ _ Em) as [Hd Hg].
  - inversion E; subst. split; [discriminate | exact Hg].
  - destruct (Hh e _ _ _ E) as [Hd' Hg']. split; [exact Hd'|].
    eapply grows_trans; eauto.
  - congruence.
Qed.

Lemma safe_try_finally {A} Q (m : M Env A) (fin : M Env unit) :
  safe Q m -> safe Q fin -> safe Q (try_finally m fin).
Proof.
  intros Hm Hf w o w' E. unfold try_finally in E.
  destruct (m w) as [[a|e|] w1] eqn:Em; destruct (Hm _ _ _ Em) as [Hd Hg];
    try congruence;
    destruct (fin w1) as [[u|e'|] w2] eqn:Ef; destruct (Hf _ _ _ Ef) as [Hd' Hg'];
    try congruence;
    inversion E; subst; (split; [discriminate | eapply grows_trans; eauto]).
Qed.

Lemma safe_time Q : safe Q (time_time : M Env Z).
Proof.
  intros w o w' E. inversion E; subst. split; [discriminate | apply grows_refl].
Qed.

Lemma safe_sleep Q ms : 0 <= ms -> safe Q (time_sleep ms : M Env unit).
Proof.
  intros Hms w o w' E. rewrite (run_sleep ms w Hms) in E.
  inversion E; subst. split; [discriminate|].
  split; [simpl; lia|]. exists []. simpl. rewrite app_nil_r. auto.
Qed.

Lemma safe_emit (Q : Event -> bool) ev : Q ev = true -> safe Q (emit ev : M Env unit).
Proof.
  intros Hq w o w' E. inversion E; subst. split; [discriminate|].
  split; [simpl; lia|]. exists [ev]. simpl. rewrite Hq. auto.
Qed.

Lemma safe_call {A} (Q : Event -> bool) (c : Call A) :
  (forall r, Q (ECall c r) = true) -> safe Q (call c).
Proof.
  intros Hq w o w' E. unfold call in E.
  destruct (respond c (now w) (env w)) as [r env'] eqn:Er.
  assert (Hg : grows Q w {| now := now w; env := env'; trace := trace w ++ [ECall c r] |}).
  { split; [simpl; lia|]. exists [ECall c r]. simpl. rewrite Hq. auto. }
  destruct r; inversion E; subst; (split; [discriminate | exact Hg]).
Qed.

Lemma while_before_S {St A} f deadline (body : St -> M Env (St + A)) s w :
  while_before (S f) deadline body s w =
  if now w <? deadline then
    match body s w with
    | (Ret (inl s'), w1) => while_before f deadline body s' w1
    | (Ret (inr a), w1) => (Ret (Some a), w1)
    | (Raise e, w1) => (Raise e, w1)
    | (Diverged, w1) => (Diverged, w1)
    end
  else (Ret None, w).
Proof.
  simpl. unfold m_bind, time_time. destruct (now w <? deadline); [|reflexivity].
  destruct (body s w) as [[[s'|a]|e|] w1]; reflexivity.
Qed.

(** Fuel: a loop that sleeps [period] per round and whose deadline is at
    most [period * f] away ends within [S f] rounds. *)
Lemma safe_while {St A} Q period (body : St -> M Env (St + A)) :
  0 < period ->
  (forall s, safe Q (body s)) ->
  advances period body ->
  forall f deadline s w o w',
    deadline - now w <= period * Z.of_nat f ->
    while_before (S f) deadline body s w = (o, w') ->
    o <> Diverged /\ grows Q w w'.
Proof.
  intros Hp Hb Hadv. induction f as [|f IH]; intros deadline s w o w' Hf E;
    rewrite while_before_S in E.
  - assert (Hlt : (now w <? deadline) = false) by (apply Z.ltb_ge; lia).
    rewrite Hlt in E. inversion E; subst.
    split; [discriminate | apply grows_refl].
  - destruct (now w <? deadline) eqn:Hlt.
    + destruct (body s w) as [[r|e|] w1] eqn:Eb; destruct (Hb _ _ _ _ Eb) as [Hd Hg].
      * destruct r as [s'|a].
        -- pose proof (Hadv _ _ _ _ Eb) as Hadv'.
           assert (Hf' : deadline - now w1 <= period * Z.of_nat f) by lia.
           destruct (IH deadline s' w1 o w' Hf' E) as [Hd' Hg'].
           split; [exact Hd' | eapply grows_trans; eauto].
        -- inversion E; subst. split; [discriminate | exact Hg].
      * inversion E; subst. split; [discriminate | exact Hg].
      * congruence.
    + inversion E; subst. split; [discriminate | apply grows_refl].
Qed.

(** How a deadline loop can end. *)
Lemma while_ends {St A} (body : St -> M Env (St + A)) deadline :
  forall f s w o w',
    while_before f deadline body s w = (o, w') ->
    match o with
    | Ret (Some a) =>
        exists s1 w1, body s1 w1 = (Ret (inr a), w') /\ now w1 < deadline
    | Ret None => deadline <= now w'
    | Raise e =>
        exists s1 w1, body s1 w1 = (Raise e, w') /\ now w1 < deadline
    | Diverged => True
    end.
Proof.
  induction f as [|f IH]; intros s w o w' E.
  - inversion E. exact I.
  - rewrite while_before_S in E.
    destruct (now w <? deadline) eqn:Hlt.
    + apply Z.ltb_lt in Hlt.
      destruct (body s w) as [[[s'|a]|e|] w1] eqn:Eb.
      * apply IH in E. exact E.
      * inversion E; subst. eauto.
      * inversion E; subst. eauto.
      * inversion E; subst. exact I.
    + apply Z.ltb_ge in Hlt. inversion E; subst. exact Hlt.
Qed.

Lemma poll_fuel_enough span period :
  0 < period ->
  exists f, poll_fuel span period = S f /\ span <= period * Z.of_nat f.
Proof.
  intros Hp. exists (S (Z.to_nat (span / period))). split; [reflexivity|].
  destruct (Z.lt_ge_cases span 0) as [Hneg|Hpos].
  - nia.
  - rewrite Nat2Z.inj_succ, Z2Nat.id by (apply Z.div_pos; lia).
    pose proof (Z.mul_succ_div_gt span period Hp). lia.
Qed.

Lemma safe_poll {St A} Q period (body : St -> M Env (St + A)) :
  0 < period ->
  (forall s, safe Q (body s)) ->
  advances period body ->
  forall span deadline s w o w',
    deadline - now w <= span ->
    while_before (poll_fuel span period) deadline body s w = (o, w') ->
    o <> Diverged /\ grows Q w w'.
Proof.
  intros Hp Hb Hadv span deadline s w o w' Hspan E.
  destruct (poll_fuel_enough span period Hp) as (f & Hf & Hle).
  rewrite Hf in E. eapply safe_while; eauto. lia.
Qed.

(** The shape shared by the polling functions of the script. *)
Lemma safe_polling {St A B} Q period (body : St -> M Env (St + A)) s0 span
    (k : option A -> M Env B) :
  0 < period ->
  (forall s, safe Q (body s)) ->
  advances period body ->
  (forall r, safe Q (k r)) ->
  safe Q (t0 <- time_time ;;
          r <- while_before (poll_fuel span period) (t0 + span) body s0 ;;
          k r).
Proof.
  intros Hp Hb Hadv Hk w o w' E.
  rewrite run_bind in E. unfold time_time at 1 in E. rewrite run_bind in E.
  destruct (while_before _ _ _ s0 w) as [[r|e|] w1] eqn:El;
    apply (safe_poll Q period body Hp Hb Hadv) in El; try lia;
    destruct El as [Hd Hg]; try congruence.
  - destruct (Hk r _ _ _ E) as [Hd' Hg'].
    split; [exact Hd' | eapply grows_trans; eauto].
  - inversion E; subst. split; [discriminate | exact Hg].
Qed.

Lemma bind_ret_inv {A B} (m : M Env A) (k : A -> M Env B) w b w' :
  bind m k w = (Ret b, w') ->
  exists a w1, m w = (Ret a, w1) /\ k a w1 = (Ret b, w').
Proof.
  rewrite run_bind. destruct (m w) as [[a|e|] w1]; try discriminate. eauto.
Qed.

Lemma bind_raise_inv {A B} (m : M Env A) (k : A -> M Env B) (w w' : World Env) e :
  (x <- m ;; k x) w = (Raise e, w') ->
  m w = (Raise e, w') \/
  exists a w1, m w = (Ret a, w1) /\ k a w1 = (Raise e, w').
Proof.
  rewrite run_bind. destruct (m w) as [[a|e0|] w1]; intros E.
  - right. eauto.
  - left. inversion E; subst. reflexivity.
  - discriminate E.
Qed.

Lemma catch_ret_inv {A} (m : M Env A) (h : Exn -> M Env A) (w w' : World Env) a :
  catch m h w = (Ret a, w') ->
  m w = (Ret a, w') \/
  exists e0 w0, m w = (Raise e0, w0) /\ h e0 w0 = (Ret a, w').
Proof.
  rewrite run_catch. destruct (m w) as [[a0|e0|] w0]; intros E.
  - left. exact E.
  - right. eauto.
  - discriminate E.
Qed.

Lemma catch_raise_inv {A} (m : M Env A) (h : Exn -> M Env A) (w w' : World Env) e :
  catch m h w = (Raise e, w') ->
  exists e0 w0, m w = (Raise e0, w0) /\ h e0 w0 = (Raise e, w').
Proof.
  rewrite run_catch. destruct (m w) as [[a0|e0|] w0]; intros E.
  - discriminate E.
  - eauto.
  - discriminate E.
Qed.

Lemma run_sleep_bind {B} ms (k : unit -> M Env B) w :
  0 <= ms -> bind (time_sleep ms) k w = k tt (later ms w).
Proof. intros H. rewrite run_bind, (run_sleep ms w H). reflexivity. Qed.

Lemma run_emit_bind {B} ev (k : unit -> M Env B) w :
  bind (emit ev) k w = k tt (noted ev w).
Proof. reflexivity. Qed.

Lemma run_time_bind {B} (k : Z -> M Env B) w :
  bind time_time k w = k (now w) w.
Proof. reflexivity. Qed.

Lemma safe_clock {A} Q (m : M Env A) w o w' :
  safe Q m -> m w = (o, w') -> now w <= now w'.
Proof. intros Hs E. apply Hs in E as [_ [H _]]. exact H. Qed.

Lemma no_raise_ret {A} (a : A) : no_raise (ret a : M Env A).
Proof. intros w e w' E. discriminate E. Qed.

Lemma no_raise_bind {A B} (m : M Env A) (k : A -> M Env B) :
  no_raise m -> (forall a, no_raise (k a)) -> no_raise (bind m k).
Proof.
  intros Hm Hk w e w' E. rewrite run_bind in E.
  destruct (m w) as [[a|e0|] w1] eqn:Em.
  - exact (Hk a _ _ _ E).
  - exact (Hm _ _ _ Em).
  - discriminate E.
Qed.

Lemma no_raise_catch {A} (m : M Env A) (h : Exn -> M Env A) :
  (forall e, no_raise (h e)) -> no_raise (catch m h).
Proof.
  intros Hh w e w' E. rewrite run_catch in E.
  destruct (m w) as [[a|e0|] w1] eqn:Em.
  - discriminate E.
  - exact (Hh e0 _ _ _ E).
  - discriminate E.
Qed.

Lemma no_raise_time : no_raise (time_time : M Env Z).
Proof. intros w e w' E. discriminate E. Qed.

Lemma no_raise_sleep ms : 0 <= ms -> no_raise (time_sleep ms : M Env unit).
Proof. intros H w e w' E. rewrite (run_sleep ms w H) in E. discriminate E. Qed.

Lemma no_raise_emit ev : no_raise (emit ev : M Env unit).
Proof. intros w e w' E. discriminate E. Qed.

Lemma no_raise_call {A} (c : Call A) : answered c -> no_raise (call c).
Proof.
  intros H w e w' E. destruct (H (now w) (env w)) as (a & e' & Hr).
  unfold call in E. rewrite Hr in E. discriminate E.
Qed.

Lemma ui_call_export e : ui_call e = true -> export_event e = true.
Proof. destruct e; simpl; [discriminate | auto]. Qed.

Lemma any_event_true (Q : Event -> bool) e : Q e = true -> any_event e = true.
Proof. reflexivity. Qed.

Lemma safe_any {A} Q (m : M Env A) : safe Q m -> safe any_event m.
Proof. apply safe_weaken. intros. reflexivity. Qed.

End Laws.

Create HintDb safe discriminated.

(** One step of a proof that a piece of the script is well behaved. *)
Ltac safe_step :=
  lazymatch goal with
  | |- safe _ (bind _ _) => apply safe_bind; [| intros ?]
  | |- safe _ (m_bind _ _) => apply safe_bind; [| intros ?]
  | |- safe _ (catch _ _) => apply safe_catch; [| intros ?]
  | |- safe _ (m_catch _ _) => apply safe_catch; [| intros ?]
  | |- safe _ (ret _) => apply safe_ret
  | |- safe _ (m_ret _) => apply safe_ret
  | |- safe _ (raise _) => apply safe_raise
  | |- safe _ (try_finally _ _) => apply safe_try_finally
  | |- safe _ (m_raise _) => apply safe_raise
  | |- safe _ time_time => apply safe_time
  | |- safe _ (time_sleep _) => apply safe_sleep; lia
  | |- safe _ (log_info _) => apply safe_emit; reflexivity
  | |- safe _ (log_warning _) => apply safe_emit; reflexivity
  | |- safe _ (log_error _) => apply safe_emit; reflexivity
  | |- safe _ (call _) => apply safe_call; intros ?; reflexivity
  | |- safe _ (if ?b then _ else _) => destruct b
  | |- safe _ (match ?x with _ => _ end) => destruct x
  | |- safe export_event _ =>
      first [ solve [eauto with safe]
            | apply (safe_weaken ui_call export_event _ ui_call_export);
              solve [eauto with safe] ]
  | |- safe any_event _ =>
      first [ solve [eauto with safe]
            | eapply safe_any; solve [eauto with safe] ]
  | |- safe _ _ => solve [eauto with safe]
  end.

Ltac prove_safe := repeat safe_step.

(** One step of a proof that a piece of the script raises nothing. *)
Ltac no_raise_step :=
  lazymatch goal with
  | |- no_raise (bind _ _) => apply no_raise_bind; [| intros ?]
  | |- no_raise (catch _ _) => apply no_raise_catch; intros ?
  | |- no_raise (ret _) => apply no_raise_ret
  | |- no_raise time_time => apply no_raise_time
  | |- no_raise (time_sleep _) => apply no_raise_sleep; lia
  | |- no_raise (log_info _) => apply no_raise_emit
  | |- no_raise (log_warning _) => apply no_raise_emit
  | |- no_raise (log_error _) => apply no_raise_emit
  | |- no_raise (call _) => apply no_raise_call; solve [auto]
  | |- no_raise (if ?b then _ else _) => destruct b
  | |- no_raise _ => solve [auto]
  end.

Ltac prove_no_raise := repeat no_raise_step.

(** Following a run that went round the loop again: each bind is opened
    and the clock bound of its first part is kept. *)
Ltac clock_step E :=
  lazymatch type of E with
  | bind (time_sleep _) _ _ = _ => rewrite run_sleep_bind in E by lia
  | bind ?m ?k ?w = (Ret _, _) =>
      let a := fresh "a" in
      let w1 := fresh "w" in
      let Em := fresh "Em" in
      apply bind_ret_inv in E as (a & w1 & Em & E);
      apply (safe_clock any_event) in Em; [| solve [prove_safe] ]
  | (if ?b then _ else _) _ = _ => destruct b
  | (match ?x with _ => _ end) _ = _ => destruct x
  end.

Ltac clock E :=
  repeat clock_step E;
  cbn in E;
  try discriminate E;
  inversion E; subst; simpl in *; lia.

Section ScriptIsSafe.
Context {Env : Type} {P : Platform Env}.
Variable cfg : Config.

Lemma safe_search_frames by_ selector frames :
  safe ui_call (search_frames by_ selector frames).
Proof. induction frames as [|fr rest IH]; cbn [search_frames]; prove_safe. Qed.
#[local] Hint Resolve safe_search_frames : safe.

Lemma safe_switch_to_frame_with_body by_ selector s :
  safe ui_call (switch_to_frame_with_body by_ selector s).
Proof. unfold switch_to_frame_with_body. prove_safe. Qed.


Lemma advances_switch_to_frame_with_body by_ selector :
  advances 300 (switch_to_frame_with_body by_ selector).
Proof.
  intros s w s' w' E. unfold switch_to_frame_with_body in E. clock E.
Qed.

Lemma safe_switch_to_frame_with by_ selector timeout :
  safe ui_call (switch_to_frame_with by_ selector timeout).
Proof.
  unfold switch_to_frame_with. apply safe_polling with (period := 300).
  - lia.
  - apply safe_switch_to_frame_with_body.
  - apply advances_switch_to_frame_with_body.
  - intros r. prove_safe.
Qed.
#[local] Hint Resolve safe_switch_to_frame_with : safe.

Lemma safe_click_anywhere by_ selector wait must_be_clickable timeout :
  safe ui_call (click_anywhere by_ selector wait must_be_clickable timeout).
Proof. unfold click_anywhere. prove_safe. Qed.
#[local] Hint Resolve safe_click_anywhere : safe.

Lemma safe_pbix_ready Q wait extra_sleep :
  (forall e, ui_call e = true -> Q e = true) ->
  0 <= extra_sleep -> safe Q (pbix_ready wait extra_sleep).
Proof.
  intros HQ Hs. apply (safe_weaken ui_call Q _ HQ). unfold pbix_ready. prove_safe.
Qed.

Lemma safe_any_found sels : safe ui_call (any_found sels).
Proof. induction sels as [|s rest IH]; cbn [any_found]; prove_safe. Qed.
#[local] Hint Resolve safe_any_found : safe.

Lemma safe_has_loading_indicators : safe ui_call _has_loading_indicators.
Proof. apply safe_any_found. Qed.
#[local] Hint Resolve safe_has_loading_indicators : safe.

Lemma safe_wait_report_idle_body stable_required rep_name s :
  safe export_event (wait_report_idle_body stable_required rep_name s).
Proof. unfold wait_report_idle_body. prove_safe. Qed.

Lemma advances_wait_report_idle_body stable_required rep_name :
  advances 400 (wait_report_idle_body stable_required rep_name).
Proof.
  intros s w s' w' E. unfold wait_report_idle_body in E. clock E.
Qed.

Lemma safe_wait_report_idle timeout stable_required rep_name :
  safe export_event (wait_report_idle timeout stable_required rep_name).
Proof.
  unfold wait_report_idle. apply safe_polling with (period := 400).
  - lia.
  - apply safe_wait_report_idle_body.
  - apply advances_wait_report_idle_body.
  - intros r. prove_safe.
Qed.
#[local] Hint Resolve safe_wait_report_idle : safe.

Lemma safe_try_strategy (body : M Env string) unavailable :
  safe export_event body ->
  (forall e, export_log (unavailable e) = true) ->
  safe export_event (try_strategy body unavailable).
Proof.
  intros Hb Hu. unfold try_strategy. prove_safe. apply safe_emit. apply Hu.
Qed.

Lemma safe_open_export_menu_unified wait rep_name :
  safe export_event (open_export_menu_unified wait rep_name).
Proof.
  unfold open_export_menu_unified.
  apply safe_bind; [apply safe_pbix_ready; [apply ui_call_export | lia] | intros _].
  apply safe_bind; [apply safe_try_strategy;
    [unfold strategy_direct; prove_safe | reflexivity] | intros [tag|]]; [prove_safe|].
  apply safe_bind; [apply safe_try_strategy;
    [unfold strategy_overflow; prove_safe | reflexivity] | intros [tag|]]; [prove_safe|].
  apply safe_bind; [apply safe_try_strategy;
    [unfold strategy_filemenu; prove_safe | reflexivity] | intros [tag|]]; prove_safe.
Qed.
#[local] Hint Resolve safe_open_export_menu_unified : safe.

Lemma safe_confirm_by_selectors wait rep_name sels :
  safe export_event (confirm_by_selectors wait rep_name sels).
Proof. induction sels as [|s rest IH]; cbn [confirm_by_selectors]; prove_safe. Qed.
#[local] Hint Resolve safe_confirm_by_selectors : safe.

Lemma safe_confirm_by_text rep_name buttons :
  safe export_event (confirm_by_text rep_name buttons).
Proof. induction buttons as [|b rest IH]; cbn [confirm_by_text]; prove_safe. Qed.
#[local] Hint Resolve safe_confirm_by_text : safe.

Lemma safe_confirm_pdf_export wait rep_name :
  safe export_event (confirm_pdf_export wait rep_name).
Proof. unfold confirm_pdf_export. prove_safe. Qed.
#[local] Hint Resolve safe_confirm_pdf_export : safe.

Lemma safe_export_to_pdf_immediate wait rep_name :
  safe export_event (export_to_pdf_immediate cfg wait rep_name).
Proof.
  unfold export_to_pdf_immediate.
  apply safe_bind; [|intros _; prove_safe].
  destruct (0 <? PRE_EXPORT_COOLDOWN_SEC cfg) eqn:Hc; [|prove_safe].
  apply Z.ltb_lt in Hc. prove_safe.
Qed.
#[local] Hint Resolve safe_export_to_pdf_immediate : safe.

Lemma safe_export_to_pdf_with_idle wait rep_name :
  safe export_event (export_to_pdf_with_idle cfg wait rep_name).
Proof. unfold export_to_pdf_with_idle. prove_safe. Qed.
#[local] Hint Resolve safe_export_to_pdf_with_idle : safe.

Lemma safe_merger_append paths acc : safe any_event (merger_append paths acc).
Proof. revert acc. induction paths as [|p rest IH]; intros acc; cbn [merger_append]; prove_safe. Qed.
#[local] Hint Resolve safe_merger_append : safe.

Lemma safe_merge_pdfs paths output : safe any_event (merge_pdfs paths output).
Proof. unfold merge_pdfs. prove_safe. Qed.
#[local] Hint Resolve safe_merge_pdfs : safe.

Lemma safe_add_pages pages idxs acc :
  safe any_event (add_pages pages idxs acc : M Env (list Page)).
Proof. revert acc. induction idxs as [|i rest IH]; intros acc; cbn [add_pages]; prove_safe. Qed.
#[local] Hint Resolve safe_add_pages : safe.

Lemma safe_extract_single_page src dst page_no :
  safe any_event (extract_single_page src dst page_no).
Proof. unfold extract_single_page. prove_safe. Qed.
#[local] Hint Resolve safe_extract_single_page : safe.

Lemma safe_strip_last_pages src dst n_last :
  safe any_event (strip_last_pages src dst n_last).
Proof. unfold strip_last_pages. prove_safe. Qed.
#[local] Hint Resolve safe_strip_last_pages : safe.

Lemma safe_strip_specific_pages src dst pages_to_remove :
  safe any_event (strip_specific_pages src dst pages_to_remove).
Proof. unfold strip_specific_pages. prove_safe. Qed.
#[local] Hint Resolve safe_strip_specific_pages : safe.

Lemma safe_with_mtime paths : safe any_event (with_mtime paths).
Proof. induction paths as [|p rest IH]; cbn [with_mtime]; prove_safe. Qed.
#[local] Hint Resolve safe_with_mtime : safe.

Lemma safe_latest_by_mtime paths : safe any_event (latest_by_mtime paths).
Proof. unfold latest_by_mtime. prove_safe. Qed.
#[local] Hint Resolve safe_latest_by_mtime : safe.

Lemma safe_wait_for_pdf_download_body download_dir existing rep_name st :
  safe any_event (wait_for_pdf_download_body download_dir existing rep_name st).
Proof. unfold wait_for_pdf_download_body. prove_safe. Qed.

Lemma advances_wait_for_pdf_download_body download_dir existing rep_name :
  advances 800 (wait_for_pdf_download_body download_dir existing rep_name).
Proof.
  intros s w s' w' E. unfold wait_for_pdf_download_body in E. clock E.
Qed.

Lemma safe_wait_for_pdf_download download_dir existing rep_name timeout :
  safe any_event (wait_for_pdf_download download_dir existing rep_name timeout).
Proof.
  intros w o w' E. unfold wait_for_pdf_download in E.
  rewrite run_bind in E. unfold time_time at 1 in E.
  rewrite run_bind in E. unfold log_info at 1, emit at 1 in E.
  rewrite run_bind in E.
  match type of E with
  | context [while_before ?f ?d ?b ?s ?w1] =>
      destruct (while_before f d b s w1) as [[r|e|] w2] eqn:El;
      apply (safe_poll any_event 800) in El;
      try (apply safe_wait_for_pdf_download_body);
      try (apply advances_wait_for_pdf_download_body);
      try (simpl; lia);
      destruct El as [Hd [Hc [evs [Ht Hq]]]]; try congruence;
      assert (Hg : grows any_event w w2)
        by (split; [exact Hc |
                    exists (ELog INFO (MsgAwaitDownload rep_name) :: evs);
                    split; [rewrite Ht; simpl; rewrite <- app_assoc; reflexivity
                           | exact Hq]])
  end.
  - destruct r; inversion E; subst; (split; [discriminate | exact Hg]).
  - inversion E; subst. split; [discriminate | exact Hg].
Qed.
#[local] Hint Resolve safe_wait_for_pdf_download : safe.

Lemma safe_read_recipients folder : safe any_event (read_recipients folder).
Proof. unfold read_recipients. prove_safe. Qed.
#[local] Hint Resolve safe_read_recipients : safe.

Lemma safe_start_outlook candidates : safe any_event (start_outlook candidates).
Proof. induction candidates as [|c rest IH]; cbn [start_outlook]; prove_safe. Qed.
#[local] Hint Resolve safe_start_outlook : safe.

Lemma safe_send_email_outlook_html to_list subject html_body attach :
  safe any_event (send_email_outlook_html to_list subject html_body attach).
Proof. unfold send_email_outlook_html. prove_safe. Qed.
#[local] Hint Resolve safe_send_email_outlook_html : safe.

Lemma safe_immediate_attempts wait rep_name attempts :
  safe any_event (immediate_attempts cfg wait rep_name attempts).
Proof. induction attempts as [|a rest IH]; cbn [immediate_attempts]; prove_safe. Qed.
#[local] Hint Resolve safe_immediate_attempts : safe.

Lemma safe_export_stage wait rep_name :
  safe any_event (export_stage cfg wait rep_name).
Proof. unfold export_stage. prove_safe. Qed.
#[local] Hint Resolve safe_export_stage : safe.

Lemma safe_apply_page_rule rep destino :
  safe any_event (apply_page_rule cfg rep destino).
Proof. unfold apply_page_rule. prove_safe. Qed.
#[local] Hint Resolve safe_apply_page_rule : safe.

Lemma safe_open_report rep wait : safe any_event (open_report cfg rep wait).
Proof.
  unfold open_report. prove_safe.
  apply safe_pbix_ready; [reflexivity | lia].
Qed.
#[local] Hint Resolve safe_open_report : safe.

Lemma safe_process_report_body rep wait :
  safe any_event (process_report_body cfg rep wait).
Proof. unfold process_report_body. prove_safe. Qed.
#[local] Hint Resolve safe_process_report_body : safe.

Lemma safe_validate rep : safe any_event (validate rep : M Env unit).
Proof. unfold validate. prove_safe. Qed.
#[local] Hint Resolve safe_validate : safe.

Lemma safe_process_single_report rep wait :
  safe any_event (process_single_report cfg rep wait).
Proof. unfold process_single_report. prove_safe. Qed.
#[local] Hint Resolve safe_process_single_report : safe.

Lemma safe_run_reports wait reports ok_paths falhas :
  safe any_event (run_reports cfg wait reports ok_paths falhas).
Proof.
  revert ok_paths falhas.
  induction reports as [|rep rest IH]; intros ok_paths falhas;
    cbn [run_reports]; prove_safe.
Qed.
#[local] Hint Resolve safe_run_reports : safe.

Lemma safe_run_all_reports reports : safe any_event (run_all_reports cfg reports).
Proof. unfold run_all_reports. prove_safe. Qed.
#[local] Hint Resolve safe_run_all_reports : safe.

Lemma safe_main_body : safe any_event (main_body cfg).
Proof. unfold main_body. prove_safe. Qed.
#[local] Hint Resolve safe_main_body : safe.

Lemma safe_setup_edge_driver download_dir :
  safe any_event (setup_edge_driver cfg download_dir).
Proof. unfold setup_edge_driver. prove_safe. Qed.
#[local] Hint Resolve safe_setup_edge_driver : safe.

Lemma safe_main : safe any_event (main cfg).
Proof. unfold main. prove_safe. Qed.

End ScriptIsSafe.

(* ================================================================== *)
(** ** Report validation *)

Section Validation.
Context {Env : Type} {P : Platform Env}.
Variable cfg : Config.

Lemma validate_ambiguous (rep : Report) (w : World Env) :
  (2 <= flags rep)%nat ->
  validate rep w = (Raise (ValueError_ambiguous (name rep)), w).
Proof.
  intros H. unfold validate.
  destruct (Nat.ltb_spec 1 (flags rep)) as [_|Hle]; [reflexivity | lia].
Qed.

Lemma validate_ok (rep : Report) (w : World Env) :
  (flags rep <= 1)%nat -> validate rep w = (Ret tt, w).
Proof.
  intros H. unfold validate.
  destruct (Nat.ltb_spec 1 (flags rep)) as [Hlt|_]; [lia | reflexivity].
Qed.

Lemma process_single_report_ambiguous (rep : Report) (wait : Z) (w : World Env) :
  (2 <= flags rep)%nat ->
  process_single_report cfg rep wait w
  = (Raise (ValueError_ambiguous (name rep)), w).
Proof.
  intros H. unfold process_single_report. rewrite run_bind.
  rewrite validate_ambiguous by exact H. reflexivity.
Qed.

(** C7 — A report with two or more active page rules (fields that are not
    None among extract_page, drop_pages, drop_last_pages) is rejected by
    validation with the configuration error before anything else happens:
    [process_single_report] raises it and leaves the world as it found it,
    so no directory was listed, no URL loaded and no element touched. *)
Theorem ambiguous_rules_rejected_before_interaction
    (rep : Report) (wait : Z) (w : World Env) :
  (2 <= flags rep)%nat ->
  validate rep w = (Raise (ValueError_ambiguous (name rep)), w) /\
  process_single_report cfg rep wait w
  = (Raise (ValueError_ambiguous (name rep)), w).
Proof.
  intros H. split.
  - apply validate_ambiguous. exact H.
  - apply process_single_report_ambiguous. exact H.
Qed.

End Validation.

Lemma ambiguous_rules_rejected_witness :
  (2 <= flags Demo.ambiguous)%nat /\
  process_single_report (P := Demo.platform Demo.smooth)
    (Demo.config [Demo.ambiguous]) Demo.ambiguous 60 (Demo.world 0)
  = (Raise (ValueError_ambiguous "Relatorio_X"), Demo.world 0).
Proof.
  split; [vm_compute; lia|].
  apply (ambiguous_rules_rejected_before_interaction
           (P := Demo.platform Demo.smooth)
           (Demo.config [Demo.ambiguous]) Demo.ambiguous 60 (Demo.world 0)).
  vm_compute; lia.
Defined.

(* ================================================================== *)
(** ** Page rules *)

Section PageRules.
Context {Env : Type} {P : Platform Env}.

Lemma range_empty lo hi : hi <= lo -> Py.range lo hi = [].
Proof.
  intros H. unfold Py.range. replace (Z.to_nat (hi - lo)) with 0%nat by lia.
  reflexivity.
Qed.

(** C10 — When [n_last] is at least the number of pages of the source,
    [strip_last_pages] does not reject the request: it reads the source and
    writes a document of zero pages to [dst].  Nothing but the write itself
    can fail after the source was read. *)
Theorem strip_last_pages_truncates
    (src dst : string) (n_last : Z) (w : World Env) (pages : list Page) env1 :
  respond (PdfRead src) (now w) (env w) = (Done pages, env1) ->
  Z.of_nat (List.length pages) <= n_last ->
  exists r env2,
    respond (PdfWrite dst []) (now w) env1 = (r, env2) /\
    strip_last_pages src dst n_last w
    = (match r with Done _ => Ret tt | Fails x => Raise (External x) end,
       {| now := now w; env := env2;
          trace := trace w ++ [ECall (PdfRead src) (Done pages);
                               ECall (PdfWrite dst []) r] |}).
Proof.
  intros Hread Hn.
  destruct (respond (PdfWrite dst []) (now w) env1) as [r env2] eqn:Hwrite.
  exists r, env2. split; [reflexivity|].
  unfold strip_last_pages. rewrite run_bind. unfold call at 1. rewrite Hread.
  rewrite range_empty by lia. cbn [add_pages]. rewrite run_bind, run_ret.
  unfold call. cbn [now env trace]. rewrite Hwrite.
  rewrite <- app_assoc. destruct r as [[]|x]; reflexivity.
Qed.

End PageRules.

Lemma strip_last_pages_truncates_witness :
  respond (Platform := Demo.platform Demo.smooth) (PdfRead "in.pdf") 0 Demo.start
  = (Done [11; 12; 13], Demo.start) /\
  Z.of_nat (List.length [11; 12; 13]) <= 5 /\
  exists r env2,
    respond (Platform := Demo.platform Demo.smooth) (PdfWrite "out.pdf" []) 0 Demo.start
    = (r, env2) /\
    strip_last_pages (P := Demo.platform Demo.smooth) "in.pdf" "out.pdf" 5 (Demo.world 0)
    = (match r with Done _ => Ret tt | Fails x => Raise (External x) end,
       {| now := 0; env := env2;
          trace := [] ++ [ECall (PdfRead "in.pdf") (Done [11; 12; 13]);
                          ECall (PdfWrite "out.pdf" []) r] |}).
Proof.
  split; [reflexivity|]. split; [simpl; lia|].
  apply (strip_last_pages_truncates (P := Demo.platform Demo.smooth)
           "in.pdf" "out.pdf" 5 (Demo.world 0) [11; 12; 13] Demo.start).
  - reflexivity.
  - simpl. lia.
Defined.

(* ================================================================== *)
(** ** Menu navigation *)

Section MenuNavigation.
Context {Env : Type} {P : Platform Env}.

Lemma call_raise_external {A} (c : Call A) (w w' : World Env) e :
  call c w = (Raise e, w') -> exists x, e = External x.
Proof.
  unfold call. destruct (respond c (now w) (env w)) as [[a|x] env'];
    intros E; inversion E; eauto.
Qed.

Lemma pbix_ready_raise wait extra (w w' : World Env) e :
  pbix_ready wait extra w = (Raise e, w') -> exists x, e = External x.
Proof.
  unfold pbix_ready. rewrite run_bind.
  destruct (call SwitchDefault w) as [[[]|e0|] w0] eqn:E0; intros E.
  - rewrite run_bind, run_catch, run_bind in E.
    destruct (call (WaitUntil wait _) w0) as [[el|e1|] w1];
      rewrite ?run_ret in E; cbv beta iota in E;
      unfold time_sleep in E; destruct (extra <? 0); inversion E; eauto.
  - inversion E; subst. eapply call_raise_external; eauto.
  - discriminate E.
Qed.

Lemma strategy_direct_tag wait rep_name (w w' : World Env) tag :
  strategy_direct wait rep_name w = (Ret tag, w') -> tag = "direct".
Proof.
  unfold strategy_direct. intros E.
  apply bind_ret_inv in E as (? & ? & _ & E).
  apply bind_ret_inv in E as (? & ? & _ & E).
  apply bind_ret_inv in E as (? & ? & _ & E).
  inversion E. reflexivity.
Qed.

Lemma strategy_overflow_tag wait rep_name (w w' : World Env) tag :
  strategy_overflow wait rep_name w = (Ret tag, w') -> tag = "overflow".
Proof.
  unfold strategy_overflow. intros E.
  do 5 (apply bind_ret_inv in E as (? & ? & _ & E)).
  inversion E. reflexivity.
Qed.

Lemma strategy_filemenu_tag wait rep_name (w w' : World Env) tag :
  strategy_filemenu wait rep_name w = (Ret tag, w') -> tag = "filemenu".
Proof.
  unfold strategy_filemenu. intros E.
  do 7 (apply bind_ret_inv in E as (? & ? & _ & E)).
  inversion E. reflexivity.
Qed.

Lemma safe_strategy_direct wait rep_name :
  safe export_event (strategy_direct wait rep_name).
Proof.
  unfold strategy_direct. prove_safe;
    apply (safe_weaken ui_call export_event _ ui_call_export);
    apply safe_click_anywhere.
Qed.

Lemma safe_strategy_overflow wait rep_name :
  safe export_event (strategy_overflow wait rep_name).
Proof.
  unfold strategy_overflow. prove_safe;
    apply (safe_weaken ui_call export_event _ ui_call_export);
    apply safe_click_anywhere.
Qed.

Lemma safe_strategy_filemenu wait rep_name :
  safe export_event (strategy_filemenu wait rep_name).
Proof.
  unfold strategy_filemenu. prove_safe;
    apply (safe_weaken ui_call export_event _ ui_call_export);
    apply safe_click_anywhere.
Qed.

Lemma try_strategy_ret (body : M Env string) unavailable w tag w1 :
  body w = (Ret tag, w1) ->
  try_strategy body unavailable w = (Ret (Some tag), w1).
Proof.
  intros E. unfold try_strategy. rewrite run_catch, run_bind, E. reflexivity.
Qed.

Lemma try_strategy_raise (body : M Env string) unavailable w e w1 :
  body w = (Raise e, w1) ->
  try_strategy body unavailable w
  = (Ret None, noted (ELog INFO (unavailable e)) w1).
Proof.
  intros E. unfold try_strategy. rewrite run_catch, run_bind, E. reflexivity.
Qed.

Lemma menu_after_direct wait rep_name (w w0 w1 : World Env) tag :
  pbix_ready wait 500 w = (Ret tt, w0) ->
  strategy_direct wait rep_name w0 = (Ret tag, w1) ->
  open_export_menu_unified wait rep_name w = (Ret tag, w1).
Proof.
  intros Ep E1. unfold open_export_menu_unified.
  rewrite run_bind, Ep, run_bind.
  rewrite (try_strategy_ret _ _ _ _ _ E1). reflexivity.
Qed.

Lemma menu_after_overflow wait rep_name (w w0 w1 w2 : World Env) e1 tag :
  pbix_ready wait 500 w = (Ret tt, w0) ->
  strategy_direct wait rep_name w0 = (Raise e1, w1) ->
  strategy_overflow wait rep_name
    (noted (ELog INFO (MsgDirectUnavailable rep_name e1)) w1) = (Ret tag, w2) ->
  open_export_menu_unified wait rep_name w = (Ret tag, w2).
Proof.
  intros Ep E1 E2. unfold open_export_menu_unified.
  rewrite run_bind, Ep, run_bind.
  rewrite (try_strategy_raise _ _ _ _ _ E1), run_bind.
  rewrite (try_strategy_ret _ _ _ _ _ E2). reflexivity.
Qed.

Lemma menu_after_filemenu wait rep_name (w w0 w1 w2 w3 : World Env) e1 e2 tag :
  pbix_ready wait 500 w = (Ret tt, w0) ->
  strategy_direct wait rep_name w0 = (Raise e1, w1) ->
  strategy_overflow wait rep_name
    (noted (ELog INFO (MsgDirectUnavailable rep_name e1)) w1) = (Raise e2, w2) ->
  strategy_filemenu wait rep_name
    (noted (ELog INFO (MsgOverflowUnavailable rep_name e2)) w2) = (Ret tag, w3) ->
  open_export_menu_unified wait rep_name w = (Ret tag, w3).
Proof.
  intros Ep E1 E2 E3. unfold open_export_menu_unified.
  rewrite run_bind, Ep, run_bind.
  rewrite (try_strategy_raise _ _ _ _ _ E1), run_bind.
  rewrite (try_strategy_raise _ _ _ _ _ E2), run_bind.
  rewrite (try_strategy_ret _ _ _ _ _ E3). reflexivity.
Qed.

Lemma menu_no_path wait rep_name (w w0 w1 w2 w3 : World Env) e1 e2 e3 :
  pbix_ready wait 500 w = (Ret tt, w0) ->
  strategy_direct wait rep_name w0 = (Raise e1, w1) ->
  strategy_overflow wait rep_name
    (noted (ELog INFO (MsgDirectUnavailable rep_name e1)) w1) = (Raise e2, w2) ->
  strategy_filemenu wait rep_name
    (noted (ELog INFO (MsgOverflowUnavailable rep_name e2)) w2) = (Raise e3, w3) ->
  open_export_menu_unified wait rep_name w
  = (Raise (RuntimeError_menu rep_name),
     noted (ELog INFO (MsgFileMenuUnavailable rep_name e3)) w3).
Proof.
  intros Ep E1 E2 E3. unfold open_export_menu_unified.
  rewrite run_bind, Ep, run_bind.
  rewrite (try_strategy_raise _ _ _ _ _ E1), run_bind.
  rewrite (try_strategy_raise _ _ _ _ _ E2), run_bind.
  rewrite (try_strategy_raise _ _ _ _ _ E3). reflexivity.
Qed.


End MenuNavigation.

(** The first two strategies raise (their buttons are searched for 25 s
    each), the third succeeds: the tag is that of the third, and the two
    failures are logged. *)
Example third_strategy_tag :
  exists w',
    open_export_menu_unified (P := Demo.platform Demo.only_file_menu)
      60 "Relatorio_A" (Demo.world 0) = (Ret "filemenu", w') /\
    logs_of (trace w')
    = [MsgTryDirect "Relatorio_A";
       MsgDirectUnavailable "Relatorio_A" (TimeoutError_element export_btn);
       MsgTryOverflow "Relatorio_A";
       MsgOverflowUnavailable "Relatorio_A" (TimeoutError_element overflow_btn);
       MsgTryFileMenu "Relatorio_A";
       MsgFileMenuOpened "Relatorio_A"].
Proof. eexists. split; vm_compute; reflexivity. Qed.

(* ================================================================== *)
(** ** Readiness detector *)

Section Readiness.
Context {Env : Type} {P : Platform Env}.

(** External calls take no time. *)
Lemma call_clock {A} (c : Call A) (w w' : World Env) o :
  call c w = (o, w') -> now w' = now w.
Proof.
  unfold call. destruct (respond c (now w) (env w)) as [[a|x] env'];
    intros E; inversion E; reflexivity.
Qed.

Lemma any_found_clock sels (w w' : World Env) o :
  any_found sels w = (o, w') -> now w' = now w.
Proof.
  revert w. induction sels as [|s rest IH]; intros w E; cbn [any_found] in E.
  - inversion E. reflexivity.
  - rewrite run_bind in E.
    destruct (call (FindElements XPATH s) w) as [[els|e|] w1] eqn:Ec;
      apply call_clock in Ec.
    + destruct (Py.truthy_list els).
      * inversion E; subst. exact Ec.
      * apply IH in E. lia.
    + inversion E; subst. exact Ec.
    + inversion E; subst. exact Ec.
Qed.

Lemma has_loading_clock (w w' : World Env) o :
  _has_loading_indicators w = (o, w') -> now w' = now w.
Proof. apply any_found_clock. Qed.

(** One round, when the report shows a loading indicator. *)
Lemma wait_report_idle_body_busy stable_required rep_name ss (w w1 : World Env) :
  _has_loading_indicators w = (Ret true, w1) ->
  wait_report_idle_body stable_required rep_name ss w
  = (Ret (inl None), later 400 w1).
Proof.
  intros E. unfold wait_report_idle_body. rewrite run_bind, E. reflexivity.
Qed.

(** One round, when it shows none. *)
Lemma wait_report_idle_body_idle stable_required rep_name ss (w w1 : World Env) :
  _has_loading_indicators w = (Ret false, w1) ->
  let s := match ss with Some s => s | None => now w1 end in
  let w2 := match ss with
            | Some _ => w1
            | None => noted (ELog INFO (MsgIdleWindow rep_name)) w1
            end in
  wait_report_idle_body stable_required rep_name ss w
  = if elapsed_ge (now w1) s stable_required
    then (Ret (inr true),
          noted (ELog INFO (MsgIdleStable rep_name stable_required)) w2)
    else (Ret (inl (Some s)), later 400 w2).
Proof.
  intros E. unfold wait_report_idle_body. rewrite run_bind, E. cbn [negb].
  destruct ss as [s|]; cbv zeta.
  - rewrite run_bind, run_ret, run_time_bind.
    destruct (elapsed_ge (now w1) s stable_required); reflexivity.
  - unfold log_info. rewrite run_bind, run_time_bind, run_emit_bind, run_ret, run_time_bind.
    cbn [now noted].
    destruct (elapsed_ge (now w1) (now w1) stable_required); reflexivity.
Qed.

(** What the comparison of two clock readings tells about them. *)
Lemma elapsed_ge_true (t s required : Z) :
  elapsed_ge t s required = true -> 1000 * required <= t - s.
Proof.
  unfold elapsed_ge. destruct (Z.eqb_spec (t - s) (1000 * required)) as [He|Hne].
  - intros _. lia.
  - cbn [andb]. intros H. apply Z.leb_le in H. exact H.
Qed.

Lemma elapsed_ge_false (t s required : Z) :
  elapsed_ge t s required = false -> t - s <= 1000 * required.
Proof.
  unfold elapsed_ge. destruct (Z.eqb_spec (t - s) (1000 * required)) as [He|Hne].
  - intros _. lia.
  - cbn [andb]. intros H. apply Z.leb_gt in H. lia.
Qed.

Lemma busy_loop stable_required rep_name lo deadline :
  (forall w1 : World Env, lo <= now w1 < deadline ->
     exists w2, _has_loading_indicators w1 = (Ret true, w2)) ->
  forall f (w1 : World Env) o w',
    lo <= now w1 ->
    while_before f deadline (wait_report_idle_body stable_required rep_name) None w1
    = (o, w') ->
    o = Diverged \/ (o = Ret None /\ deadline <= now w').
Proof.
  intros Hbusy. induction f as [|f IH]; intros w1 o w' Hlo E.
  - inversion E. left. reflexivity.
  - rewrite while_before_S in E.
    destruct (now w1 <? deadline) eqn:Hlt.
    + apply Z.ltb_lt in Hlt.
      destruct (Hbusy w1 (conj Hlo Hlt)) as [w2 Eb].
      rewrite (wait_report_idle_body_busy _ _ _ _ _ Eb) in E.
      apply has_loading_clock in Eb.
      apply IH in E; [exact E | simpl; lia].
    + apply Z.ltb_ge in Hlt. inversion E; subst. right. auto.
Qed.

(** C5 — If the report shows a loading indicator at every moment of the
    window that starts with the call and lasts [timeout] seconds, then
    [wait_report_idle] raises its timeout error, it does so when at least
    [timeout] seconds have passed since the call, and it does not return. *)
Theorem wait_report_idle_times_out
    (timeout stable_required : Z) (rep_name : string) (w : World Env) :
  (forall w1 : World Env, now w <= now w1 < now w + 1000 * timeout ->
     exists w2, _has_loading_indicators w1 = (Ret true, w2)) ->
  exists w',
    wait_report_idle timeout stable_required rep_name w
    = (Raise (TimeoutError_idle rep_name), w') /\
    now w + 1000 * timeout <= now w'.
Proof.
  intros Hbusy. unfold wait_report_idle. rewrite run_time_bind, run_bind.
  destruct (while_before _ _ _ None w) as [o w'] eqn:El.
  pose proof El as Hs.
  apply (safe_poll export_event 400) in Hs;
    [ | lia | apply safe_wait_report_idle_body
      | apply advances_wait_report_idle_body | lia ].
  apply (busy_loop _ _ _ _ Hbusy) in El; [|lia].
  destruct El as [->|[-> Hd]]; [tauto|].
  exists w'. split; [reflexivity | exact Hd].
Qed.

End Readiness.

(** On the scripted platform the loading indicator is a function of time. *)
Lemma demo_has_loading (sc : Demo.Scenario) (w : World Demo.State) :
  exists w',
    _has_loading_indicators (P := Demo.platform sc) w
    = (Ret (now w <? Demo.idle_from sc), w').
Proof.
  unfold _has_loading_indicators, loading_selectors.
  destruct (now w <? Demo.idle_from sc) eqn:Hb.
  - cbn [any_found]. rewrite run_bind. unfold call at 1.
    cbn [respond Demo.platform Demo.scripted Demo.answer].
    change (Py.mem "//*[@aria-busy='true']" loading_selectors) with true.
    cbv iota. rewrite Hb. cbn. eexists. reflexivity.
  - cbn [any_found].
    repeat (rewrite run_bind; unfold call at 1;
            cbn [respond Demo.platform Demo.scripted Demo.answer now env trace];
            match goal with
            | |- context [Py.mem ?s loading_selectors] =>
                change (Py.mem s loading_selectors) with true
            end;
            cbv iota; rewrite Hb; cbn [Py.truthy_list]).
    eexists. reflexivity.
Qed.

Lemma wait_report_idle_times_out_witness :
  exists w',
    wait_report_idle (P := Demo.platform (Demo.busy_until 1000000))
      2 5 "Relatorio_A" (Demo.world 0)
    = (Raise (TimeoutError_idle "Relatorio_A"), w') /\
    now (Demo.world 0) + 1000 * 2 <= now w'.
Proof.
  apply (wait_report_idle_times_out
           (P := Demo.platform (Demo.busy_until 1000000))
           2 5 "Relatorio_A" (Demo.world 0)).
  intros w1 Hw1. destruct (demo_has_loading (Demo.busy_until 1000000) w1) as [w2 E].
  exists w2. rewrite E.
  replace (now w1 <? Demo.idle_from (Demo.busy_until 1000000)) with true;
    [reflexivity|].
  symmetry. apply Z.ltb_lt. simpl in *. lia.
Defined.

Section Stability.
Context {Env : Type} {P : Platform Env}.
Variable signal : Z -> bool.
Hypothesis Hsignal :
  forall w : World Env,
    exists w', _has_loading_indicators w = (Ret (signal (now w)), w').

Lemma poll_time_S t0 i : poll_time t0 (S i) = poll_time t0 i + 400.
Proof. unfold poll_time. lia. Qed.

(** The loop of [wait_report_idle], poll by poll. *)
Lemma idle_loop stable_required rep_name t0 deadline :
  forall f i ss (w1 : World Env) o w',
    now w1 = poll_time t0 i ->
    window_state signal t0 (1000 * stable_required) i ss ->
    while_before f deadline (wait_report_idle_body stable_required rep_name) ss w1
    = (o, w') ->
    match o with
    | Ret (Some b) =>
        b = true /\
        stable_stretch signal t0 (1000 * stable_required) (now w') /\
        now w' < deadline
    | Ret None =>
        exists k ss', now w' = poll_time t0 k /\ deadline <= now w' /\
                      window_state signal t0 (1000 * stable_required) k ss'
    | Raise _ => False
    | Diverged => True
    end.
Proof.
  induction f as [|f IH]; intros i ss w1 o w' Hnow Hst E.
  - inversion E. exact I.
  - rewrite while_before_S in E.
    destruct (now w1 <? deadline) eqn:Hlt.
    2:{ apply Z.ltb_ge in Hlt. inversion E; subst. eauto. }
    apply Z.ltb_lt in Hlt.
    destruct (Hsignal w1) as [w2 Eb].
    pose proof (has_loading_clock _ _ _ Eb) as Hclock.
    destruct (signal (now w1)) eqn:Hsig.
    + (* busy: the window is reset *)
      rewrite (wait_report_idle_body_busy _ _ _ _ _ Eb) in E.
      apply (IH (S i)) in E; [exact E | | ].
      * rewrite poll_time_S. cbn [now later noted]. lia.
      * cbn [window_state]. right. exists i. split; [reflexivity|]. rewrite <- Hnow. exact Hsig.
    + (* idle *)
      rewrite (wait_report_idle_body_idle _ _ _ _ _ Eb) in E.
      destruct ss as [s|].
      * destruct Hst as (j & Hj & Hs & Hidle & Hopen & Hlast).
        destruct (elapsed_ge (now w2) s stable_required) eqn:Hreq.
        -- apply elapsed_ge_true in Hreq. inversion E; subst o w'.
           split; [reflexivity|]. cbn [now noted]. split; [|lia].
           exists j, i. repeat split.
           ++ lia.
           ++ lia.
           ++ intros l Hl. destruct (Nat.eq_dec l i) as [->|Hne].
              ** rewrite <- Hnow. exact Hsig.
              ** apply Hidle. lia.
           ++ exact Hopen.
           ++ lia.
           ++ right. lia.
        -- apply elapsed_ge_false in Hreq.
           apply (IH (S i)) in E; [exact E | | ].
           ++ rewrite poll_time_S. cbn [now later noted]. lia.
           ++ cbn [window_state]. exists j. repeat split.
              ** lia.
              ** exact Hs.
              ** intros l Hl. destruct (Nat.eq_dec l i) as [->|Hne].
                 --- rewrite <- Hnow. exact Hsig.
                 --- apply Hidle. lia.
              ** exact Hopen.
              ** rewrite poll_time_S. lia.
      * cbn [window_state] in Hst.
        destruct (elapsed_ge (now w2) (now w2) stable_required) eqn:Hreq.
        -- apply elapsed_ge_true in Hreq. inversion E; subst o w'.
           split; [reflexivity|]. cbn [now noted]. split; [|lia].
           exists i, i. repeat split.
           ++ lia.
           ++ lia.
           ++ intros l Hl. replace l with i by lia. rewrite <- Hnow. exact Hsig.
           ++ exact Hst.
           ++ lia.
           ++ left. reflexivity.
        -- apply elapsed_ge_false in Hreq.
           apply (IH (S i)) in E; [exact E | | ].
           ++ rewrite poll_time_S. cbn [now later noted]. lia.
           ++ cbn [window_state]. exists i. repeat split.
              ** lia.
              ** lia.
              ** intros l Hl. replace l with i by lia. rewrite <- Hnow. exact Hsig.
              ** exact Hst.
              ** rewrite poll_time_S. lia.
Qed.

(** The outcome of [wait_report_idle] in terms of its loop. *)
Lemma wait_report_idle_run timeout stable_required rep_name (w : World Env) :
  exists o w',
    while_before (poll_fuel (1000 * timeout) 400) (now w + 1000 * timeout)
      (wait_report_idle_body stable_required rep_name) None w = (o, w') /\
    o <> Diverged /\
    wait_report_idle timeout stable_required rep_name w
    = match o with
      | Ret (Some b) => (Ret b, w')
      | Ret None => (Raise (TimeoutError_idle rep_name), w')
      | Raise e => (Raise e, w')
      | Diverged => (Diverged, w')
      end.
Proof.
  destruct (while_before (poll_fuel (1000 * timeout) 400) (now w + 1000 * timeout)
      (wait_report_idle_body stable_required rep_name) None w) as [o w'] eqn:El.
  exists o, w'. split; [reflexivity|]. split.
  - apply (safe_poll export_event 400) in El;
      [ tauto | lia | apply safe_wait_report_idle_body
      | apply advances_wait_report_idle_body | lia ].
  - unfold wait_report_idle. rewrite run_time_bind, run_bind, El.
    destruct o as [[b|]| |]; reflexivity.
Qed.

Lemma opens_window_step T t0 j :
  (forall t, signal t = (t <? T)) ->
  t0 <= T ->
  opens_window signal t0 j ->
  signal (poll_time t0 j) = false ->
  T <= poll_time t0 j < T + 400.
Proof.
  intros Hstep Ht0 Hopen Hidle. rewrite Hstep in Hidle. apply Z.ltb_ge in Hidle.
  split; [exact Hidle|].
  destruct Hopen as [->|(j' & -> & Hbusy)].
  - unfold poll_time in *. lia.
  - rewrite Hstep in Hbusy. apply Z.ltb_lt in Hbusy. rewrite poll_time_S. lia.
Qed.


End Stability.


(** A report idle from the start and a wait for 4 s of stability begun at
    0.1 s: the poll at 4.1 s meets the requirement exactly.  Where the
    difference of the two readings is rounded down (in binary64,
    4.1 - 0.1 < 4), success comes one poll later, at 4.5 s. *)
Example wait_report_idle_rounded_down :
  (exists w',
      wait_report_idle (P := Demo.platform Demo.smooth)
        90 4 "Relatorio_A" (Demo.world 100) = (Ret true, w') /\ now w' = 4100)
  /\
  (exists w',
      wait_report_idle (P := Demo.rounding_down Demo.smooth)
        90 4 "Relatorio_A" (Demo.world 100) = (Ret true, w') /\ now w' = 4500).
Proof. split; eexists; split; vm_compute; reflexivity. Qed.


(* ================================================================== *)
(** ** Download watcher *)

Section Watcher.
Context {Env : Type} {P : Platform Env}.

Lemma call_ret_inv {A} (c : Call A) (w w' : World Env) a :
  call c w = (Ret a, w') ->
  exists e', respond c (now w) (env w) = (Done a, e') /\
             w' = {| now := now w; env := e'; trace := trace w ++ [ECall c (Done a)] |}.
Proof.
  unfold call. destruct (respond c (now w) (env w)) as [[a'|x] e'];
    intros E; inversion E; subst. eauto.
Qed.

Lemma call_raise_inv {A} (c : Call A) (w w' : World Env) e :
  call c w = (Raise e, w') ->
  exists x e',
    respond c (now w) (env w) = (Fails x, e') /\ e = External x /\
    w' = {| now := now w; env := e'; trace := trace w ++ [ECall c (Fails x)] |}.
Proof.
  unfold call. destruct (respond c (now w) (env w)) as [[a|x] e'];
    intros E; inversion E; subst. eauto.
Qed.

Lemma with_mtime_ret paths (w w' : World Env) keyed :
  with_mtime paths w = (Ret keyed, w') ->
  map fst keyed = paths /\ now w' = now w /\
  trace w' = trace w ++ map mtime_read keyed.
Proof.
  revert w w' keyed. induction paths as [|p rest IH]; intros w w' keyed E;
    cbn [with_mtime] in E.
  - inversion E; subst. simpl. rewrite app_nil_r. auto.
  - apply bind_ret_inv in E as (t & w1 & Ec & E).
    apply call_ret_inv in Ec as (e' & _ & ->).
    apply bind_ret_inv in E as (keyed' & w2 & Er & E).
    apply IH in Er as (Hk & Hn & Ht).
    inversion E; subst. cbn [map fst now trace] in *.
    rewrite Ht. cbn [now trace]. rewrite <- app_assoc. auto.
Qed.

Lemma max_by_key_spec (l : list (string * Z)) best :
  In (Py.max_by_key best l) (best :: l) /\
  forall k, In k (best :: l) -> snd k <= snd (Py.max_by_key best l).
Proof.
  revert best. induction l as [|x r IH]; intros best; cbn [Py.max_by_key].
  - split; [left; reflexivity|]. intros k [->|[]]. lia.
  - destruct (IH (if snd best <? snd x then x else best)) as [Hin Hmax].
    split.
    + destruct Hin as [Heq|Hin]; [|right; right; exact Hin].
      rewrite <- Heq. destruct (snd best <? snd x); [right; left|left]; reflexivity.
    + intros k Hk.
      assert (Hb : snd best <= snd (if snd best <? snd x then x else best) /\
                   snd x <= snd (if snd best <? snd x then x else best)).
      { destruct (Z.ltb_spec (snd best) (snd x)); lia. }
      pose proof (Hmax _ (or_introl eq_refl)) as H0.
      destruct Hk as [->|[->|Hk]]; [lia | lia |].
      apply Hmax. right. exact Hk.
Qed.

Lemma latest_by_mtime_ret paths (w w' : World Env) latest :
  latest_by_mtime paths w = (Ret latest, w') ->
  exists keyed t,
    map fst keyed = paths /\ now w' = now w /\
    trace w' = trace w ++ map mtime_read keyed /\
    In (latest, t) keyed /\ forall k, In k keyed -> snd k <= t.
Proof.
  unfold latest_by_mtime. intros E.
  apply bind_ret_inv in E as (keyed & w1 & Ek & E).
  apply with_mtime_ret in Ek as (Hk & Hn & Ht).
  destruct keyed as [|k rest]; [discriminate E|].
  inversion E; subst.
  destruct (max_by_key_spec rest k) as [Hin Hmax].
  exists (k :: rest), (snd (Py.max_by_key k rest)).
  repeat split; auto.
  destruct (Py.max_by_key k rest) as [p t]. exact Hin.
Qed.

Lemma truthy_list_true {A} (l : list A) : Py.truthy_list l = true -> l <> [].
Proof. destruct l; [discriminate | intros _; discriminate]. Qed.

Lemma truthy_list_false {A} (l : list A) : Py.truthy_list l = false -> l = [].
Proof. destruct l; [reflexivity | discriminate]. Qed.

Lemma mem_In (x : string) (l : list string) : Py.mem x l = true <-> In x l.
Proof.
  unfold Py.mem. rewrite existsb_exists. split.
  - intros (y & Hy & He). apply String.eqb_eq in He. subst y. exact Hy.
  - intros H. exists x. split; [exact H | apply String.eqb_refl].
Qed.

Lemma distinct_In (l : list string) (x : string) : In x (Py.distinct l) <-> In x l.
Proof.
  induction l as [|y r IH]; cbn [Py.distinct In]; [tauto|].
  rewrite filter_In, IH. split.
  - intros [H|[H _]]; auto.
  - intros [H|H]; [left; exact H|].
    destruct (String.eqb_spec y x) as [He|Hne]; [left; exact He|].
    right. split; [exact H | reflexivity].
Qed.

(** The new entries are the entries of the listing that the snapshot
    lacks, whatever the order in which the set gives them. *)
Lemma new_entries_spec (existing listing : list string) (n : string) :
  In n (new_entries existing listing) <-> In n listing /\ ~ In n existing.
Proof.
  unfold new_entries.
  pose proof (set_difference_members listing existing) as Hp.
  assert (Hf : In n (filter (fun n => negb (Py.mem n existing)) (Py.distinct listing))
               <-> In n listing /\ ~ In n existing).
  { rewrite filter_In, distinct_In. split.
    - intros [Hl Hm]. split; [exact Hl|]. intros Hin.
      apply mem_In in Hin. rewrite Hin in Hm. discriminate Hm.
    - intros [Hl Hn]. split; [exact Hl|].
      destruct (Py.mem n existing) eqn:Hm; [|reflexivity].
      apply mem_In in Hm. contradiction. }
  rewrite <- Hf. split; intros H.
  - exact (Permutation_in n Hp H).
  - exact (Permutation_in n (Permutation_sym Hp) H).
Qed.

(** A round that returns a path has seen what [accepted] says. *)
Lemma watcher_round_accepts download_dir existing rep_name st
    (w1 w' : World Env) path :
  wait_for_pdf_download_body download_dir existing rep_name st w1
  = (Ret (inr path), w') ->
  accepted download_dir existing rep_name path w1 w'.
Proof.
  destruct st as [started last_base]. unfold wait_for_pdf_download_body.
  intros E.
  apply bind_ret_inv in E as (listing & wa & Ec & E).
  apply call_ret_inv in Ec as (ea & _ & ->).
  fold (new_entries existing listing) in E.
  set (new := new_entries existing listing) in *.
  apply bind_ret_inv in E as (started' & wb & Es & E).
  assert (Hb : exists detected,
             (detected = [] \/ detected = [ELog INFO (MsgDownloadDetected rep_name new)]) /\
             now wb = now w1 /\
             trace wb = trace w1 ++ ECall (OsListdir download_dir) (Done listing)
                                 :: detected).
  { destruct (negb started && existsb is_download_name new)%bool.
    - inversion Es; subst. eexists. split; [right; reflexivity|].
      cbn [now trace noted]. rewrite <- app_assoc. auto.
    - inversion Es; subst. exists []. cbn [now trace]. auto. }
  clear Es. destruct Hb as (detected & Hdet & Hnb & Htb).
  destruct started'; [|rewrite run_sleep_bind in E by lia; discriminate E].
  destruct (Py.truthy_list (filter is_pdf_name new)
            && negb (Py.truthy_list (filter _is_temp_file new)))%bool eqn:Hcond;
    [|rewrite run_sleep_bind in E by lia; discriminate E].
  apply andb_prop in Hcond as [Hpdfs Htemps].
  apply truthy_list_true in Hpdfs.
  apply negb_true_iff, truthy_list_false in Htemps.
  apply bind_ret_inv in E as (latest & wc & El & E).
  apply latest_by_mtime_ret in El as (keyed & t & Hk & Hnc & Htc & Hin & Hmax).
  apply bind_ret_inv in E as (s1 & wd & E1 & E).
  apply call_ret_inv in E1 as (ed & _ & ->).
  rewrite run_sleep_bind in E by lia.
  apply bind_ret_inv in E as (s2 & we & E2 & E).
  apply call_ret_inv in E2 as (ee & _ & ->).
  destruct ((s1 =? s2) && (0 <? s2))%bool eqn:Hsize.
  2:{ destruct (negb (option_string_eqb (Path.basename latest) last_base));
        cbn in E; discriminate E. }
  apply andb_prop in Hsize as [Heq Hpos].
  apply Z.eqb_eq in Heq. apply Z.ltb_lt in Hpos. subst s1.
  unfold log_info in E. rewrite run_emit_bind, run_ret in E.
  inversion E; subst path w'. clear E.
  exists listing, keyed, s2, detected. cbv zeta. fold new.
  split; [intros n; apply new_entries_spec|].
  split; [exact Hpdfs|]. split; [exact Htemps|].
  split.
  { assert (Hl : In latest (map fst keyed)) by (apply (in_map fst) in Hin; exact Hin).
    rewrite Hk in Hl. apply in_map_iff in Hl as (n & Hn & Hin'). eauto. }
  split; [exact Hk|]. split; [eauto|]. split; [exact Hpos|].
  split; [cbn [now noted later]; lia|]. split; [exact Hdet|].
  cbn [trace noted later]. rewrite Htc, Htb.
  repeat rewrite <- app_assoc. reflexivity.
Qed.

Lemma call_answers {A} (c : Call A) (w : World Env) :
  answered c -> exists a w', call c w = (Ret a, w').
Proof.
  intros H. destruct (H (now w) (env w)) as (a & e' & Hr).
  unfold call. rewrite Hr. eauto.
Qed.

Lemma with_mtime_answers paths (w : World Env) :
  queries_answer -> exists keyed w', with_mtime paths w = (Ret keyed, w').
Proof.
  intros (_ & Hm & _). revert w.
  induction paths as [|p rest IH]; intros w; cbn [with_mtime].
  - eexists. eexists. reflexivity.
  - destruct (call_answers (OsGetmtime p) w (Hm p)) as (t & w1 & Ec).
    destruct (IH w1) as (keyed & w2 & Er).
    rewrite run_bind, Ec, run_bind, Er. eexists. eexists. reflexivity.
Qed.

Lemma no_raise_latest_by_mtime paths :
  queries_answer -> paths <> [] -> no_raise (latest_by_mtime paths).
Proof.
  intros Hq Hne w e w' E. unfold latest_by_mtime in E. rewrite run_bind in E.
  destruct (with_mtime_answers paths w Hq) as (keyed & w1 & Ek).
  rewrite Ek in E. apply with_mtime_ret in Ek as (Hk & _ & _).
  destruct keyed as [|k rest]; [simpl in Hk; congruence | discriminate E].
Qed.

(** When the queries answer, a round does not raise. *)
Lemma watcher_round_no_raise download_dir existing rep_name st :
  queries_answer ->
  no_raise (wait_for_pdf_download_body download_dir existing rep_name st).
Proof.
  intros Hq. pose proof Hq as (Hl & Hm & Hs).
  destruct st as [started last_base]. unfold wait_for_pdf_download_body.
  apply no_raise_bind; [apply no_raise_call; apply Hl | intros listing].
  cbv zeta.
  apply no_raise_bind; [prove_no_raise | intros started'].
  destruct started'; [|prove_no_raise].
  destruct (Py.truthy_list _ && _)%bool eqn:Hc; [|prove_no_raise].
  apply andb_prop in Hc as [Hpdfs _]. apply truthy_list_true in Hpdfs.
  apply no_raise_bind; [|intros latest; prove_no_raise].
  apply no_raise_latest_by_mtime; [exact Hq|].
  intros Hmap. apply map_eq_nil in Hmap. contradiction.
Qed.

Lemma with_mtime_raise paths (w w' : World Env) e :
  with_mtime paths w = (Raise e, w') ->
  exists x pre ev,
    e = External x /\ trace w' = pre ++ [ev] /\ query_failure ev = Some x.
Proof.
  revert w. induction paths as [|p rest IH]; intros w E; cbn [with_mtime] in E.
  - rewrite run_ret in E. discriminate E.
  - apply bind_raise_inv in E as [Ec | (t & w1 & _ & E)].
    + apply call_raise_inv in Ec as (x & e' & _ & -> & ->).
      exists x, (trace w), (ECall (OsGetmtime p) (Fails x)). auto.
    + apply bind_raise_inv in E as [Er | (keyed & w2 & _ & E)].
      * exact (IH _ Er).
      * rewrite run_ret in E. discriminate E.
Qed.

Lemma latest_by_mtime_raise paths (w w' : World Env) e :
  paths <> [] ->
  latest_by_mtime paths w = (Raise e, w') ->
  exists x pre ev,
    e = External x /\ trace w' = pre ++ [ev] /\ query_failure ev = Some x.
Proof.
  intros Hne E. unfold latest_by_mtime in E.
  apply bind_raise_inv in E as [Ek | (keyed & w1 & Ek & E)].
  - exact (with_mtime_raise _ _ _ _ Ek).
  - apply with_mtime_ret in Ek as (Hk & _ & _).
    destruct keyed as [|k rest]; [simpl in Hk; congruence|].
    rewrite run_ret in E. discriminate E.
Qed.

(** A round of the watcher raises only what a query raised. *)
Lemma watcher_round_raise download_dir existing rep_name st (w w' : World Env) e :
  wait_for_pdf_download_body download_dir existing rep_name st w = (Raise e, w') ->
  exists x pre ev,
    e = External x /\ trace w' = pre ++ [ev] /\ query_failure ev = Some x.
Proof.
  destruct st as [started last_base]. unfold wait_for_pdf_download_body.
  intros E.
  apply bind_raise_inv in E as [Ec | (listing & wa & _ & E)].
  { apply call_raise_inv in Ec as (x & e' & _ & -> & ->).
    exists x, (trace w), (ECall (OsListdir download_dir) (Fails x)). auto. }
  fold (new_entries existing listing) in E.
  set (new := new_entries existing listing) in *.
  apply bind_raise_inv in E as [Es | (started' & wb & _ & E)].
  { exfalso. destruct (negb started && existsb is_download_name new)%bool;
      cbn in Es; discriminate Es. }
  destruct started'; [|rewrite run_sleep_bind, run_ret in E by lia; discriminate E].
  destruct (Py.truthy_list (filter is_pdf_name new)
            && negb (Py.truthy_list (filter _is_temp_file new)))%bool eqn:Hcond;
    [|rewrite run_sleep_bind, run_ret in E by lia; discriminate E].
  apply andb_prop in Hcond as [Hpdfs _]. apply truthy_list_true in Hpdfs.
  apply bind_raise_inv in E as [El | (latest & wc & _ & E)].
  { apply latest_by_mtime_raise in El; [exact El|].
    intros Hmap. apply map_eq_nil in Hmap. contradiction. }
  apply bind_raise_inv in E as [Ec | (s1 & wd & _ & E)].
  { apply call_raise_inv in Ec as (x & e' & _ & -> & ->).
    exists x, (trace wc), (ECall (OsGetsize latest) (Fails x)). auto. }
  rewrite run_sleep_bind in E by lia.
  apply bind_raise_inv in E as [Ec | (s2 & we & _ & E)].
  { apply call_raise_inv in Ec as (x & e' & _ & -> & ->).
    eexists x, _, (ECall (OsGetsize latest) (Fails x)). cbn [trace later]. auto. }
  exfalso. destruct ((s1 =? s2) && (0 <? s2))%bool.
  - cbn in E. discriminate E.
  - destruct (negb (option_string_eqb (Path.basename latest) last_base));
      cbn in E; discriminate E.
Qed.

(** The outcome of [wait_for_pdf_download] in terms of its loop. *)
Lemma wait_for_pdf_download_run download_dir existing rep_name timeout (w : World Env) :
  exists o w',
    while_before (poll_fuel (1000 * timeout) 800) (now w + 1000 * timeout)
      (wait_for_pdf_download_body download_dir existing rep_name) (false, None)
      (noted (ELog INFO (MsgAwaitDownload rep_name)) w) = (o, w') /\
    o <> Diverged /\
    wait_for_pdf_download download_dir existing rep_name timeout w
    = match o with
      | Ret (Some path) => (Ret path, w')
      | Ret None => (Raise (TimeoutError_download rep_name), w')
      | Raise e => (Raise e, w')
      | Diverged => (Diverged, w')
      end.
Proof.
  destruct (while_before (poll_fuel (1000 * timeout) 800) (now w + 1000 * timeout)
      (wait_for_pdf_download_body download_dir existing rep_name) (false, None)
      (noted (ELog INFO (MsgAwaitDownload rep_name)) w)) as [o w'] eqn:El.
  exists o, w'. split; [reflexivity|]. split.
  - apply (safe_poll any_event 800) in El;
      [ tauto | lia | apply safe_wait_for_pdf_download_body
      | apply advances_wait_for_pdf_download_body | cbn [now noted]; lia ].
  - unfold wait_for_pdf_download, log_info.
    rewrite run_time_bind, run_emit_bind, run_bind, El.
    destruct o as [[b|]| |]; reflexivity.
Qed.


End Watcher.

Lemma demo_queries_answer (sc : Demo.Scenario) :
  queries_answer (P := Demo.platform sc).
Proof.
  repeat split; intros x t e; cbn [respond Demo.platform Demo.scripted Demo.answer].
  - destruct (String.eqb x (Demo.mail_dir sc)); eauto.
  - eauto.
  - eauto.
Qed.



(** A partial name followed two seconds later by the final name: the final
    file is returned, at 3.6 s, not the partial one. *)
Example watcher_waits_for_final_name :
  exists w',
    wait_for_pdf_download (P := Demo.platform Demo.downloading)
      "run" [] "Relatorio_A" 600 (Demo.exporting 0)
    = (Ret "run\export.pdf", w') /\ now w' = 3600.
Proof. eexists. split; vm_compute; reflexivity. Qed.

(** A final-named file whose size changes at every look is never returned:
    the watcher times out. *)
Example watcher_times_out_on_changing_size :
  exists w',
    wait_for_pdf_download (P := Demo.platform Demo.growing)
      "run" [] "Relatorio_A" 10 (Demo.exporting 0)
    = (Raise (TimeoutError_download "Relatorio_A"), w') /\ now w' = 10000.
Proof. eexists. split; vm_compute; reflexivity. Qed.

(* ================================================================== *)
(** ** Batch runner *)

Section Batch.
Context {Env : Type} {P : Platform Env}.
Variable cfg : Config.

Lemma truthy_join d f :
  f <> EmptyString -> Py.truthy_str (Path.join d f) = true.
Proof.
  intros Hf. unfold Path.join. pose proof (@os_path_join_named _ _ d f Hf) as Hj.
  destruct (os_path_join d f); [congruence | reflexivity].
Qed.

Lemma named_file (a b : string) : (a ++ "_" ++ b)%string <> EmptyString.
Proof. destruct a; discriminate. Qed.

Lemma truthy_final_artifact rep : Py.truthy_str (final_artifact cfg rep) = true.
Proof.
  unfold final_artifact, derived_artifact, raw_artifact.
  repeat match goal with |- context [if ?b then _ else _] => destruct b end;
    apply truthy_join; apply named_file.
Qed.

Lemma apply_page_rule_ret rep (w w' : World Env) p :
  apply_page_rule cfg rep (raw_artifact cfg rep) w = (Ret p, w') ->
  p = final_artifact cfg rep.
Proof.
  unfold apply_page_rule, final_artifact. intros E.
  destruct (Py.truthy_int (extract_page rep)).
  { do 2 (apply bind_ret_inv in E as (? & ? & _ & E)). inversion E. reflexivity. }
  destruct (Py.truthy_int (drop_last_pages rep)).
  { do 2 (apply bind_ret_inv in E as (? & ? & _ & E)). inversion E. reflexivity. }
  destruct (Py.truthy_opt_list (drop_pages rep)).
  { do 2 (apply bind_ret_inv in E as (? & ? & _ & E)). inversion E. reflexivity. }
  inversion E. reflexivity.
Qed.

Lemma process_report_body_ret rep wait (w w' : World Env) p :
  process_report_body cfg rep wait w = (Ret p, w') ->
  p = final_artifact cfg rep.
Proof.
  unfold process_report_body. intros E.
  do 7 (apply bind_ret_inv in E as (? & ? & _ & E)).
  apply bind_ret_inv in E as (q & ? & Ep & E).
  apply bind_ret_inv in E as (? & ? & _ & E).
  inversion E; subst. eapply apply_page_rule_ret; eauto.
Qed.

(** An error raised inside the [try] is caught: the report yields [None]. *)
Lemma process_single_report_caught rep wait (w w1 : World Env) e :
  (flags rep <= 1)%nat ->
  process_report_body cfg rep wait w = (Raise e, w1) ->
  process_single_report cfg rep wait w
  = (Ret None, noted (ELog ERROR (MsgReportError (name rep))) w1).
Proof.
  intros Hv E. unfold process_single_report.
  rewrite run_bind, (validate_ok rep w Hv), run_catch, run_bind, E.
  reflexivity.
Qed.

Lemma process_single_report_done rep wait (w w1 : World Env) p :
  (flags rep <= 1)%nat ->
  process_report_body cfg rep wait w = (Ret p, w1) ->
  process_single_report cfg rep wait w = (Ret (Some p), w1).
Proof.
  intros Hv E. unfold process_single_report.
  rewrite run_bind, (validate_ok rep w Hv), run_catch, run_bind, E.
  reflexivity.
Qed.

(** A valid report is processed to the end: its artifact, or [None]. *)
Lemma process_single_report_valid rep wait (w : World Env) :
  (flags rep <= 1)%nat ->
  exists ok w',
    process_single_report cfg rep wait w
    = (Ret (if ok : bool then Some (final_artifact cfg rep) else None), w').
Proof.
  intros Hv.
  destruct (process_report_body cfg rep wait w) as [[p|e|] w1] eqn:E.
  - exists true, w1. rewrite (process_report_body_ret _ _ _ _ _ E) in E.
    apply process_single_report_done; assumption.
  - exists false. eexists. eapply process_single_report_caught; eassumption.
  - apply safe_process_report_body in E. tauto.
Qed.

Lemma run_reports_cons wait rep rest ok_paths falhas (w w1 : World Env) ok :
  process_single_report cfg rep wait w
  = (Ret (if ok : bool then Some (final_artifact cfg rep) else None), w1) ->
  run_reports cfg wait (rep :: rest) ok_paths falhas w
  = run_reports cfg wait rest
      (if ok then ok_paths ++ [final_artifact cfg rep] else ok_paths)
      (if ok then falhas else falhas ++ [name rep])
      (later 500 w1).
Proof.
  intros E. cbn [run_reports]. rewrite run_bind, E.
  destruct ok; cbv beta iota zeta.
  - cbn [Py.truthy_opt_str]. rewrite truthy_final_artifact.
    rewrite run_sleep_bind by lia. reflexivity.
  - cbn [Py.truthy_opt_str]. rewrite run_sleep_bind by lia. reflexivity.
Qed.

Lemma picked_length_nil {A} (l : list A) : picked [] l = [].
Proof. destruct l; reflexivity. Qed.

(** The batch over valid reports: one entry per report, in list order. *)
Lemma run_reports_spec wait reports :
  Forall (fun rep => (flags rep <= 1)%nat) reports ->
  forall ok_paths falhas (w : World Env),
  exists marks w',
    List.length marks = List.length reports /\
    run_reports cfg wait reports ok_paths falhas w
    = (Ret (ok_paths ++ fst (batch_result cfg marks reports),
            falhas ++ snd (batch_result cfg marks reports)), w').
Proof.
  induction 1 as [|rep rest Hv Hrest IH]; intros ok_paths falhas w.
  - exists [], w. split; [reflexivity|]. cbn. rewrite !app_nil_r. reflexivity.
  - destruct (process_single_report_valid rep wait w Hv) as (ok & w1 & E).
    rewrite (run_reports_cons _ _ _ _ _ _ _ _ E).
    destruct (IH (if ok then ok_paths ++ [final_artifact cfg rep] else ok_paths)
                 (if ok then falhas else falhas ++ [name rep])
                 (later 500 w1)) as (marks & w' & Hlen & Er).
    exists (ok :: marks), w'. split; [cbn; lia|].
    rewrite Er. unfold batch_result. destruct ok; cbn [picked map negb fst snd];
      rewrite <- ?app_assoc; reflexivity.
Qed.

(** The same batch, with what each report returned: the marks are the
    outcomes of [process_single_report], report by report. *)
Lemma run_reports_processed wait reports :
  Forall (fun rep => (flags rep <= 1)%nat) reports ->
  forall ok_paths falhas (w : World Env),
  exists marks w',
    List.length marks = List.length reports /\
    processed cfg wait reports w (returns_of cfg marks reports) w' /\
    run_reports cfg wait reports ok_paths falhas w
    = (Ret (ok_paths ++ fst (batch_result cfg marks reports),
            falhas ++ snd (batch_result cfg marks reports)), w').
Proof.
  induction 1 as [|rep rest Hv Hrest IH]; intros ok_paths falhas w.
  - exists [], w. split; [reflexivity|]. split; [constructor|].
    cbn. rewrite !app_nil_r. reflexivity.
  - destruct (process_single_report_valid rep wait w Hv) as (ok & w1 & E).
    rewrite (run_reports_cons _ _ _ _ _ _ _ _ E).
    destruct (IH (if ok then ok_paths ++ [final_artifact cfg rep] else ok_paths)
                 (if ok then falhas else falhas ++ [name rep])
                 (later 500 w1)) as (marks & w' & Hlen & Hp & Er).
    exists (ok :: marks), w'. split; [cbn; lia|]. split.
    + cbn [returns_of]. econstructor; [exact E | exact Hp].
    + rewrite Er. unfold batch_result. destruct ok; cbn [picked map negb fst snd];
        rewrite <- ?app_assoc; reflexivity.
Qed.

Lemma run_reports_acc wait reports :
  forall a b (w : World Env) o w',
    run_reports cfg wait reports a b w = (o, w') ->
    forall x y,
      run_reports cfg wait reports (x ++ a) (y ++ b) w = (prepend x y o, w').
Proof.
  induction reports as [|rep rest IH]; intros a b w o w' E x y.
  - inversion E; subst. reflexivity.
  - cbn [run_reports] in *. rewrite run_bind in *.
    destruct (process_single_report cfg rep wait w) as [[out|e|] w1].
    + cbv beta iota zeta in *. rewrite run_sleep_bind in * by lia.
      apply IH with (x := x) (y := y) in E. rewrite <- E.
      destruct out as [p|]; cbn [Py.truthy_opt_str];
        [destruct (Py.truthy_str p)|]; rewrite <- ?app_assoc; reflexivity.
    + inversion E; subst. reflexivity.
    + inversion E; subst. reflexivity.
Qed.

Lemma run_reports_app wait pre post :
  forall a b (w : World Env) a1 b1 w1,
    run_reports cfg wait pre a b w = (Ret (a1, b1), w1) ->
    run_reports cfg wait (pre ++ post) a b w = run_reports cfg wait post a1 b1 w1.
Proof.
  induction pre as [|rep rest IH]; intros a b w a1 b1 w1 E.
  - inversion E; subst. reflexivity.
  - cbn [run_reports app] in *. rewrite run_bind in *.
    destruct (process_single_report cfg rep wait w) as [[out|e|] w2];
      try discriminate E.
    cbv beta iota zeta in *. rewrite run_sleep_bind in * by lia.
    eapply IH. exact E.
Qed.

Lemma run_reports_from_nil wait reports (w : World Env) a b w' x y :
  run_reports cfg wait reports [] [] w = (Ret (a, b), w') ->
  run_reports cfg wait reports x y w = (Ret (x ++ a, y ++ b), w').
Proof.
  intros E. apply run_reports_acc with (x := x) (y := y) in E.
  rewrite !app_nil_r in E. exact E.
Qed.

(** C1, as the code has it — Among reports that pass validation, an error
    raised while one of them is processed is caught in
    [process_single_report]: the batch records the name of that report
    after the failures of the reports before it, goes on with the reports
    after it, and returns its two sequences.  The configuration error of a
    report with ambiguous page rules is raised by [validate] outside the
    [try]: it is not caught, and it ends [run_all_reports] in the world left
    by the reports before it. *)
Theorem errors_become_failed_names
    (pre : list Report) (rep : Report) (post : list Report) (w : World Env) :
  Forall (fun r => (flags r <= 1)%nat) pre ->
  exists ok1 f1 w1,
    run_reports cfg 60 pre [] [] w = (Ret (ok1, f1), w1) /\
    ((flags rep <= 1)%nat ->
     Forall (fun r => (flags r <= 1)%nat) post ->
     forall e w2,
       process_report_body cfg rep 60 w1 = (Raise e, w2) ->
       exists ok3 f3 w',
         run_reports cfg 60 post [] []
           (later 500 (noted (ELog ERROR (MsgReportError (name rep))) w2))
         = (Ret (ok3, f3), w') /\
         run_all_reports cfg (pre ++ rep :: post) w
         = (Ret (ok1 ++ ok3, f1 ++ name rep :: f3), w'))
    /\
    ((2 <= flags rep)%nat ->
     run_all_reports cfg (pre ++ rep :: post) w
     = (Raise (ValueError_ambiguous (name rep)), w1)).
Proof.
  intros Hpre.
  destruct (run_reports_spec 60 pre Hpre [] [] w) as (marks & w1 & _ & E1).
  cbn [app] in E1.
  eexists. eexists. exists w1. split; [exact E1|]. split.
  - intros Hv Hpost e w2 Eb.
    destruct (run_reports_spec 60 post Hpost [] []
                (later 500 (noted (ELog ERROR (MsgReportError (name rep))) w2)))
      as (marks3 & w' & _ & E3).
    cbn [app] in E3.
    eexists. eexists. exists w'. split; [exact E3|].
    unfold run_all_reports. cbv zeta.
    rewrite (run_reports_app 60 pre (rep :: post) _ _ _ _ _ _ E1).
    pose proof (process_single_report_caught rep 60 _ _ _ Hv Eb) as Ec.
    rewrite (run_reports_cons 60 rep post _ _ _ _ false Ec).
    rewrite (run_reports_from_nil _ _ _ _ _ _ _ _ E3).
    rewrite <- app_assoc. reflexivity.
  - intros Hbad. unfold run_all_reports. cbv zeta.
    rewrite (run_reports_app 60 pre (rep :: post) _ _ _ _ _ _ E1).
    cbn [run_reports]. rewrite run_bind.
    rewrite (process_single_report_ambiguous cfg rep 60 w1 Hbad). reflexivity.
Qed.

Lemma merger_append_answers paths :
  (forall p, answered (PdfRead p)) ->
  forall acc (w : World Env),
  exists docs w',
    List.length docs = List.length paths /\
    merger_append paths acc w = (Ret (acc ++ List.concat docs), w') /\
    trace w' = trace w ++ pdf_reads paths docs.
Proof.
  intros Hread. induction paths as [|p rest IH]; intros acc w.
  - exists [], w. cbn. rewrite !app_nil_r. auto.
  - destruct (call_answers (PdfRead p) w (Hread p)) as (pages & w1 & Ec).
    pose proof Ec as Ec'. apply call_ret_inv in Ec' as (e' & _ & Hw1).
    destruct (IH (acc ++ pages) w1) as (docs & w' & Hlen & Er & Ht).
    exists (pages :: docs), w'. split; [cbn; lia|]. split.
    + cbn [merger_append]. rewrite run_bind, Ec, Er.
      cbn [List.concat]. rewrite app_assoc. reflexivity.
    + rewrite Ht, Hw1. cbn [trace pdf_reads]. rewrite <- app_assoc. reflexivity.
Qed.

(** C8, as the code has it — Over reports that pass validation,
    [run_all_reports] processes the reports one after the other, each in the
    world left by the one before it and a pause of half a second, and
    returns two sequences to which every report contributes exactly one
    entry: its final artifact to the first if [process_single_report]
    returned it, its name to the second if [process_single_report] returned
    [None]; both sequences are in the order of the input list.  And
    [merge_pdfs], when its reads and its write are answered, writes the
    pages of its inputs concatenated in the order of the list it is given.
    (A report that fails validation contributes no entry: its error ends
    the batch.) *)
Theorem batch_result_in_list_order :
  (forall reports (w : World Env),
      Forall (fun r => (flags r <= 1)%nat) reports ->
      exists marks w',
        List.length marks = List.length reports /\
        processed cfg 60 reports w (returns_of cfg marks reports) w' /\
        run_all_reports cfg reports w = (Ret (batch_result cfg marks reports), w'))
  /\
  (forall paths output (w : World Env),
      (forall p, answered (PdfRead p)) ->
      (forall pages, answered (PdfWrite output pages)) ->
      exists docs w',
        List.length docs = List.length paths /\
        merge_pdfs paths output w = (Ret tt, w') /\
        trace w' =
          trace w
          ++ ELog INFO (MsgMerging (List.length paths) output)
          :: pdf_reads paths docs
          ++ [ECall (PdfWrite output (List.concat docs)) (Done tt);
              ELog INFO MsgMerged]).
Proof.
  split.
  - intros reports w Hv.
    destruct (run_reports_processed 60 reports Hv [] [] w) as (marks & w' & Hlen & Hp & E).
    exists marks, w'. split; [exact Hlen|]. split; [exact Hp|].
    unfold run_all_reports.
    cbv zeta. rewrite E. cbn [app]. destruct (batch_result cfg marks reports).
    reflexivity.
  - intros paths output w Hread Hwrite.
    destruct (merger_append_answers paths Hread []
                (noted (ELog INFO (MsgMerging (List.length paths) output)) w))
      as (docs & w1 & Hlen & Em & Ht).
    cbn [app] in Em.
    destruct (call_answers (PdfWrite output (List.concat docs)) w1 (Hwrite _))
      as ([] & w2 & Ec).
    pose proof Ec as Ec'. apply call_ret_inv in Ec' as (e' & _ & Hw2).
    exists docs. eexists. split; [exact Hlen|]. split.
    + unfold merge_pdfs, log_info.
      rewrite run_emit_bind, run_bind, Em, run_bind, Ec. reflexivity.
    + cbn [trace noted]. rewrite Hw2. cbn [trace]. rewrite Ht.
      cbn [trace noted]. rewrite <- !app_assoc. reflexivity.
Qed.

End Batch.

(* ================================================================== *)
(** ** Export orchestrator *)

Section Orchestrator.
Context {Env : Type} {P : Platform Env}.
Variable cfg : Config.

Lemma steps_app a b : steps (a ++ b) = steps a ++ steps b.
Proof.
  induction a as [|e a IH]; [reflexivity|].
  cbn [app steps]. destruct (step_of e); rewrite IH; reflexivity.
Qed.

Lemma step_of_export e : export_event e = true -> step_of e = None.
Proof.
  destruct e as [lvl m | A c r]; cbn [export_event].
  - destruct m; cbn; intros H; first [reflexivity | discriminate H].
  - destruct c; cbn; intros H; first [reflexivity | discriminate H].
Qed.

Lemma steps_export evs : forallb export_event evs = true -> steps evs = [].
Proof.
  induction evs as [|e evs IH]; [reflexivity|].
  cbn [forallb steps]. intros H. apply andb_prop in H as [He Hevs].
  rewrite (step_of_export e He). auto.
Qed.

(** What an export attempt adds to the history holds no orchestrator step. *)
Lemma export_to_pdf_immediate_steps wait rep_name (w w' : World Env) o :
  export_to_pdf_immediate cfg wait rep_name w = (o, w') ->
  o <> Diverged /\ exists evs, trace w' = trace w ++ evs /\ steps evs = [].
Proof.
  intros E. apply safe_export_to_pdf_immediate in E as [Hd [_ (evs & Ht & Hq)]].
  split; [exact Hd|]. exists evs. split; [exact Ht | apply steps_export; exact Hq].
Qed.

Lemma export_to_pdf_with_idle_steps wait rep_name (w w' : World Env) o :
  export_to_pdf_with_idle cfg wait rep_name w = (o, w') ->
  o <> Diverged /\ exists evs, trace w' = trace w ++ evs /\ steps evs = [].
Proof.
  intros E. apply safe_export_to_pdf_with_idle in E as [Hd [_ (evs & Ht & Hq)]].
  split; [exact Hd|]. exists evs. split; [exact Ht | apply steps_export; exact Hq].
Qed.

(** The loop of immediate attempts: [k] failed rounds, then a success, or
    the end of the list, or a reload that raised. *)
Lemma immediate_attempts_shape wait rep_name n :
  forall first (w : World Env),
  exists o w' evs k w0,
    immediate_attempts cfg wait rep_name (Py.range_from first n) w = (o, w') /\
    trace w' = trace w ++ evs /\
    failed_attempts cfg wait rep_name first k w w0 /\
    ((o = Ret true /\ (k < n)%nat /\
      steps evs = failed_rounds first k ++ [Attempt (first + Z.of_nat k)] /\
      export_to_pdf_immediate cfg wait rep_name
        (noted (attempt_announced cfg rep_name (first + Z.of_nat k)) w0)
      = (Ret tt, w'))
     \/
     (o = Ret false /\ k = n /\ steps evs = failed_rounds first n /\ w' = w0)
     \/
     ((k < n)%nat /\
      steps evs = failed_rounds first k
                  ++ [Attempt (first + Z.of_nat k); Failed; Reload false] /\
      exists e w1 x env2,
        export_to_pdf_immediate cfg wait rep_name
          (noted (attempt_announced cfg rep_name (first + Z.of_nat k)) w0)
        = (Raise e, w1) /\
        respond DriverRefresh (now w1) (env w1) = (Fails x, env2) /\
        o = Raise (External x) /\
        w' = reloaded rep_name e w1 (Fails x) env2)).
Proof.
  induction n as [|n IH]; intros first w.
  - exists (Ret false), w, [], 0%nat, w. rewrite app_nil_r.
    split; [reflexivity|]. split; [reflexivity|]. split; [constructor|].
    right. left. auto.
  - cbn [Py.range_from immediate_attempts].
    rewrite run_bind, run_catch. unfold log_info at 1. rewrite run_emit_bind, run_bind.
    fold (attempt_announced cfg rep_name first).
    set (ev := attempt_announced cfg rep_name first).
    destruct (export_to_pdf_immediate cfg wait rep_name (noted ev w))
      as [[[]|e|] w1] eqn:Ex;
      destruct (export_to_pdf_immediate_steps _ _ _ _ _ Ex)
        as (Hd & evs1 & Ht1 & Hs1); try congruence.
    + (* the attempt succeeded *)
      exists (Ret true), w1, (ev :: evs1), 0%nat, w.
      split; [reflexivity|]. split.
      { rewrite Ht1. cbn [trace noted]. rewrite <- app_assoc. reflexivity. }
      split; [constructor|].
      left. split; [reflexivity|]. split; [lia|].
      replace (first + Z.of_nat 0) with first by lia. split; [|exact Ex].
      cbn [steps step_of ev attempt_announced failed_rounds app]. rewrite Hs1.
      reflexivity.
    + (* the attempt failed: log, reload, sleep *)
      unfold log_warning. rewrite run_emit_bind, run_bind.
      set (ev2 := ELog WARNING (MsgImmediateFailed rep_name e)).
      unfold call at 1. cbn [now env noted].
      destruct (respond DriverRefresh (now w1) (env w1)) as [[[]|x] env2] eqn:Hr.
      * (* the reload returned *)
        rewrite run_sleep_bind, run_ret by lia. cbv beta iota.
        assert (Hw : forall wa : World Env,
                   wa = later 1000 (reloaded rep_name e w1 (Done tt) env2) ->
                   exists o w' evs k w0,
                     immediate_attempts cfg wait rep_name
                       (Py.range_from (first + 1) n) wa = (o, w') /\
                     trace w' = trace wa ++ evs /\
                     failed_attempts cfg wait rep_name (first + 1) k wa w0 /\ _)
          by (intros wa _; exact (IH (first + 1) wa)).
        match goal with
        | |- context [immediate_attempts _ _ _ _ ?w2] =>
            destruct (Hw w2) as (o & w' & evs & k & w0 & Er & Ht & Hf & Hshape)
        end.
        { unfold reloaded, later, noted. cbn [now env trace].
          rewrite <- app_assoc. reflexivity. }
        exists o, w', (ev :: evs1 ++ [ev2; ECall DriverRefresh (Done tt)] ++ evs),
          (S k), w0.
        split; [exact Er|]. split.
        { rewrite Ht. cbn [trace later noted]. rewrite Ht1. cbn [trace noted].
          rewrite <- !app_assoc. reflexivity. }
        split.
        { eapply failed_more; [exact Ex | exact Hr |].
          match goal with
          | H : failed_attempts _ _ _ _ _ ?wa _ |- failed_attempts _ _ _ _ _ ?wb _ =>
              replace wb with wa; [exact H|]
          end.
          unfold reloaded, later, noted. cbn [now env trace].
          rewrite <- app_assoc. reflexivity. }
        assert (Hst : steps (ev :: evs1 ++ [ev2; ECall DriverRefresh (Done tt)] ++ evs)
                      = Attempt first :: Failed :: Reload true :: steps evs).
        { cbn [steps step_of ev attempt_announced]. rewrite !steps_app, Hs1.
          reflexivity. }
        rewrite Hst. cbn [failed_rounds app].
        replace (first + Z.of_nat (S k)) with (first + 1 + Z.of_nat k) by lia.
        destruct Hshape as [(-> & Hk & -> & Ei)|[(-> & -> & -> & ->)|(Hk & -> & Hx)]].
        -- left. split; [reflexivity|]. split; [lia|]. split; [reflexivity | exact Ei].
        -- right. left. auto.
        -- right. right. split; [lia|]. split; [reflexivity | exact Hx].
      * (* the reload raised *)
        eexists. eexists.
        exists (ev :: evs1 ++ [ev2; ECall DriverRefresh (Fails x)]), 0%nat, w.
        split; [reflexivity|]. split.
        { cbn [trace noted]. rewrite Ht1. cbn [trace noted].
          rewrite <- !app_assoc. reflexivity. }
        split; [constructor|].
        right. right. split; [lia|].
        replace (first + Z.of_nat 0) with first by lia. split.
        { cbn [steps step_of ev attempt_announced failed_rounds app].
          rewrite steps_app, Hs1. reflexivity. }
        exists e, w1, x, env2. split; [exact Ex|]. split; [exact Hr|].
        split; [reflexivity|].
        unfold reloaded, noted. cbn [now env trace].
        rewrite <- app_assoc. reflexivity.
Qed.

Lemma range_from_one n : Py.range 1 (n + 1) = Py.range_from 1 (Z.to_nat n).
Proof. unfold Py.range. replace (n + 1 - 1) with n by lia. reflexivity. Qed.

(** An error of the export step is an error of the body of the [try]. *)
Lemma export_stage_error_fails_body rep wait (w w1 w2 : World Env) existing e :
  open_report cfg rep wait w = (Ret existing, w1) ->
  export_stage cfg wait (name rep) w1 = (Raise e, w2) ->
  process_report_body cfg rep wait w = (Raise e, w2).
Proof.
  intros Eo Es. unfold process_report_body. cbv zeta.
  rewrite run_bind, Eo, run_bind, Es. reflexivity.
Qed.


End Orchestrator.

(* ================================================================== *)
(** ** Merge and notification *)

Section Notification.
Context {Env : Type} {P : Platform Env}.
Variable cfg : Config.

Lemma append_assoc (a b c : string) : ((a ++ b) ++ c = a ++ (b ++ c))%string.
Proof. induction a as [|ch a IH]; cbn; [reflexivity | rewrite IH; reflexivity]. Qed.

Lemma append_nil_r (a : string) : (a ++ EmptyString = a)%string.
Proof. induction a as [|ch a IH]; cbn; [reflexivity | rewrite IH; reflexivity]. Qed.

Lemma contains_refl s : contains s s.
Proof. exists EmptyString, EmptyString. rewrite append_nil_r. reflexivity. Qed.

Lemma contains_trans s x y : contains s x -> contains x y -> contains s y.
Proof.
  intros (a & b & ->) (c & d & ->). exists (a ++ c)%string, (d ++ b)%string.
  rewrite !append_assoc. reflexivity.
Qed.

Lemma join_cons (x : string) (r : list string) :
  Py.join EmptyString (x :: r) = (x ++ Py.join EmptyString r)%string.
Proof.
  destruct r as [|y r]; cbn [Py.join].
  - rewrite append_nil_r. reflexivity.
  - reflexivity.
Qed.

Lemma join_contains (l : list string) (x : string) :
  In x l -> contains (Py.join EmptyString l) x.
Proof.
  induction l as [|y l IH]; intros Hin; [contradiction|].
  rewrite join_cons. destruct Hin as [->|Hin].
  - exists EmptyString, (Py.join EmptyString l). reflexivity.
  - destruct (IH Hin) as (a & b & Hj). rewrite Hj.
    exists (y ++ a)%string, b. rewrite !append_assoc. reflexivity.
Qed.

(** Every failed name has its item in the failures section. *)
Lemma failures_section_lists (failed_names : list string) (n : string) :
  In n failed_names -> contains (failures_section failed_names) (failed_item n).
Proof.
  intros Hin. unfold failures_section.
  eapply contains_trans; [|apply join_contains, in_map, Hin].
  eexists. eexists. reflexivity.
Qed.

(** The body holds the failures section whenever a report failed. *)
Lemma build_email_html_failures ok_reports (failed_names : list string) :
  failed_names <> [] ->
  contains (build_email_html cfg ok_reports failed_names)
           (failures_section failed_names).
Proof.
  intros Hne. unfold build_email_html.
  destruct failed_names as [|n r]; [congruence|]. cbn [Py.truthy_list].
  cbv zeta.
  match goal with
  | |- contains (?a1 ++ ?a2 ++ ?a3 ++ ?a4 ++ ?a5 ++ ?a6 ++ ?a7 ++ ?a8 ++ ?a9
                 ++ ?a10 ++ ?a11 ++ ?a12 ++ ?a13 ++ ?a14 ++ ?f ++ ?b)%string ?f =>
      exists (a1 ++ a2 ++ a3 ++ a4 ++ a5 ++ a6 ++ a7 ++ a8 ++ a9
              ++ a10 ++ a11 ++ a12 ++ a13 ++ a14)%string, b
  end.
  rewrite !append_assoc. reflexivity.
Qed.

Lemma main_body_after_batch (ws w1 : World Env) ok_paths falhas :
  run_all_reports cfg (REPORTS cfg) ws = (Ret (ok_paths, falhas), w1) ->
  main_body cfg ws
  = (if negb (Py.truthy_list ok_paths) then log_error MsgNoPdf
     else
       merge_pdfs ok_paths (PDF_FINAL_PATH cfg) ;;
       recipients <- read_recipients (EMAIL_LIST_DIR cfg) ;;
       if negb (Py.truthy_list recipients) then log_warning MsgNoRecipients
       else
         send_email_outlook_html recipients (email_subject cfg)
           (build_email_html cfg (reports_done cfg ok_paths) falhas)
           (PDF_FINAL_PATH cfg)) w1.
Proof.
  intros E. unfold main_body. rewrite run_bind, E. reflexivity.
Qed.

(** With Outlook reachable, sending composes the mail it was given. *)
Lemma send_email_composes to_list subject html attach (w : World Env) :
  answered OutlookDispatch ->
  exists o w' r,
    send_email_outlook_html to_list subject html attach w = (o, w') /\
    In (ECall (MailCompose to_list subject html attach) r) (trace w').
Proof.
  intros Hd. unfold send_email_outlook_html.
  destruct (call_answers OutlookDispatch w Hd) as ([] & w1 & Ec).
  rewrite run_bind, run_catch, Ec, run_bind.
  unfold call at 1.
  destruct (respond (MailCompose to_list subject html attach) (now w1) (env w1))
    as [r env2] eqn:Hr.
  set (w2 := {| now := now w1; env := env2;
                trace := trace w1 ++ [ECall (MailCompose to_list subject html attach) r] |}).
  destruct r as [[]|x].
  - destruct (catch (call MailSend ;; log_info MsgMailSent)
                (fun e => log_error (MsgMailFailed e to_list)) w2) as [o w3] eqn:Es.
    exists o, w3. eexists. split; [reflexivity|].
    assert (Hs : safe any_event
                   (catch (call MailSend ;; log_info MsgMailSent)
                      (fun e => log_error (MsgMailFailed e to_list))))
      by prove_safe.
    apply Hs in Es as [_ [_ (evs & Ht & _)]]. rewrite Ht.
    apply in_or_app. left. subst w2. cbn [trace]. apply in_or_app. right.
    left. reflexivity.
  - eexists. exists w2. eexists. split; [reflexivity|].
    subst w2. cbn [trace]. apply in_or_app. right. left. reflexivity.
Qed.

(** C9, as the code has it — After the browser was started and the batch
    returned: with no successful path, [main] only logs that, quits the
    browser and logs its end (no merge, no mail).  With at least one
    successful path, the merge runs; when it returns and the recipient list
    was read, the mail is sent only if that list is not empty, and its body
    then holds a failures section with an item for every failed name; with
    an empty list [main] logs a warning and sends nothing. *)
Theorem main_merges_and_notifies (w0 ws w1 : World Env) ok_paths falhas :
  setup_edge_driver cfg (RUN_DIR cfg) (noted (ELog INFO MsgMainStart) w0)
  = (Ret tt, ws) ->
  run_all_reports cfg (REPORTS cfg) ws = (Ret (ok_paths, falhas), w1) ->
  (ok_paths = [] ->
   exists r w',
     main cfg w0 = (Ret tt, w') /\
     trace w' = trace w1 ++ [ELog ERROR MsgNoPdf; ECall DriverQuit r;
                             ELog INFO MsgMainEnd])
  /\
  (ok_paths <> [] ->
   forall w2 recipients w3,
     merge_pdfs ok_paths (PDF_FINAL_PATH cfg) w1 = (Ret tt, w2) ->
     read_recipients (EMAIL_LIST_DIR cfg) w2 = (Ret recipients, w3) ->
     let html := build_email_html cfg (reports_done cfg ok_paths) falhas in
     (recipients <> [] ->
      main_body cfg ws
      = send_email_outlook_html recipients (email_subject cfg) html
          (PDF_FINAL_PATH cfg) w3 /\
      (answered OutlookDispatch ->
       exists o w' r,
         main_body cfg ws = (o, w') /\
         In (ECall (MailCompose recipients (email_subject cfg) html
                      (PDF_FINAL_PATH cfg)) r) (trace w')) /\
      (forall n, In n falhas ->
         contains html (failures_section falhas) /\
         contains (failures_section falhas) (failed_item n)))
     /\
     (recipients = [] ->
      main_body cfg ws = (Ret tt, noted (ELog WARNING MsgNoRecipients) w3))).
Proof.
  intros Esetup Ebatch. pose proof (main_body_after_batch _ _ _ _ Ebatch) as Eb.
  split.
  - intros ->. cbn [Py.truthy_list negb] in Eb.
    unfold main, log_info. rewrite run_emit_bind, run_bind, Esetup.
    unfold try_finally. rewrite Eb. unfold log_error, emit at 1.
    rewrite run_bind, run_catch. unfold call.
    cbn [now env trace noted].
    destruct (respond DriverQuit (now w1) (env w1)) as [[[]|x] env2];
      eexists; eexists; (split; [reflexivity|]);
      cbn [trace noted]; rewrite <- !app_assoc; reflexivity.
  - intros Hne w2 recipients w3 Em Er html.
    assert (Hok : negb (Py.truthy_list ok_paths) = false)
      by (destruct ok_paths; [congruence | reflexivity]).
    rewrite Hok, run_bind, Em, run_bind, Er in Eb.
    split.
    + intros Hrec.
      assert (Hr : negb (Py.truthy_list recipients) = false)
        by (destruct recipients; [congruence | reflexivity]).
      rewrite Hr in Eb. split; [exact Eb|]. split.
      * intros Hd.
        destruct (send_email_composes recipients (email_subject cfg) html
                    (PDF_FINAL_PATH cfg) w3 Hd) as (o & w' & r & Es & Hin).
        exists o, w', r. split; [rewrite Eb; exact Es | exact Hin].
      * intros n Hin. split.
        -- apply build_email_html_failures. intros ->. contradiction.
        -- apply failures_section_lists. exact Hin.
    + intros ->. exact Eb.
Qed.

End Notification.

(* ================================================================== *)
(** ** The claims on concrete scenarios *)

(** C1, as the claim has it, fails: a report with two page rules is not
    recorded as failed.  Its configuration error leaves [run_all_reports],
    which returns no sequences, and the report after it is never processed
    (the world is untouched). *)
Lemma batch_aborts_on_ambiguous_report :
  run_all_reports (P := Demo.platform Demo.smooth)
    (Demo.config [Demo.ambiguous; Demo.report "Relatorio_A"])
    [Demo.ambiguous; Demo.report "Relatorio_A"] (Demo.world 0)
  = (Raise (ValueError_ambiguous "Relatorio_X"), Demo.world 0)
  /\
  ~ (exists ok_paths falhas w',
        run_all_reports (P := Demo.platform Demo.smooth)
          (Demo.config [Demo.ambiguous; Demo.report "Relatorio_A"])
          [Demo.ambiguous; Demo.report "Relatorio_A"] (Demo.world 0)
        = (Ret (ok_paths, falhas), w') /\ In "Relatorio_X" falhas).
Proof.
  assert (E : run_all_reports (P := Demo.platform Demo.smooth)
                (Demo.config [Demo.ambiguous; Demo.report "Relatorio_A"])
                [Demo.ambiguous; Demo.report "Relatorio_A"] (Demo.world 0)
              = (Raise (ValueError_ambiguous "Relatorio_X"), Demo.world 0))
    by (vm_compute; reflexivity).
  split; [exact E|]. intros (ok_paths & falhas & w' & E' & _).
  rewrite E in E'. discriminate E'.
Qed.

Lemma errors_become_failed_names_witness :
  Forall (fun r => (flags r <= 1)%nat) [Demo.report "Relatorio_A"] /\
  exists ok1 f1 w1,
    run_reports (P := Demo.platform (Demo.second_fails []))
      (Demo.config []) 60 [Demo.report "Relatorio_A"] [] [] (Demo.world 0)
    = (Ret (ok1, f1), w1) /\
    exists ok3 f3 w',
      run_all_reports (P := Demo.platform (Demo.second_fails []))
        (Demo.config [])
        ([Demo.report "Relatorio_A"] ++ Demo.report "Relatorio_B"
           :: [Demo.report "Relatorio_C"]) (Demo.world 0)
      = (Ret (ok1 ++ ok3, f1 ++ "Relatorio_B" :: f3), w').
Proof.
  assert (Hv : forall n, (flags (Demo.report n) <= 1)%nat)
    by (intros n; vm_compute; lia).
  split; [repeat constructor; apply Hv|].
  destruct (errors_become_failed_names (P := Demo.platform (Demo.second_fails []))
              (Demo.config []) [Demo.report "Relatorio_A"]
              (Demo.report "Relatorio_B") [Demo.report "Relatorio_C"]
              (Demo.world 0))
    as (ok1 & f1 & w1 & E1 & Hcaught & _).
  { repeat constructor; apply Hv. }
  exists ok1, f1, w1. split; [exact E1|].
  assert (Ew : w1 = snd (run_reports (P := Demo.platform (Demo.second_fails []))
                           (Demo.config []) 60 [Demo.report "Relatorio_A"] [] []
                           (Demo.world 0)))
    by (rewrite E1; reflexivity).
  destruct (process_report_body (P := Demo.platform (Demo.second_fails []))
              (Demo.config []) (Demo.report "Relatorio_B") 60 w1)
    as [[p|e|] w2] eqn:Eb.
  - exfalso. rewrite Ew in Eb. vm_compute in Eb. discriminate Eb.
  - destruct (Hcaught (Hv _) ltac:(repeat constructor; apply Hv) e w2 eq_refl)
      as (ok3 & f3 & w' & _ & Er).
    exists ok3, f3, w'. exact Er.
  - exfalso. rewrite Ew in Eb. vm_compute in Eb. discriminate Eb.
Defined.



(** C8, as the claim has it, fails: of two reports, the second with two
    page rules, the first is processed and exported, and then the
    configuration error of the second ends [run_all_reports].  No sequence
    is returned, so neither report contributes an entry. *)
Lemma batch_returns_nothing_after_ambiguous_report :
  exists w1 w',
    process_single_report (P := Demo.platform Demo.smooth)
      (Demo.config [Demo.report "Relatorio_A"; Demo.ambiguous])
      (Demo.report "Relatorio_A") 60 (Demo.world 0)
    = (Ret (Some "run\Relatorio_A_2024-05-06.pdf"), w1) /\
    run_all_reports (P := Demo.platform Demo.smooth)
      (Demo.config [Demo.report "Relatorio_A"; Demo.ambiguous])
      [Demo.report "Relatorio_A"; Demo.ambiguous] (Demo.world 0)
    = (Raise (ValueError_ambiguous "Relatorio_X"), w') /\
    w' = later 500 w1 /\
    ~ (exists ok_paths falhas w2,
          run_all_reports (P := Demo.platform Demo.smooth)
            (Demo.config [Demo.report "Relatorio_A"; Demo.ambiguous])
            [Demo.report "Relatorio_A"; Demo.ambiguous] (Demo.world 0)
          = (Ret (ok_paths, falhas), w2)).
Proof.
  eexists. eexists. split; [vm_compute; reflexivity|].
  split; [vm_compute; reflexivity|]. split; [vm_compute; reflexivity|].
  intros (ok_paths & falhas & w2 & E). vm_compute in E. discriminate E.
Qed.

Lemma batch_result_in_list_order_witness :
  Forall (fun r => (flags r <= 1)%nat) Demo.reports /\
  exists marks w',
    List.length marks = List.length Demo.reports /\
    processed (P := Demo.platform Demo.smooth) (Demo.config Demo.reports) 60
      Demo.reports (Demo.world 0)
      (returns_of (P := Demo.platform Demo.smooth) (Demo.config Demo.reports)
         marks Demo.reports) w' /\
    run_all_reports (P := Demo.platform Demo.smooth)
      (Demo.config Demo.reports) Demo.reports (Demo.world 0)
    = (Ret (batch_result (P := Demo.platform Demo.smooth)
              (Demo.config Demo.reports) marks Demo.reports), w').
Proof.
  assert (Hv : Forall (fun r => (flags r <= 1)%nat) Demo.reports)
    by (repeat constructor; vm_compute; lia).
  split; [exact Hv|].
  apply (proj1 (batch_result_in_list_order (P := Demo.platform Demo.smooth)
                  (Demo.config Demo.reports))
           Demo.reports (Demo.world 0) Hv).
Defined.

(** The four reports of the script on the smooth platform: the third asks
    for page 5 of a document of three pages and fails, the others succeed,
    in list order. *)
Example four_reports :
  exists w',
    run_all_reports (P := Demo.platform Demo.smooth)
      (Demo.config Demo.reports) Demo.reports (Demo.world 0)
    = (Ret (["run\Relatorio_A_2024-05-06.pdf";
             "run\Relatorio_B_2024-05-06_sem_paginas.pdf";
             "run\Relatorio_D_2024-05-06_sem_ult.pdf"],
            ["Relatorio_C"]), w').
Proof. eexists. vm_compute. reflexivity. Qed.

(** A report that exhausts its immediate attempts and succeeds through the
    fallback. *)
Example fallback_succeeds :
  exists w',
    process_single_report (P := Demo.platform (Demo.sluggish None))
      (Demo.config []) (Demo.report "Relatorio_A") 60 (Demo.world 0)
    = (Ret (Some "run\Relatorio_A_2024-05-06.pdf"), w') /\
    steps (trace w')
    = [Attempt 1; Failed; Reload true;
       Attempt 2; Failed; Reload true;
       Attempt 3; Failed; Reload true; Fallback].
Proof. eexists. split; vm_compute; reflexivity. Qed.

(** C9, as the claim has it, fails: one report succeeded and one failed,
    the merge ran, but the folder of the recipient list holds no file and
    nothing is sent. *)
Lemma nothing_sent_without_recipients :
  exists w1 w',
    run_all_reports (P := Demo.platform (Demo.second_fails []))
      (Demo.config [Demo.report "Relatorio_A"; Demo.report "Relatorio_B"])
      [Demo.report "Relatorio_A"; Demo.report "Relatorio_B"] Demo.started
    = (Ret (["run\Relatorio_A_2024-05-06.pdf"], ["Relatorio_B"]), w1) /\
    main (P := Demo.platform (Demo.second_fails []))
      (Demo.config [Demo.report "Relatorio_A"; Demo.report "Relatorio_B"])
      (Demo.world 0)
    = (Ret tt, w') /\
    existsb mail_call (trace w') = false /\
    logs_of (skipn (List.length (trace w1)) (trace w'))
    = [MsgMerging 1 "run\IndicadoresDiarios_2024-05-06.pdf"; MsgMerged;
       MsgNoRecipients; MsgMainEnd].
Proof.
  eexists. eexists. split; [vm_compute; reflexivity|].
  split; [vm_compute; reflexivity|].
  split; vm_compute; reflexivity.
Qed.

Lemma main_merges_and_notifies_witness :
  exists w1 o w' r,
    setup_edge_driver (P := Demo.platform (Demo.second_fails ["lista.txt"]))
      (Demo.config [Demo.report "Relatorio_A"; Demo.report "Relatorio_B"])
      "run" (noted (ELog INFO MsgMainStart) (Demo.world 0))
    = (Ret tt, Demo.started) /\
    run_all_reports (P := Demo.platform (Demo.second_fails ["lista.txt"]))
      (Demo.config [Demo.report "Relatorio_A"; Demo.report "Relatorio_B"])
      [Demo.report "Relatorio_A"; Demo.report "Relatorio_B"] Demo.started
    = (Ret (["run\Relatorio_A_2024-05-06.pdf"], ["Relatorio_B"]), w1) /\
    main_body (P := Demo.platform (Demo.second_fails ["lista.txt"]))
      (Demo.config [Demo.report "Relatorio_A"; Demo.report "Relatorio_B"])
      Demo.started = (o, w') /\
    In (ECall (MailCompose ["ana@example.org"]
                 (email_subject (Demo.config []))
                 (build_email_html (Demo.config [])
                    [Demo.report "Relatorio_A"] ["Relatorio_B"])
                 "run\IndicadoresDiarios_2024-05-06.pdf") r) (trace w') /\
    contains (build_email_html (Demo.config [])
                [Demo.report "Relatorio_A"] ["Relatorio_B"])
             (failures_section ["Relatorio_B"]) /\
    contains (failures_section ["Relatorio_B"]) (failed_item "Relatorio_B").
Proof.
  pose (P := Demo.platform (Demo.second_fails ["lista.txt"])).
  pose (cfg := Demo.config [Demo.report "Relatorio_A"; Demo.report "Relatorio_B"]).
  pose (w1 := snd (run_all_reports (P := P) cfg (REPORTS cfg) Demo.started)).
  pose (w2 := snd (merge_pdfs (P := P) ["run\Relatorio_A_2024-05-06.pdf"]
                     (PDF_FINAL_PATH cfg) w1)).
  pose (w3 := snd (read_recipients (P := P) (EMAIL_LIST_DIR cfg) w2)).
  assert (Es : setup_edge_driver (P := P) cfg (RUN_DIR cfg)
                 (noted (ELog INFO MsgMainStart) (Demo.world 0))
               = (Ret tt, Demo.started)) by (vm_compute; reflexivity).
  assert (Eb : run_all_reports (P := P) cfg (REPORTS cfg) Demo.started
               = (Ret (["run\Relatorio_A_2024-05-06.pdf"], ["Relatorio_B"]), w1))
    by (vm_compute; reflexivity).
  destruct (main_merges_and_notifies (P := P) cfg (Demo.world 0) Demo.started w1
              ["run\Relatorio_A_2024-05-06.pdf"] ["Relatorio_B"] Es Eb)
    as [_ Hsome].
  specialize (Hsome ltac:(discriminate) w2 ["ana@example.org"] w3
                ltac:(vm_compute; reflexivity) ltac:(vm_compute; reflexivity)).
  destruct Hsome as [Hsend _].
  destruct (Hsend ltac:(discriminate)) as (_ & Hcompose & Hlist).
  destruct Hcompose as (o & w' & r & Em & Hin).
  { intros t e. exists tt, e. reflexivity. }
  destruct (Hlist "Relatorio_B" (or_introl eq_refl)) as [Hc1 Hc2].
  exists w1, o, w', r.
  split; [exact Es|]. split; [exact Eb|]. split; [exact Em|].
  split; [exact Hin|]. split; [exact Hc1 | exact Hc2].
Defined.

(* ================================================================== *)
(** ** Element search and click *)

Section ElementSearch.
Context {Env : Type} {P : Platform Env}.


(** A look says [true] only after [find_elements] found something. *)
Lemma find_true by_ selector (w w' : World Env) :
  (els <- call (FindElements by_ selector) ;; ret (Py.truthy_list els)) w
  = (Ret true, w') ->
  exists pre els,
    els <> [] /\ trace w' = pre ++ [ECall (FindElements by_ selector) (Done els)].
Proof.
  rewrite run_bind. intros E.
  destruct (call (FindElements by_ selector) w) as [[els|e|] w2] eqn:Ec;
    try discriminate E.
  apply call_ret_inv in Ec as (e' & _ & ->).
  rewrite run_ret in E. inversion E as [[Ht Hw]]. subst w'.
  exists (trace w), els. split; [apply truthy_list_true; exact Ht | reflexivity].
Qed.


Lemma catch_false_true (m : M Env bool) (w w' : World Env) :
  catch m (fun _ => ret false) w = (Ret true, w') -> m w = (Ret true, w').
Proof.
  rewrite run_catch. destruct (m w) as [[b|e|] w1]; intros E.
  - exact E.
  - rewrite run_ret in E. discriminate E.
  - discriminate E.
Qed.

Lemma probe_true by_ selector (w w' : World Env) :
  catch (call SwitchDefault ;;
         els <- call (FindElements by_ selector) ;;
         ret (Py.truthy_list els))
        (fun _ => ret false) w = (Ret true, w') ->
  exists pre els,
    els <> [] /\ trace w' = pre ++ [ECall (FindElements by_ selector) (Done els)].
Proof.
  intros E. apply catch_false_true in E.
  apply bind_ret_inv in E as (? & w1 & _ & E).
  exact (find_true _ _ _ _ E).
Qed.

Lemma search_frames_true by_ selector frames (w w' : World Env) :
  search_frames by_ selector frames w = (Ret true, w') ->
  exists pre els,
    els <> [] /\ trace w' = pre ++ [ECall (FindElements by_ selector) (Done els)].
Proof.
  revert w. induction frames as [|fr rest IH]; intros w E; cbn [search_frames] in E.
  - discriminate E.
  - apply bind_ret_inv in E as (hit & w1 & Ep & E).
    destruct hit.
    + rewrite run_ret in E. inversion E; subst w1.
      apply catch_false_true in Ep.
      apply bind_ret_inv in Ep as (? & w2 & _ & Ep).
      apply bind_ret_inv in Ep as (? & w3 & _ & Ep).
      exact (find_true _ _ _ _ Ep).
    + apply IH in E. exact E.
Qed.

Lemma no_raise_search_frames by_ selector frames :
  no_raise (search_frames by_ selector frames).
Proof.
  induction frames as [|fr rest IH]; cbn [search_frames]; prove_no_raise.
Qed.

(** One round of [switch_to_frame_with] that ends the search. *)
Lemma frame_round_found by_ selector (w w' : World Env) b :
  switch_to_frame_with_body by_ selector tt w = (Ret (inr b), w') ->
  b = true /\
  exists pre els,
    els <> [] /\ trace w' = pre ++ [ECall (FindElements by_ selector) (Done els)].
Proof.
  unfold switch_to_frame_with_body. intros E. rewrite run_bind in E.
  match type of E with
  | context [catch ?m ?h w] => destruct (catch m h w) as [[hit|e|] w1] eqn:Ep
  end; try discriminate E.
  destruct hit.
  - rewrite run_ret in E. inversion E; subst. split; [reflexivity|].
    exact (probe_true _ _ _ _ Ep).
  - rewrite run_bind in E.
    destruct (call (FindElements TAG_NAME "iframe") w1) as [[frames|e|] w2];
      try discriminate E.
    rewrite run_bind in E.
    destruct (search_frames by_ selector frames w2) as [[hit2|e|] w3] eqn:Es;
      try discriminate E.
    destruct hit2.
    + rewrite run_ret in E. inversion E; subst. split; [reflexivity|].
      exact (search_frames_true _ _ _ _ _ Es).
    + rewrite run_sleep_bind, run_ret in E by lia. discriminate E.
Qed.

(** One round that raises: only the listing of the frames can. *)
Lemma frame_round_raise by_ selector (w w' : World Env) e :
  switch_to_frame_with_body by_ selector tt w = (Raise e, w') ->
  exists x pre,
    e = External x /\
    trace w' = pre ++ [ECall (FindElements TAG_NAME "iframe") (Fails x)].
Proof.
  unfold switch_to_frame_with_body. intros E. rewrite run_bind in E.
  match type of E with
  | context [catch ?m ?h w] => destruct (catch m h w) as [[hit|e0|] w1] eqn:Ep
  end; try discriminate E.
  - destruct hit; [rewrite run_ret in E; discriminate E|].
    rewrite run_bind in E.
    destruct (call (FindElements TAG_NAME "iframe") w1) as [[frames|e1|] w2] eqn:Ec;
      try discriminate E.
    + rewrite run_bind in E.
      destruct (search_frames by_ selector frames w2) as [[hit2|e2|] w3] eqn:Es;
        try discriminate E.
      * destruct hit2; [rewrite run_ret in E | rewrite run_sleep_bind, run_ret in E by lia];
          discriminate E.
      * exfalso. exact (no_raise_search_frames _ _ _ _ _ _ Es).
    + inversion E; subst.
      apply call_raise_inv in Ec as (x & e' & _ & -> & ->).
      exists x, (trace w1). split; reflexivity.
  - exfalso. revert Ep. apply no_raise_catch. intros ?. apply no_raise_ret.
Qed.

(** The outcome of [switch_to_frame_with] in terms of its loop. *)
Lemma switch_to_frame_with_run by_ selector timeout (w : World Env) :
  exists o w',
    while_before (poll_fuel (1000 * timeout) 300) (now w + 1000 * timeout)
      (switch_to_frame_with_body by_ selector) tt w = (o, w') /\
    o <> Diverged /\
    switch_to_frame_with by_ selector timeout w
    = match o with
      | Ret (Some b) => (Ret b, w')
      | Ret None => (Ret false, w')
      | Raise e => (Raise e, w')
      | Diverged => (Diverged, w')
      end.
Proof.
  destruct (while_before (poll_fuel (1000 * timeout) 300) (now w + 1000 * timeout)
      (switch_to_frame_with_body by_ selector) tt w) as [o w'] eqn:El.
  exists o, w'. split; [reflexivity|]. split.
  - apply (safe_poll ui_call 300) in El;
      [ tauto | lia | apply safe_switch_to_frame_with_body
      | apply advances_switch_to_frame_with_body | lia ].
  - unfold switch_to_frame_with. rewrite run_time_bind, run_bind, El.
    destruct o as [[b|]| |]; reflexivity.
Qed.

Lemma frame_search_gives_up_late
    by_ selector (timeout : Z) (w w' : World Env) :
  (switch_to_frame_with by_ selector timeout w = (Ret false, w') ->
   now w + 1000 * timeout <= now w')
  /\
  (timeout <= 0 -> switch_to_frame_with by_ selector timeout w = (Ret false, w)).
Proof.
  split.
  - intros E.
    destruct (switch_to_frame_with_run by_ selector timeout w)
      as (o & w1 & El & Hd & Erun).
    rewrite Erun in E. pose proof (while_ends _ _ _ _ _ _ _ El) as Hend.
    destruct o as [[b|]| |]; try discriminate E; inversion E; subst.
    + destruct Hend as ([] & wl & Eb & _).
      apply frame_round_found in Eb as [Hb _]. discriminate Hb.
    + exact Hend.
  - intros Hneg. unfold switch_to_frame_with. rewrite run_time_bind, run_bind.
    unfold poll_fuel. rewrite while_before_S.
    replace (now w <? now w + 1000 * timeout) with false
      by (symmetry; apply Z.ltb_ge; lia).
    reflexivity.
Qed.

Lemma frame_search_raises_only_listing
    by_ selector (timeout : Z) (w w' : World Env) e :
  switch_to_frame_with by_ selector timeout w = (Raise e, w') ->
  exists x, e = External x.
Proof.
  intros E.
  destruct (switch_to_frame_with_run by_ selector timeout w)
    as (o & w1 & El & Hd & Erun).
  rewrite Erun in E. pose proof (while_ends _ _ _ _ _ _ _ El) as Hend.
  destruct o as [[b|]| |]; try discriminate E; inversion E; subst.
  destruct Hend as ([] & wl & Eb & _).
  destruct (frame_round_raise _ _ _ _ _ Eb) as (x & _ & Hx & _). eauto.
Qed.

(** X1 — [switch_to_frame_with] answers [False] only once the whole search
    window has passed. *)
Theorem switch_to_frame_with_gives_up_late
    by_ selector (timeout : Z) (w w' : World Env) :
  switch_to_frame_with by_ selector timeout w = (Ret false, w') ->
  now w + 1000 * timeout <= now w'.
Proof.
  intros E.
  destruct (switch_to_frame_with_run by_ selector timeout w)
    as (o & w1 & El & Hd & Erun).
  rewrite Erun in E. pose proof (while_ends _ _ _ _ _ _ _ El) as Hend.
  destruct o as [[b|]| |]; try discriminate E; inversion E; subst.
  - destruct Hend as ([] & wl & Eb & _).
    apply frame_round_found in Eb as [Hb _]. discriminate Hb.
  - exact Hend.
Qed.

(** X2 — [switch_to_frame_with] answers [True] only right after a
    [find_elements(by, selector)] that found something: the driver is left
    in the document or frame where the element is. *)
Theorem switch_to_frame_with_found by_ selector (timeout : Z) (w w' : World Env) :
  switch_to_frame_with by_ selector timeout w = (Ret true, w') ->
  exists pre els,
    els <> [] /\ trace w' = pre ++ [ECall (FindElements by_ selector) (Done els)].
Proof.
  intros E.
  destruct (switch_to_frame_with_run by_ selector timeout w)
    as (o & w1 & El & Hd & Erun).
  rewrite Erun in E. pose proof (while_ends _ _ _ _ _ _ _ El) as Hend.
  destruct o as [[b|]| |]; try discriminate E; inversion E; subst.
  destruct Hend as ([] & wl & Eb & _).
  apply frame_round_found in Eb as [_ H]. exact H.
Qed.

(** X3 — Errors raised while the top-level document or a frame is looked into
    are swallowed by [switch_to_frame_with]; the only error that leaves it
    is one raised by the listing of the iframes. *)
Theorem switch_to_frame_with_raises_only_listing
    by_ selector (timeout : Z) (w w' : World Env) e :
  switch_to_frame_with by_ selector timeout w = (Raise e, w') ->
  exists x pre,
    e = External x /\
    trace w' = pre ++ [ECall (FindElements TAG_NAME "iframe") (Fails x)].
Proof.
  intros E.
  destruct (switch_to_frame_with_run by_ selector timeout w)
    as (o & w1 & El & Hd & Erun).
  rewrite Erun in E. pose proof (while_ends _ _ _ _ _ _ _ El) as Hend.
  destruct o as [[b|]| |]; try discriminate E; inversion E; subst.
  destruct Hend as ([] & wl & Eb & _).
  exact (frame_round_raise _ _ _ _ _ Eb).
Qed.

(** X4 — [click_anywhere] returns an element only when a click on it went
    through, the native one or else the scripted one, and that click is the
    last thing it did. *)
Theorem click_anywhere_clicks
    by_ selector (wait : Z) (must_be_clickable : bool) (timeout : Z)
    (w w' : World Env) el :
  click_anywhere by_ selector wait must_be_clickable timeout w = (Ret el, w') ->
  exists pre,
    trace w' = pre ++ [ECall (ElemClick el) (Done tt)] \/
    trace w' = pre ++ [ECall (ExecScript JsClick el) (Done tt)].
Proof.
  unfold click_anywhere. intros E.
  apply bind_ret_inv in E as (found & w1 & _ & E).
  destruct found; [|discriminate E]. cbn [negb] in E.
  apply bind_ret_inv in E as (el' & w2 & _ & E).
  apply bind_ret_inv in E as ([] & w3 & Ec & E).
  rewrite run_ret in E. inversion E; subst el' w3. clear E.
  apply catch_ret_inv in Ec as [En | (e0 & w0 & _ & Ej)].
  - apply bind_ret_inv in En as (? & w5 & _ & En).
    rewrite run_sleep_bind in En by lia.
    apply call_ret_inv in En as (e' & _ & ->).
    eexists. left. reflexivity.
  - apply call_ret_inv in Ej as (e' & _ & ->).
    eexists. right. reflexivity.
Qed.

(** X5 — [click_anywhere] raises its own timeout error only when the element
    was found nowhere during the whole search window, and the error names
    the selector it was called with; an element that was found and then
    cannot be waited for or clicked gives another error. *)
Theorem click_anywhere_timeout
    by_ selector (wait : Z) (must_be_clickable : bool) (timeout : Z)
    (w w' : World Env) s :
  click_anywhere by_ selector wait must_be_clickable timeout w
  = (Raise (TimeoutError_element s), w') ->
  s = selector /\
  switch_to_frame_with by_ selector timeout w = (Ret false, w') /\
  now w + 1000 * timeout <= now w'.
Proof.
  unfold click_anywhere. intros E.
  apply bind_raise_inv in E as [Es | (found & w1 & Es & E)].
  - exfalso.
    apply frame_search_raises_only_listing in Es as (x & Hx).
    discriminate Hx.
  - destruct found; cbn [negb] in E.
    + exfalso.
      apply bind_raise_inv in E as [Ew | (el & w2 & _ & E)].
      * destruct must_be_clickable;
          apply call_raise_external in Ew as [x Hx]; discriminate Hx.
      * apply bind_raise_inv in E as [Ec | (? & w3 & _ & E)].
        -- apply catch_raise_inv in Ec as (e0 & w0 & _ & Ej).
           apply call_raise_external in Ej as [x Hx]. discriminate Hx.
        -- rewrite run_ret in E. discriminate E.
    + rewrite run_raise in E. inversion E; subst. split; [reflexivity|].
      split; [exact Es|].
      apply (proj1 (frame_search_gives_up_late _ _ _ _ _) Es).
Qed.

(** X6 — [_has_loading_indicators] asks the five selectors in order and stops
    at the first that finds something: it says [False] only after all five
    found nothing, and [True] right after one that found something, the
    ones before it having found nothing. *)
Theorem has_loading_indicators_short_circuit (w w' : World Env) (b : bool) :
  _has_loading_indicators w = (Ret b, w') ->
  if b then
    exists k s els,
      nth_error loading_selectors k = Some s /\ els <> [] /\
      trace w' = trace w ++ map empty_find (firstn k loading_selectors)
                 ++ [ECall (FindElements XPATH s) (Done els)]
  else
    trace w' = trace w ++ map empty_find loading_selectors.
Proof.
  unfold _has_loading_indicators. generalize loading_selectors as sels.
  intros sels. revert w. induction sels as [|s rest IH]; intros w E;
    cbn [any_found] in E.
  - rewrite run_ret in E. inversion E; subst. cbn. rewrite app_nil_r. reflexivity.
  - apply bind_ret_inv in E as (els & w1 & Ec & E).
    apply call_ret_inv in Ec as (e' & _ & ->).
    destruct els as [|el els]; cbn [Py.truthy_list] in E.
    + apply IH in E. cbn [trace] in E. destruct b.
      * destruct E as (k & s' & els' & Hn & Hne & Ht).
        exists (S k), s', els'. split; [exact Hn|]. split; [exact Hne|].
        rewrite Ht. cbn [firstn map]. rewrite <- app_assoc. reflexivity.
      * rewrite E. cbn [map]. rewrite <- app_assoc. reflexivity.
    + rewrite run_ret in E. inversion E; subst.
      exists 0%nat, s, (el :: els). split; [reflexivity|].
      split; [discriminate | reflexivity].
Qed.

End ElementSearch.

Lemma switch_to_frame_with_gives_up_late_witness :
  exists w',
    switch_to_frame_with (P := Demo.platform Demo.no_direct_button)
      XPATH export_btn 1 (Demo.world 0) = (Ret false, w') /\
    now (Demo.world 0) + 1000 * 1 <= now w'.
Proof.
  eexists. split; [vm_compute; reflexivity|].
  apply (switch_to_frame_with_gives_up_late
           (P := Demo.platform Demo.no_direct_button)
           XPATH export_btn 1 (Demo.world 0)).
  vm_compute; reflexivity.
Defined.

Lemma switch_to_frame_with_found_witness :
  exists pre els,
    els <> [] /\
    trace (snd (switch_to_frame_with (P := Demo.platform Demo.smooth)
                  XPATH export_btn 10 (Demo.world 0)))
    = pre ++ [ECall (FindElements XPATH export_btn) (Done els)].
Proof.
  apply (switch_to_frame_with_found (P := Demo.platform Demo.smooth)
           XPATH export_btn 10 (Demo.world 0)).
  vm_compute; reflexivity.
Defined.

Lemma switch_to_frame_with_raises_only_listing_witness :
  exists x pre,
    External "WebDriverException: no such window" = External x /\
    trace (snd (switch_to_frame_with
                  (P := Demo.patched Demo.no_frame_list Demo.no_direct_button)
                  XPATH export_btn 10 (Demo.world 0)))
    = pre ++ [ECall (FindElements TAG_NAME "iframe") (Fails x)].
Proof.
  apply (switch_to_frame_with_raises_only_listing
           (P := Demo.patched Demo.no_frame_list Demo.no_direct_button)
           XPATH export_btn 10 (Demo.world 0)).
  vm_compute; reflexivity.
Defined.

Lemma click_anywhere_clicks_witness :
  exists pre,
    trace (snd (click_anywhere (P := Demo.patched Demo.intercepted Demo.smooth)
                  XPATH export_btn 20 true 25 (Demo.world 0)))
    = pre ++ [ECall (ElemClick 1) (Done tt)] \/
    trace (snd (click_anywhere (P := Demo.patched Demo.intercepted Demo.smooth)
                  XPATH export_btn 20 true 25 (Demo.world 0)))
    = pre ++ [ECall (ExecScript JsClick 1) (Done tt)].
Proof.
  apply (click_anywhere_clicks (P := Demo.patched Demo.intercepted Demo.smooth)
           XPATH export_btn 20 true 25 (Demo.world 0)).
  vm_compute; reflexivity.
Defined.

Lemma click_anywhere_timeout_witness :
  exists w',
    click_anywhere (P := Demo.platform Demo.no_direct_button)
      XPATH export_btn 20 true 1 (Demo.world 0)
    = (Raise (TimeoutError_element export_btn), w') /\
    export_btn = export_btn /\
    switch_to_frame_with (P := Demo.platform Demo.no_direct_button)
      XPATH export_btn 1 (Demo.world 0) = (Ret false, w') /\
    now (Demo.world 0) + 1000 * 1 <= now w'.
Proof.
  eexists. split; [vm_compute; reflexivity|].
  apply (click_anywhere_timeout (P := Demo.platform Demo.no_direct_button)
           XPATH export_btn 20 true 1 (Demo.world 0)).
  vm_compute; reflexivity.
Defined.

Lemma has_loading_indicators_short_circuit_witness :
  exists k s els,
    nth_error loading_selectors k = Some s /\ els <> [] /\
    trace (snd (_has_loading_indicators (P := Demo.platform (Demo.busy_until 10))
                  (Demo.world 0)))
    = trace (Demo.world 0) ++ map empty_find (firstn k loading_selectors)
      ++ [ECall (FindElements XPATH s) (Done els)].
Proof.
  apply (has_loading_indicators_short_circuit
           (P := Demo.platform (Demo.busy_until 10)) (Demo.world 0) _ true).
  vm_compute; reflexivity.
Defined.

(* ================================================================== *)
(** ** Page readiness and the confirmation of the export dialog *)

Section Confirmation.
Context {Env : Type} {P : Platform Env}.

(** X7 — Once the driver is back on the top-level document, and with an
    extra sleep that is not negative (a negative one makes [time.sleep]
    raise), [pbix_ready] cannot fail: whatever the wait for an iframe
    answers, error included, it returns [extra_sleep] later, after those
    two calls and nothing else. *)
Theorem pbix_ready_ignores_wait_error
    (wait extra_sleep : Z) (w : World Env) env1 :
  0 <= extra_sleep ->
  respond SwitchDefault (now w) (env w) = (Done tt, env1) ->
  exists r env2,
    respond (WaitUntil wait (presence_of_element_located TAG_NAME "iframe"))
      (now w) env1 = (r, env2) /\
    pbix_ready wait extra_sleep w
    = (Ret tt,
       {| now := now w + extra_sleep; env := env2;
          trace := trace w ++
            [ECall SwitchDefault (Done tt);
             ECall (WaitUntil wait (presence_of_element_located TAG_NAME "iframe")) r]
       |}).
Proof.
  intros Hpos Hs.
  destruct (respond (WaitUntil wait (presence_of_element_located TAG_NAME "iframe"))
              (now w) env1) as [r env2] eqn:Hw.
  exists r, env2. split; [reflexivity|].
  unfold pbix_ready. rewrite run_bind. unfold call at 1. rewrite Hs.
  rewrite run_bind, run_catch, run_bind. unfold call. cbn [now env trace].
  rewrite Hw. rewrite <- app_assoc.
  destruct r as [el|x]; cbv beta iota; rewrite ?run_ret; cbv beta iota;
    rewrite run_sleep by exact Hpos; reflexivity.
Qed.

Lemma no_raise_confirm_by_selectors wait rep_name sels :
  no_raise (confirm_by_selectors wait rep_name sels).
Proof.
  induction sels as [|sel rest IH]; cbn [confirm_by_selectors]; prove_no_raise.
Qed.

Lemma confirm_by_selectors_true wait rep_name sels (w w' : World Env) :
  confirm_by_selectors wait rep_name sels w = (Ret true, w') ->
  exists pre, trace w' = pre ++ [ELog INFO (MsgConfirmed rep_name)].
Proof.
  revert w. induction sels as [|sel rest IH]; intros w E;
    cbn [confirm_by_selectors] in E.
  - discriminate E.
  - apply bind_ret_inv in E as (hit & w1 & Ec & E). destruct hit.
    + rewrite run_ret in E. inversion E; subst w1.
      apply catch_false_true in Ec.
      apply bind_ret_inv in Ec as (el & w2 & _ & Ec).
      unfold log_info in Ec. rewrite run_emit_bind, run_ret in Ec.
      inversion Ec; subst. eexists. reflexivity.
    + exact (IH _ E).
Qed.

Lemma confirm_by_text_true rep_name buttons (w w' : World Env) :
  confirm_by_text rep_name buttons w = (Ret true, w') ->
  exists pre, trace w' = pre ++ [ELog INFO (MsgConfirmedByText rep_name)].
Proof.
  revert w. induction buttons as [|b rest IH]; intros w E;
    cbn [confirm_by_text] in E.
  - discriminate E.
  - apply bind_ret_inv in E as (txt & w1 & _ & E).
    destruct (Py.mem (Py.lower (Py.strip txt)) ["ok"; "exportar"; "export"]).
    + apply bind_ret_inv in E as ([] & w2 & _ & E).
      unfold log_info in E. rewrite run_emit_bind, run_ret in E.
      inversion E; subst. eexists. reflexivity.
    + exact (IH _ E).
Qed.

(** What a confirmation that returned has logged last. *)
Lemma confirm_pdf_export_ret
    (wait : Z) (rep_name : string) (w w' : World Env) (b : bool) :
  confirm_pdf_export wait rep_name w = (Ret b, w') ->
  exists pre,
    trace w' = pre ++ [ELog INFO (MsgConfirmed rep_name)] \/
    trace w' = pre ++ [ELog INFO (MsgConfirmedByText rep_name)].
Proof.
  unfold confirm_pdf_export. intros E.
  apply bind_ret_inv in E as ([] & w1 & _ & E).
  apply bind_ret_inv in E as (hit & w2 & Es & E). destruct hit.
  - rewrite run_ret in E. inversion E; subst.
    apply confirm_by_selectors_true in Es as [pre Hpre]. eauto.
  - apply bind_ret_inv in E as (hit2 & w3 & Et & E). destruct hit2.
    + rewrite run_ret in E. inversion E; subst.
      apply catch_ret_inv in Et as [Et | (e0 & w0 & _ & Et)].
      * apply bind_ret_inv in Et as ([] & w4 & _ & Et).
        apply bind_ret_inv in Et as (buttons & w5 & _ & Et).
        apply confirm_by_text_true in Et as [pre Hpre]. eauto.
      * unfold log_error in Et. rewrite run_emit_bind, run_ret in Et.
        discriminate Et.
    + rewrite run_raise in E. discriminate E.
Qed.

(** X8 — [confirm_pdf_export] never answers [False]: it returns only right
    after it logged a confirmation, by one of the five selectors or by the
    text of a button. *)
Theorem confirm_pdf_export_never_false
    (wait : Z) (rep_name : string) (w w' : World Env) (b : bool) :
  confirm_pdf_export wait rep_name w = (Ret b, w') ->
  b = true /\
  exists pre,
    trace w' = pre ++ [ELog INFO (MsgConfirmed rep_name)] \/
    trace w' = pre ++ [ELog INFO (MsgConfirmedByText rep_name)].
Proof.
  unfold confirm_pdf_export. intros E.
  apply bind_ret_inv in E as ([] & w1 & _ & E).
  apply bind_ret_inv in E as (hit & w2 & Es & E). destruct hit.
  - rewrite run_ret in E. inversion E; subst. split; [reflexivity|].
    apply confirm_by_selectors_true in Es as [pre Hpre]. eauto.
  - apply bind_ret_inv in E as (hit2 & w3 & Et & E). destruct hit2.
    + rewrite run_ret in E. inversion E; subst. split; [reflexivity|].
      apply catch_ret_inv in Et as [Et | (e0 & w0 & _ & Et)].
      * apply bind_ret_inv in Et as ([] & w4 & _ & Et).
        apply bind_ret_inv in Et as (buttons & w5 & _ & Et).
        apply confirm_by_text_true in Et as [pre Hpre]. eauto.
      * unfold log_error in Et. rewrite run_emit_bind, run_ret in Et.
        discriminate Et.
    + rewrite run_raise in E. discriminate E.
Qed.

(** X9 — An error leaves [confirm_pdf_export] in two ways only: the first
    switch to the top-level document fails, or nothing could be clicked
    and it raises its own error.  Whatever goes wrong while the selectors
    and the buttons are tried is swallowed. *)
Theorem confirm_pdf_export_errors
    (wait : Z) (rep_name : string) (w w' : World Env) (e : Exn) :
  confirm_pdf_export wait rep_name w = (Raise e, w') ->
  e = RuntimeError_confirm rep_name \/ call SwitchDefault w = (Raise e, w').
Proof.
  unfold confirm_pdf_export. intros E.
  apply bind_raise_inv in E as [E | ([] & w1 & _ & E)]; [right; exact E|].
  apply bind_raise_inv in E as [E | (hit & w2 & _ & E)].
  - exfalso. exact (no_raise_confirm_by_selectors _ _ _ _ _ _ E).
  - destruct hit; [rewrite run_ret in E; discriminate E|].
    apply bind_raise_inv in E as [E | (hit2 & w3 & _ & E)].
    + exfalso. apply catch_raise_inv in E as (e0 & w0 & _ & E).
      unfold log_error in E. rewrite run_emit_bind, run_ret in E.
      discriminate E.
    + destruct hit2; [rewrite run_ret in E; discriminate E|].
      rewrite run_raise in E. inversion E; subst. left. reflexivity.
Qed.

End Confirmation.

Lemma pbix_ready_ignores_wait_error_witness :
  exists r env2,
    respond (Platform := Demo.patched Demo.no_click Demo.smooth)
      (WaitUntil 60 (presence_of_element_located TAG_NAME "iframe"))
      (now (Demo.world 0)) Demo.start = (r, env2) /\
    pbix_ready (P := Demo.patched Demo.no_click Demo.smooth) 60 500 (Demo.world 0)
    = (Ret tt,
       {| now := now (Demo.world 0) + 500; env := env2;
          trace := trace (Demo.world 0) ++
            [ECall SwitchDefault (Done tt);
             ECall (WaitUntil 60 (presence_of_element_located TAG_NAME "iframe")) r]
       |}).
Proof.
  apply (pbix_ready_ignores_wait_error
           (P := Demo.patched Demo.no_click Demo.smooth) 60 500 (Demo.world 0)).
  - lia.
  - reflexivity.
Defined.

Lemma confirm_pdf_export_never_false_witness :
  true = true /\
  exists pre,
    trace (snd (confirm_pdf_export (P := Demo.platform Demo.smooth)
                  60 "Relatorio_A" (Demo.world 0)))
    = pre ++ [ELog INFO (MsgConfirmed "Relatorio_A")] \/
    trace (snd (confirm_pdf_export (P := Demo.platform Demo.smooth)
                  60 "Relatorio_A" (Demo.world 0)))
    = pre ++ [ELog INFO (MsgConfirmedByText "Relatorio_A")].
Proof.
  apply (confirm_pdf_export_never_false (P := Demo.platform Demo.smooth)
           60 "Relatorio_A" (Demo.world 0)).
  vm_compute; reflexivity.
Defined.

Lemma confirm_pdf_export_errors_witness :
  exists w',
    confirm_pdf_export (P := Demo.patched Demo.no_frame_list Demo.no_dialog)
      60 "Relatorio_A" (Demo.world 0)
    = (Raise (RuntimeError_confirm "Relatorio_A"), w') /\
    (RuntimeError_confirm "Relatorio_A" = RuntimeError_confirm "Relatorio_A" \/
     call (H := Demo.patched Demo.no_frame_list Demo.no_dialog) SwitchDefault (Demo.world 0)
     = (Raise (RuntimeError_confirm "Relatorio_A"), w')).
Proof.
  eexists. split; [vm_compute; reflexivity|].
  apply (confirm_pdf_export_errors
           (P := Demo.patched Demo.no_frame_list Demo.no_dialog)
           60 "Relatorio_A" (Demo.world 0)).
  vm_compute; reflexivity.
Defined.

(* ================================================================== *)
(** ** The page rules on documents of any length *)

Section PageSelection.
Context {Env : Type} {P : Platform Env}.

Lemma add_pages_run (pages : list Page) idxs acc (w : World Env) :
  add_pages pages idxs acc w
  = match index_all pages idxs with
    | Some l => (Ret (acc ++ l), w)
    | None => (Raise IndexError, w)
    end.
Proof.
  revert acc. induction idxs as [|i rest IH]; intros acc; cbn [add_pages index_all].
  - rewrite app_nil_r. reflexivity.
  - destruct (Py.index pages i) as [pg|]; [|reflexivity].
    rewrite IH. destruct (index_all pages rest) as [l|]; [|reflexivity].
    rewrite <- app_assoc. reflexivity.
Qed.

(** The three page rules read the source, pick pages by index, and write
    what they picked; nothing is written when an index is out of range. *)
Lemma read_select_write src dst (sel : list Page -> list Z)
    (w : World Env) pages env1 :
  respond (PdfRead src) (now w) (env w) = (Done pages, env1) ->
  (pages <- call (PdfRead src) ;;
   kept <- add_pages pages (sel pages) [] ;;
   call (PdfWrite dst kept)) w
  = match index_all pages (sel pages) with
    | Some kept =>
        let (r, env2) := respond (PdfWrite dst kept) (now w) env1 in
        rewritten w src pages dst kept r env2
    | None => (Raise IndexError, only_read w src pages env1)
    end.
Proof.
  intros Hread. rewrite run_bind. unfold call at 1. rewrite Hread.
  rewrite run_bind, add_pages_run. cbn [app].
  destruct (index_all pages (sel pages)) as [kept|]; [|reflexivity].
  unfold call. cbn [now env trace].
  destruct (respond (PdfWrite dst kept) (now w) env1) as [r env2].
  unfold rewritten. rewrite <- app_assoc. destruct r as [[]|x]; reflexivity.
Qed.

Lemma index_here {A} (pre post : list A) x :
  Py.index (pre ++ x :: post) (Z.of_nat (List.length pre)) = Some x.
Proof.
  unfold Py.index. rewrite length_app. cbn [List.length].
  replace (Z.of_nat (List.length pre) <? 0) with false
    by (symmetry; apply Z.ltb_ge; lia).
  replace (Z.of_nat (List.length pre) <? 0) with false
    by (symmetry; apply Z.ltb_ge; lia).
  replace (Z.of_nat (List.length pre + S (List.length post))
           <=? Z.of_nat (List.length pre)) with false
    by (symmetry; apply Z.leb_gt; lia).
  cbn [orb]. rewrite Nat2Z.id, nth_error_app2 by lia.
  rewrite Nat.sub_diag. reflexivity.
Qed.

Lemma index_beyond {A} (l : list A) i :
  Z.of_nat (List.length l) <= i -> Py.index l i = None.
Proof.
  intros H. unfold Py.index.
  replace (i <? 0) with false by (symmetry; apply Z.ltb_ge; lia).
  replace (i <? 0) with false by (symmetry; apply Z.ltb_ge; lia).
  replace (Z.of_nat (List.length l) <=? i) with true
    by (symmetry; apply Z.leb_le; lia).
  reflexivity.
Qed.

Lemma index_before {A} (l : list A) i :
  i < - Z.of_nat (List.length l) -> Py.index l i = None.
Proof.
  intros H. unfold Py.index.
  replace (i <? 0) with true by (symmetry; apply Z.ltb_lt; lia).
  replace (i + Z.of_nat (List.length l) <? 0) with true
    by (symmetry; apply Z.ltb_lt; lia).
  reflexivity.
Qed.

Lemma index_forward {A} (l : list A) i :
  0 <= i -> Py.index l i = nth_error l (Z.to_nat i).
Proof.
  intros H. unfold Py.index. cbv zeta.
  rewrite (proj2 (Z.ltb_ge i 0)) by lia. rewrite (proj2 (Z.ltb_ge i 0)) by lia.
  cbn [orb]. destruct (Z.leb_spec (Z.of_nat (List.length l)) i) as [Hle|Hlt].
  - symmetry. apply nth_error_None. lia.
  - reflexivity.
Qed.

Lemma index_backward {A} (l : list A) i :
  i < 0 -> 0 <= i + Z.of_nat (List.length l) ->
  Py.index l i = nth_error l (Z.to_nat (i + Z.of_nat (List.length l))).
Proof.
  intros H1 H2. unfold Py.index.
  replace (i <? 0) with true by (symmetry; apply Z.ltb_lt; lia).
  replace (i + Z.of_nat (List.length l) <? 0) with false
    by (symmetry; apply Z.ltb_ge; lia).
  replace (Z.of_nat (List.length l) <=? i + Z.of_nat (List.length l)) with false
    by (symmetry; apply Z.leb_gt; lia).
  reflexivity.
Qed.

Lemma index_all_prefix {A} (post pre : list A) (n : nat) :
  (n <= List.length post)%nat ->
  index_all (pre ++ post) (Py.range_from (Z.of_nat (List.length pre)) n)
  = Some (firstn n post).
Proof.
  revert post pre. induction n as [|n IH]; intros post pre Hn.
  - reflexivity.
  - destruct post as [|x post]; [cbn in Hn; lia|].
    cbn [Py.range_from index_all firstn]. rewrite index_here.
    replace (pre ++ x :: post) with ((pre ++ [x]) ++ post)
      by (rewrite <- app_assoc; reflexivity).
    replace (Z.of_nat (List.length pre) + 1) with (Z.of_nat (List.length (pre ++ [x])))
      by (rewrite length_app; cbn; lia).
    rewrite IH by (cbn in Hn; lia). reflexivity.
Qed.

Lemma index_all_overrun {A} (post pre : list A) (n : nat) :
  (List.length post < n)%nat ->
  index_all (pre ++ post) (Py.range_from (Z.of_nat (List.length pre)) n) = None.
Proof.
  revert pre n. induction post as [|x post IH]; intros pre n Hn.
  - destruct n as [|n]; [cbn in Hn; lia|].
    cbn [Py.range_from index_all]. rewrite app_nil_r.
    rewrite index_beyond by lia. reflexivity.
  - destruct n as [|n]; [lia|].
    cbn [Py.range_from index_all]. rewrite index_here.
    replace (pre ++ x :: post) with ((pre ++ [x]) ++ post)
      by (rewrite <- app_assoc; reflexivity).
    replace (Z.of_nat (List.length pre) + 1) with (Z.of_nat (List.length (pre ++ [x])))
      by (rewrite length_app; cbn; lia).
    rewrite IH by (cbn in Hn; lia). reflexivity.
Qed.

Lemma index_all_filter {A} (f : Z -> bool) (post pre : list A) :
  index_all (pre ++ post)
    (filter f (Py.range_from (Z.of_nat (List.length pre)) (List.length post)))
  = Some (map snd (filter (fun ip => f (fst ip))
                          (positions (Z.of_nat (List.length pre)) post))).
Proof.
  revert pre. induction post as [|x post IH]; intros pre.
  - reflexivity.
  - unfold positions. cbn [List.length Py.range_from combine filter fst].
    specialize (IH (pre ++ [x])).
    replace ((pre ++ [x]) ++ post) with (pre ++ x :: post) in IH
      by (rewrite <- app_assoc; reflexivity).
    replace (Z.of_nat (List.length (pre ++ [x]))) with (Z.of_nat (List.length pre) + 1)
      in IH by (rewrite length_app; cbn; lia).
    unfold positions in IH.
    destruct (f (Z.of_nat (List.length pre))).
    + cbn [index_all map snd]. rewrite index_here, IH. reflexivity.
    + exact IH.
Qed.

(** X11 — [extract_single_page] with a page number between 1 and the number of
    pages writes a document that holds that page and no other. *)
Theorem extract_single_page_in_range
    (src dst : string) (page_no : Z) (w : World Env) (pages : list Page) env1 pg :
  respond (PdfRead src) (now w) (env w) = (Done pages, env1) ->
  1 <= page_no ->
  nth_error pages (Z.to_nat (page_no - 1)) = Some pg ->
  exists r env2,
    respond (PdfWrite dst [pg]) (now w) env1 = (r, env2) /\
    extract_single_page src dst page_no w = rewritten w src pages dst [pg] r env2.
Proof.
  intros Hread Hlo Hpg.
  destruct (respond (PdfWrite dst [pg]) (now w) env1) as [r env2] eqn:Hw.
  exists r, env2. split; [reflexivity|].
  unfold extract_single_page.
  rewrite (read_select_write src dst (fun _ => [page_no - 1]) w pages env1 Hread).
  cbn [index_all]. rewrite index_forward by lia. rewrite Hpg, Hw. reflexivity.
Qed.

(** X12 — [extract_single_page] with a page number beyond the last page, or
    further below zero than the document is long, raises IndexError after
    the source was read and writes nothing. *)
Theorem extract_single_page_out_of_range
    (src dst : string) (page_no : Z) (w : World Env) (pages : list Page) env1 :
  respond (PdfRead src) (now w) (env w) = (Done pages, env1) ->
  Z.of_nat (List.length pages) < page_no \/ page_no <= - Z.of_nat (List.length pages) ->
  extract_single_page src dst page_no w
  = (Raise IndexError, only_read w src pages env1).
Proof.
  intros Hread Hout. unfold extract_single_page.
  rewrite (read_select_write src dst (fun _ => [page_no - 1]) w pages env1 Hread).
  cbn [index_all].
  destruct Hout as [H|H];
    [rewrite index_beyond by lia | rewrite index_before by lia]; reflexivity.
Qed.

(** X13 — A page number that is zero or negative is not rejected by
    [extract_single_page]: Python counts the index from the end, so that
    page number 0 gives the last page, -1 the one before it, and so on. *)
Theorem extract_single_page_counts_from_end
    (src dst : string) (page_no : Z) (w : World Env) (pages : list Page) env1 pg :
  respond (PdfRead src) (now w) (env w) = (Done pages, env1) ->
  - Z.of_nat (List.length pages) < page_no <= 0 ->
  nth_error pages (Z.to_nat (Z.of_nat (List.length pages) + page_no - 1)) = Some pg ->
  exists r env2,
    respond (PdfWrite dst [pg]) (now w) env1 = (r, env2) /\
    extract_single_page src dst page_no w = rewritten w src pages dst [pg] r env2.
Proof.
  intros Hread Hrange Hpg.
  destruct (respond (PdfWrite dst [pg]) (now w) env1) as [r env2] eqn:Hw.
  exists r, env2. split; [reflexivity|].
  unfold extract_single_page.
  rewrite (read_select_write src dst (fun _ => [page_no - 1]) w pages env1 Hread).
  cbn [index_all]. rewrite index_backward by lia.
  replace (page_no - 1 + Z.of_nat (List.length pages))
    with (Z.of_nat (List.length pages) + page_no - 1) by lia.
  rewrite Hpg, Hw. reflexivity.
Qed.

(** X14 — [strip_last_pages] with [n_last] between 0 and the number of pages
    writes the source without its [n_last] last pages: the first
    [total - n_last] pages, in their order. *)
Theorem strip_last_pages_keeps_prefix
    (src dst : string) (n_last : Z) (w : World Env) (pages : list Page) env1 :
  respond (PdfRead src) (now w) (env w) = (Done pages, env1) ->
  0 <= n_last <= Z.of_nat (List.length pages) ->
  let kept := firstn (List.length pages - Z.to_nat n_last) pages in
  exists r env2,
    respond (PdfWrite dst kept) (now w) env1 = (r, env2) /\
    strip_last_pages src dst n_last w = rewritten w src pages dst kept r env2.
Proof.
  intros Hread Hn kept.
  destruct (respond (PdfWrite dst kept) (now w) env1) as [r env2] eqn:Hw.
  exists r, env2. split; [reflexivity|].
  unfold strip_last_pages.
  rewrite (read_select_write src dst
             (fun pages => Py.range 0 (Z.max 0 (Z.of_nat (List.length pages) - n_last)))
             w pages env1 Hread).
  unfold Py.range.
  replace (Z.to_nat (Z.max 0 (Z.of_nat (List.length pages) - n_last) - 0))
    with (List.length pages - Z.to_nat n_last)%nat by lia.
  pose proof (index_all_prefix pages [] (List.length pages - Z.to_nat n_last)) as Hp.
  cbn [app List.length Z.of_nat] in Hp. rewrite Hp by lia.
  fold kept. rewrite Hw. reflexivity.
Qed.

(** X15 — A negative [n_last] makes [strip_last_pages] ask for pages past the
    end of the source: it raises IndexError and writes nothing. *)
Theorem strip_last_pages_negative
    (src dst : string) (n_last : Z) (w : World Env) (pages : list Page) env1 :
  respond (PdfRead src) (now w) (env w) = (Done pages, env1) ->
  n_last < 0 ->
  strip_last_pages src dst n_last w = (Raise IndexError, only_read w src pages env1).
Proof.
  intros Hread Hn. unfold strip_last_pages.
  rewrite (read_select_write src dst
             (fun pages => Py.range 0 (Z.max 0 (Z.of_nat (List.length pages) - n_last)))
             w pages env1 Hread).
  unfold Py.range.
  pose proof (index_all_overrun pages []
                (Z.to_nat (Z.max 0 (Z.of_nat (List.length pages) - n_last) - 0))) as Hp.
  cbn [app List.length Z.of_nat] in Hp. rewrite Hp by lia. reflexivity.
Qed.

Lemma pages_kept_all {A} (pages_to_remove : list Z) (pages : list A) :
  (forall n, In n pages_to_remove -> n < 1 \/ Z.of_nat (List.length pages) < n) ->
  pages_kept pages_to_remove pages = pages.
Proof.
  intros Hout. unfold pages_kept.
  assert (G : forall (post : list A) lo,
             0 <= lo -> lo + Z.of_nat (List.length post) <= Z.of_nat (List.length pages) ->
             map snd (filter (fun ip => negb (existsb (Z.eqb (fst ip + 1)) pages_to_remove))
                        (positions lo post)) = post).
  { induction post as [|x post IH]; intros lo Hlo Hhi; [reflexivity|].
    unfold positions. cbn [List.length Py.range_from combine filter fst].
    assert (E : existsb (Z.eqb (lo + 1)) pages_to_remove = false).
    { destruct (existsb (Z.eqb (lo + 1)) pages_to_remove) eqn:Ex; [|reflexivity].
      apply existsb_exists in Ex as (n & Hin & Heq). apply Z.eqb_eq in Heq.
      specialize (Hout n Hin). cbn [List.length] in Hhi. lia. }
    rewrite E. cbn [negb map snd]. f_equal.
    apply (IH (lo + 1)); cbn [List.length] in Hhi; lia. }
  apply (G pages 0); lia.
Qed.

Lemma strip_specific_pages_run
    (src dst : string) (pages_to_remove : list Z) (w : World Env)
    (pages : list Page) env1 :
  respond (PdfRead src) (now w) (env w) = (Done pages, env1) ->
  strip_specific_pages src dst pages_to_remove w
  = let (r, env2) :=
      respond (PdfWrite dst (pages_kept pages_to_remove pages)) (now w) env1 in
    rewritten w src pages dst (pages_kept pages_to_remove pages) r env2.
Proof.
  intros Hread. unfold strip_specific_pages.
  rewrite (read_select_write src dst
             (fun pages =>
                filter (fun i => negb (existsb (Z.eqb (i + 1)) pages_to_remove))
                       (Py.range 0 (Z.of_nat (List.length pages))))
             w pages env1 Hread).
  unfold Py.range. rewrite Z.sub_0_r, Nat2Z.id.
  pose proof (index_all_filter
                (fun i => negb (existsb (Z.eqb (i + 1)) pages_to_remove)) pages [])
    as Hp.
  cbn [app List.length Z.of_nat] in Hp. rewrite Hp. reflexivity.
Qed.

(** X16 — [strip_specific_pages] never fails on a page number: it writes the
    pages whose 1-based position is not in [pages_to_remove], in their
    order. *)
Theorem strip_specific_pages_keeps_others
    (src dst : string) (pages_to_remove : list Z) (w : World Env)
    (pages : list Page) env1 :
  respond (PdfRead src) (now w) (env w) = (Done pages, env1) ->
  exists r env2,
    respond (PdfWrite dst (pages_kept pages_to_remove pages)) (now w) env1 = (r, env2) /\
    strip_specific_pages src dst pages_to_remove w
    = rewritten w src pages dst (pages_kept pages_to_remove pages) r env2.
Proof.
  intros Hread.
  rewrite (strip_specific_pages_run src dst pages_to_remove w pages env1 Hread).
  destruct (respond (PdfWrite dst (pages_kept pages_to_remove pages)) (now w) env1)
    as [r env2].
  exists r, env2. split; reflexivity.
Qed.

(** X17 — Page numbers that are no position of the source, zero and negative
    ones included, are ignored by [strip_specific_pages]: when every number
    to remove is outside [1 .. total] it writes all pages of the source. *)
Theorem strip_specific_pages_ignores_foreign_numbers
    (src dst : string) (pages_to_remove : list Z) (w : World Env)
    (pages : list Page) env1 :
  respond (PdfRead src) (now w) (env w) = (Done pages, env1) ->
  (forall n, In n pages_to_remove -> n < 1 \/ Z.of_nat (List.length pages) < n) ->
  exists r env2,
    respond (PdfWrite dst pages) (now w) env1 = (r, env2) /\
    strip_specific_pages src dst pages_to_remove w
    = rewritten w src pages dst pages r env2.
Proof.
  intros Hread Hout.
  rewrite (strip_specific_pages_run src dst pages_to_remove w pages env1 Hread).
  rewrite (pages_kept_all pages_to_remove pages Hout).
  destruct (respond (PdfWrite dst pages) (now w) env1) as [r env2].
  exists r, env2. split; reflexivity.
Qed.

End PageSelection.

Lemma extract_single_page_in_range_witness :
  exists r env2,
    respond (Platform := Demo.platform Demo.smooth) (PdfWrite "out.pdf" [12]) 0 Demo.start
    = (r, env2) /\
    extract_single_page (P := Demo.platform Demo.smooth) "in.pdf" "out.pdf" 2 (Demo.world 0)
    = rewritten (Demo.world 0) "in.pdf" [11; 12; 13] "out.pdf" [12] r env2.
Proof.
  apply (extract_single_page_in_range (P := Demo.platform Demo.smooth)
           "in.pdf" "out.pdf" 2 (Demo.world 0) [11; 12; 13] Demo.start 12).
  - reflexivity.
  - lia.
  - reflexivity.
Defined.

Lemma extract_single_page_out_of_range_witness :
  extract_single_page (P := Demo.platform Demo.smooth) "in.pdf" "out.pdf" 5 (Demo.world 0)
  = (Raise IndexError, only_read (Demo.world 0) "in.pdf" [11; 12; 13] Demo.start).
Proof.
  apply (extract_single_page_out_of_range (P := Demo.platform Demo.smooth)
           "in.pdf" "out.pdf" 5 (Demo.world 0) [11; 12; 13] Demo.start).
  - reflexivity.
  - left. simpl. lia.
Defined.

Lemma extract_single_page_counts_from_end_witness :
  exists r env2,
    respond (Platform := Demo.platform Demo.smooth) (PdfWrite "out.pdf" [12]) 0 Demo.start
    = (r, env2) /\
    extract_single_page (P := Demo.platform Demo.smooth) "in.pdf" "out.pdf" (-1)
      (Demo.world 0)
    = rewritten (Demo.world 0) "in.pdf" [11; 12; 13] "out.pdf" [12] r env2.
Proof.
  apply (extract_single_page_counts_from_end (P := Demo.platform Demo.smooth)
           "in.pdf" "out.pdf" (-1) (Demo.world 0) [11; 12; 13] Demo.start 12).
  - reflexivity.
  - simpl. lia.
  - reflexivity.
Defined.

Lemma strip_last_pages_keeps_prefix_witness :
  exists r env2,
    respond (Platform := Demo.platform Demo.smooth) (PdfWrite "out.pdf" [11; 12]) 0 Demo.start
    = (r, env2) /\
    strip_last_pages (P := Demo.platform Demo.smooth) "in.pdf" "out.pdf" 1 (Demo.world 0)
    = rewritten (Demo.world 0) "in.pdf" [11; 12; 13] "out.pdf" [11; 12] r env2.
Proof.
  apply (strip_last_pages_keeps_prefix (P := Demo.platform Demo.smooth)
           "in.pdf" "out.pdf" 1 (Demo.world 0) [11; 12; 13] Demo.start).
  - reflexivity.
  - simpl. lia.
Defined.

Lemma strip_last_pages_negative_witness :
  strip_last_pages (P := Demo.platform Demo.smooth) "in.pdf" "out.pdf" (-1) (Demo.world 0)
  = (Raise IndexError, only_read (Demo.world 0) "in.pdf" [11; 12; 13] Demo.start).
Proof.
  apply (strip_last_pages_negative (P := Demo.platform Demo.smooth)
           "in.pdf" "out.pdf" (-1) (Demo.world 0) [11; 12; 13] Demo.start).
  - reflexivity.
  - lia.
Defined.

Lemma strip_specific_pages_keeps_others_witness :
  exists r env2,
    respond (Platform := Demo.platform Demo.smooth)
      (PdfWrite "out.pdf" (pages_kept [2; 7] [11; 12; 13])) 0 Demo.start = (r, env2) /\
    strip_specific_pages (P := Demo.platform Demo.smooth) "in.pdf" "out.pdf" [2; 7]
      (Demo.world 0)
    = rewritten (Demo.world 0) "in.pdf" [11; 12; 13] "out.pdf"
        (pages_kept [2; 7] [11; 12; 13]) r env2.
Proof.
  apply (strip_specific_pages_keeps_others (P := Demo.platform Demo.smooth)
           "in.pdf" "out.pdf" [2; 7] (Demo.world 0) [11; 12; 13] Demo.start).
  reflexivity.
Defined.

Lemma strip_specific_pages_ignores_foreign_numbers_witness :
  exists r env2,
    respond (Platform := Demo.platform Demo.smooth)
      (PdfWrite "out.pdf" [11; 12; 13]) 0 Demo.start = (r, env2) /\
    strip_specific_pages (P := Demo.platform Demo.smooth) "in.pdf" "out.pdf" [0; 4; -1]
      (Demo.world 0)
    = rewritten (Demo.world 0) "in.pdf" [11; 12; 13] "out.pdf" [11; 12; 13] r env2.
Proof.
  apply (strip_specific_pages_ignores_foreign_numbers (P := Demo.platform Demo.smooth)
           "in.pdf" "out.pdf" [0; 4; -1] (Demo.world 0) [11; 12; 13] Demo.start).
  - reflexivity.
  - intros n [H|[H|[H|[]]]]; subst n; simpl; lia.
Defined.

(* ================================================================== *)
(** ** How the two waits end *)

Section Waits.
Context {Env : Type} {P : Platform Env}.


(** X18 — [wait_for_pdf_download] raises its timeout error only once the
    deadline has passed; the only other errors that leave it are those of
    the directory listing, the modification-time query and the size query,
    which it does not catch: the failed query is the last thing it did. *)
Theorem wait_for_pdf_download_errors
    (download_dir : string) (existing : list string) (rep_name : string)
    (timeout : Z) (w w' : World Env) (e : Exn) :
  wait_for_pdf_download download_dir existing rep_name timeout w = (Raise e, w') ->
  (e = TimeoutError_download rep_name /\ now w + 1000 * timeout <= now w')
  \/
  (exists x pre ev,
      e = External x /\ trace w' = pre ++ [ev] /\ query_failure ev = Some x).
Proof.
  intros E.
  destruct (wait_for_pdf_download_run download_dir existing rep_name timeout w)
    as (o & w1 & El & Hd & Erun).
  rewrite Erun in E. pose proof (while_ends _ _ _ _ _ _ _ El) as Hend.
  destruct o as [[p|]| |]; try discriminate E; inversion E; subst.
  - left. split; [reflexivity | exact Hend].
  - right. destruct Hend as (s1 & wl & Eb & _).
    exact (watcher_round_raise _ _ _ _ _ _ _ Eb).
Qed.

(** X19 — With a timeout that is not positive [wait_for_pdf_download] announces
    the wait and raises its timeout error at once: the directory is not
    listed, not even once. *)
Theorem wait_for_pdf_download_no_window
    (download_dir : string) (existing : list string) (rep_name : string)
    (timeout : Z) (w : World Env) :
  timeout <= 0 ->
  wait_for_pdf_download download_dir existing rep_name timeout w
  = (Raise (TimeoutError_download rep_name),
     noted (ELog INFO (MsgAwaitDownload rep_name)) w).
Proof.
  intros Hneg. unfold wait_for_pdf_download, log_info.
  rewrite run_time_bind, run_emit_bind, run_bind.
  unfold poll_fuel. rewrite while_before_S. cbn [now noted].
  replace (now w <? now w + 1000 * timeout) with false
    by (symmetry; apply Z.ltb_ge; lia).
  reflexivity.
Qed.

Lemma any_found_raise sels (w w' : World Env) e :
  (forall s, In s sels -> Py.mem s loading_selectors = true) ->
  any_found sels w = (Raise e, w') ->
  exists x pre ev,
    e = External x /\ trace w' = pre ++ [ev] /\ indicator_failure ev = Some x.
Proof.
  revert w. induction sels as [|s rest IH]; intros w Hin E; cbn [any_found] in E.
  - rewrite run_ret in E. discriminate E.
  - apply bind_raise_inv in E as [Ec | (els & w1 & _ & E)].
    + apply call_raise_inv in Ec as (x & e' & _ & -> & ->).
      exists x, (trace w), (ECall (FindElements XPATH s) (Fails x)).
      split; [reflexivity|]. split; [reflexivity|].
      cbn [indicator_failure]. rewrite (Hin s (or_introl eq_refl)). reflexivity.
    + destruct (Py.truthy_list els).
      * rewrite run_ret in E. discriminate E.
      * apply (IH w1); [|exact E]. intros s' Hs'. apply Hin. right. exact Hs'.
Qed.

Lemma wait_report_idle_body_raise stable_required rep_name ss (w w' : World Env) e :
  wait_report_idle_body stable_required rep_name ss w = (Raise e, w') ->
  exists x pre ev,
    e = External x /\ trace w' = pre ++ [ev] /\ indicator_failure ev = Some x.
Proof.
  unfold wait_report_idle_body. intros E.
  apply bind_raise_inv in E as [Eb | (busy & w1 & _ & E)].
  - unfold _has_loading_indicators in Eb.
    apply (any_found_raise loading_selectors w w' e); [|exact Eb].
    intros s Hs. unfold Py.mem. apply existsb_exists. exists s.
    split; [exact Hs | apply String.eqb_refl].
  - exfalso. destruct busy; cbn [negb] in E.
    + rewrite run_sleep_bind, run_ret in E by lia. discriminate E.
    + apply bind_raise_inv in E as [Es | (s & w2 & _ & E)].
      * destruct ss; cbn in Es; discriminate Es.
      * rewrite run_time_bind in E.
        destruct (elapsed_ge (now w2) s stable_required); cbn in E; discriminate E.
Qed.

Lemma wait_report_idle_body_returns stable_required rep_name ss (w w' : World Env) b :
  wait_report_idle_body stable_required rep_name ss w = (Ret (inr b), w') ->
  b = true /\
  exists pre, trace w' = pre ++ [ELog INFO (MsgIdleStable rep_name stable_required)].
Proof.
  unfold wait_report_idle_body. intros E.
  apply bind_ret_inv in E as (busy & w1 & _ & E).
  destruct busy; cbn [negb] in E.
  - rewrite run_sleep_bind, run_ret in E by lia. discriminate E.
  - apply bind_ret_inv in E as (s & w2 & _ & E).
    rewrite run_time_bind in E.
    destruct (elapsed_ge (now w2) s stable_required).
    + unfold log_info in E. rewrite run_emit_bind, run_ret in E.
      inversion E; subst. split; [reflexivity|]. eexists. reflexivity.
    + rewrite run_sleep_bind, run_ret in E by lia. discriminate E.
Qed.

(** X20 — [wait_report_idle] never answers [False]: it returns only [True], and
    only right after it logged that the report was stable. *)
Theorem wait_report_idle_returns_true
    (timeout stable_required : Z) (rep_name : string) (w w' : World Env) (b : bool) :
  wait_report_idle timeout stable_required rep_name w = (Ret b, w') ->
  b = true /\
  exists pre, trace w' = pre ++ [ELog INFO (MsgIdleStable rep_name stable_required)].
Proof.
  intros E.
  destruct (wait_report_idle_run timeout stable_required rep_name w)
    as (o & w1 & El & Hd & Erun).
  rewrite Erun in E. pose proof (while_ends _ _ _ _ _ _ _ El) as Hend.
  destruct o as [[b'|]| |]; try discriminate E; inversion E; subst.
  destruct Hend as (s1 & wl & Eb & _).
  exact (wait_report_idle_body_returns _ _ _ _ _ _ Eb).
Qed.

(** X21 — [wait_report_idle] raises its timeout error only once the deadline has
    passed; it does not catch what a look for a loading indicator raises,
    and nothing else can leave it. *)
Theorem wait_report_idle_errors
    (timeout stable_required : Z) (rep_name : string) (w w' : World Env) (e : Exn) :
  wait_report_idle timeout stable_required rep_name w = (Raise e, w') ->
  (e = TimeoutError_idle rep_name /\ now w + 1000 * timeout <= now w')
  \/
  (exists x pre ev,
      e = External x /\ trace w' = pre ++ [ev] /\ indicator_failure ev = Some x).
Proof.
  intros E.
  destruct (wait_report_idle_run timeout stable_required rep_name w)
    as (o & w1 & El & Hd & Erun).
  rewrite Erun in E. pose proof (while_ends _ _ _ _ _ _ _ El) as Hend.
  destruct o as [[b'|]| |]; try discriminate E; inversion E; subst.
  - left. split; [reflexivity | exact Hend].
  - right. destruct Hend as (s1 & wl & Eb & _).
    exact (wait_report_idle_body_raise _ _ _ _ _ _ Eb).
Qed.

End Waits.

Lemma wait_for_pdf_download_errors_witness :
  exists e w',
    wait_for_pdf_download (P := Demo.patched Demo.no_size Demo.smooth)
      "run" [] "Relatorio_A" 600 (Demo.exporting 0) = (Raise e, w') /\
    ((e = TimeoutError_download "Relatorio_A" /\
      now (Demo.exporting 0) + 1000 * 600 <= now w')
     \/
     (exists x pre ev,
         e = External x /\ trace w' = pre ++ [ev] /\ query_failure ev = Some x)).
Proof.
  eexists. eexists. split; [vm_compute; reflexivity|].
  apply (wait_for_pdf_download_errors (P := Demo.patched Demo.no_size Demo.smooth)
           "run" [] "Relatorio_A" 600 (Demo.exporting 0)).
  vm_compute; reflexivity.
Defined.

Lemma wait_for_pdf_download_no_window_witness :
  wait_for_pdf_download (P := Demo.platform Demo.smooth)
    "run" [] "Relatorio_A" 0 (Demo.exporting 0)
  = (Raise (TimeoutError_download "Relatorio_A"),
     noted (ELog INFO (MsgAwaitDownload "Relatorio_A")) (Demo.exporting 0)).
Proof.
  apply (wait_for_pdf_download_no_window (P := Demo.platform Demo.smooth)
           "run" [] "Relatorio_A" 0 (Demo.exporting 0)).
  lia.
Defined.

Lemma wait_report_idle_returns_true_witness :
  exists w',
    wait_report_idle (P := Demo.platform Demo.smooth) 90 5 "Relatorio_A" (Demo.world 0)
    = (Ret true, w') /\
    true = true /\
    exists pre, trace w' = pre ++ [ELog INFO (MsgIdleStable "Relatorio_A" 5)].
Proof.
  eexists. split; [vm_compute; reflexivity|].
  apply (wait_report_idle_returns_true (P := Demo.platform Demo.smooth)
           90 5 "Relatorio_A" (Demo.world 0)).
  vm_compute; reflexivity.
Defined.

Lemma wait_report_idle_errors_witness :
  exists e w',
    wait_report_idle (P := Demo.platform (Demo.busy_until 1000000))
      2 5 "Relatorio_A" (Demo.world 0) = (Raise e, w') /\
    ((e = TimeoutError_idle "Relatorio_A" /\ now (Demo.world 0) + 1000 * 2 <= now w')
     \/
     (exists x pre ev,
         e = External x /\ trace w' = pre ++ [ev] /\ indicator_failure ev = Some x)).
Proof.
  eexists. eexists. split; [vm_compute; reflexivity|].
  apply (wait_report_idle_errors (P := Demo.platform (Demo.busy_until 1000000))
           2 5 "Relatorio_A" (Demo.world 0)).
  vm_compute; reflexivity.
Defined.

(* ================================================================== *)
(** ** File names, the recipient list and the mail *)

Section Names.

Lemma substring_all (s : string) : String.substring 0 (String.length s) s = s.
Proof.
  induction s as [|c s IH]; cbn [String.length String.substring];
    [reflexivity | f_equal; exact IH].
Qed.

Lemma substring_suffix (s : string) (k : nat) :
  (k <= String.length s)%nat ->
  exists a, s = (a ++ String.substring k (String.length s - k) s)%string.
Proof.
  revert s. induction k as [|k IH]; intros s Hk.
  - exists EmptyString. rewrite Nat.sub_0_r, substring_all. reflexivity.
  - destruct s as [|c s]; [cbn in Hk; lia|].
    cbn [String.length] in Hk. destruct (IH s) as [a Ha]; [lia|].
    exists (String c a). cbn [String.length Nat.sub String.substring String.append].
    f_equal. exact Ha.
Qed.

Lemma endswith_suffix (s p : string) :
  Py.endswith s p = true -> exists a, s = (a ++ p)%string.
Proof.
  unfold Py.endswith. intros H. apply andb_prop in H as [Hle Heq].
  apply Nat.leb_le in Hle. apply String.eqb_eq in Heq.
  destruct (substring_suffix s (String.length s - String.length p)) as [a Ha]; [lia|].
  exists a.
  replace (String.length s - (String.length s - String.length p))%nat
    with (String.length p) in Ha by lia.
  rewrite Heq in Ha. exact Ha.
Qed.

Lemma last_char_cons (c : ascii) (r : string) :
  r <> EmptyString -> last_char (String c r) = last_char r.
Proof. intros Hr. destruct r; [contradiction | reflexivity]. Qed.

Lemma last_char_app (a p : string) :
  p <> EmptyString -> last_char (a ++ p) = last_char p.
Proof.
  intros Hp. induction a as [|c a IH]; cbn [String.append]; [reflexivity|].
  rewrite last_char_cons; [exact IH|].
  destruct a; cbn [String.append]; [exact Hp | discriminate].
Qed.

Lemma endswith_last (s p : string) (c : ascii) :
  Py.endswith s p = true -> last_char p = Some c -> last_char s = Some c.
Proof.
  intros H Hp. apply endswith_suffix in H as [a ->].
  rewrite last_char_app; [exact Hp|]. intros ->. discriminate Hp.
Qed.

Lemma not_endswith (s p : string) (c c' : ascii) :
  last_char s = Some c -> last_char p = Some c' -> c <> c' ->
  Py.endswith s p = false.
Proof.
  intros Hs Hp Hne. destruct (Py.endswith s p) eqn:E; [|reflexivity].
  rewrite (endswith_last s p c' E Hp) in Hs. congruence.
Qed.

(** X22 — No file name counts both as a finished PDF and as a temporary
    download: a name that ends in .pdf, in any letter case, ends in none of
    the partial-download suffixes.  So a finished PDF never blocks the
    watcher by itself, and a name such as x.pdf.crdownload is no PDF. *)
Theorem pdf_name_is_not_temp (n : string) :
  is_pdf_name n = true -> _is_temp_file n = false.
Proof.
  unfold is_pdf_name, _is_temp_file, Py.endswith_any. intros H.
  pose proof (endswith_last _ _ "f"%char H eq_refl) as Hl.
  cbn [existsb].
  rewrite (not_endswith _ ".crdownload" "f"%char "d"%char Hl eq_refl) by discriminate.
  rewrite (not_endswith _ ".tmp" "f"%char "p"%char Hl eq_refl) by discriminate.
  rewrite (not_endswith _ ".part" "f"%char "t"%char Hl eq_refl) by discriminate.
  rewrite (not_endswith _ ".partial" "f"%char "l"%char Hl eq_refl) by discriminate.
  reflexivity.
Qed.

Lemma prefix_app (a b : string) : String.prefix a (a ++ b) = true.
Proof.
  induction a as [|c a IH]; cbn [String.append String.prefix].
  - destruct b; reflexivity.
  - destruct (ascii_dec c c) as [_|Hne]; [exact IH | congruence].
Qed.

End Names.

Section Recipients.
Context {Env : Type} {P : Platform Env}.

Lemma find_first {A} (f : A -> bool) (pre post : list A) (x : A) :
  (forall y, In y pre -> f y = false) -> f x = true ->
  find f (pre ++ x :: post) = Some x.
Proof.
  intros Hpre Hx. induction pre as [|y pre IH]; cbn [app find].
  - rewrite Hx. reflexivity.
  - rewrite (Hpre y (or_introl eq_refl)). apply IH.
    intros z Hz. apply Hpre. right. exact Hz.
Qed.

Lemma find_nothing {A} (f : A -> bool) (l : list A) :
  (forall y, In y l -> f y = false) -> find f l = None.
Proof.
  intros H. induction l as [|y l IH]; cbn [find]; [reflexivity|].
  rewrite (H y (or_introl eq_refl)). apply IH.
  intros z Hz. apply H. right. exact Hz.
Qed.

(** X23 — [read_recipients] opens the first .txt or .csv entry of the folder, in
    the order of the listing, and no other: what comes after it, further
    lists included, is ignored.  What it returns is the stripped lines of
    that file that are not empty; an error of the read is not caught. *)
Theorem read_recipients_reads_first_list
    (folder : string) (w : World Env) (pre post : list string) (fn : string) env1 :
  respond (OsListdir folder) (now w) (env w) = (Done (pre ++ fn :: post), env1) ->
  (forall x, In x pre -> is_recipient_file x = false) ->
  is_recipient_file fn = true ->
  exists r env2,
    respond (ReadLines (Path.join folder fn)) (now w) env1 = (r, env2) /\
    read_recipients folder w
    = (match r with
       | Done lines => Ret (filter Py.truthy_str (map Py.strip lines))
       | Fails x => Raise (External x)
       end,
       {| now := now w; env := env2;
          trace := trace w ++ [ECall (OsListdir folder) (Done (pre ++ fn :: post));
                               ECall (ReadLines (Path.join folder fn)) r] |}).
Proof.
  intros Hl Hpre Hfn.
  destruct (respond (ReadLines (Path.join folder fn)) (now w) env1) as [r env2] eqn:Hr.
  exists r, env2. split; [reflexivity|].
  unfold read_recipients. rewrite run_bind. unfold call at 1. rewrite Hl.
  rewrite (find_first is_recipient_file pre post fn Hpre Hfn).
  rewrite run_bind. unfold call. cbn [now env trace]. rewrite Hr.
  rewrite <- app_assoc. destruct r as [lines|x]; reflexivity.
Qed.

(** X24 — In a folder with no .txt and no .csv entry [read_recipients] opens no
    file and returns the empty list. *)
Theorem read_recipients_without_list
    (folder : string) (w : World Env) (listing : list string) env1 :
  respond (OsListdir folder) (now w) (env w) = (Done listing, env1) ->
  (forall x, In x listing -> is_recipient_file x = false) ->
  read_recipients folder w
  = (Ret [],
     {| now := now w; env := env1;
        trace := trace w ++ [ECall (OsListdir folder) (Done listing)] |}).
Proof.
  intros Hl Hnone. unfold read_recipients. rewrite run_bind. unfold call. rewrite Hl.
  rewrite (find_nothing is_recipient_file listing Hnone). reflexivity.
Qed.

(** X25 — With Outlook reachable and the mail composed, a failure of the send is
    not raised by [send_email_outlook_html]: it is logged as an error, with
    the recipients, and the function returns as it does after a send that
    worked. *)
Theorem send_failure_is_logged
    (to_list : list string) (subject html_body attach : string)
    (w : World Env) env1 env2 :
  respond OutlookDispatch (now w) (env w) = (Done tt, env1) ->
  respond (MailCompose to_list subject html_body attach) (now w) env1
  = (Done tt, env2) ->
  exists r env3,
    respond MailSend (now w) env2 = (r, env3) /\
    send_email_outlook_html to_list subject html_body attach w
    = (Ret tt,
       {| now := now w; env := env3;
          trace := trace w ++
            [ECall OutlookDispatch (Done tt);
             ECall (MailCompose to_list subject html_body attach) (Done tt);
             ECall MailSend r;
             match r with
             | Done _ => ELog INFO MsgMailSent
             | Fails x => ELog ERROR (MsgMailFailed (External x) to_list)
             end] |}).
Proof.
  intros Hd Hc.
  destruct (respond MailSend (now w) env2) as [r env3] eqn:Hs.
  exists r, env3. split; [reflexivity|].
  unfold send_email_outlook_html.
  rewrite run_bind, run_catch. unfold call at 1. rewrite Hd.
  rewrite run_bind. unfold call at 1. cbn [now env trace]. rewrite Hc.
  rewrite run_catch, run_bind. unfold call. cbn [now env trace]. rewrite Hs.
  destruct r as [[]|x]; unfold log_info, log_error, emit, noted;
    cbn [now env trace]; rewrite <- !app_assoc; reflexivity.
Qed.

End Recipients.

Lemma pdf_name_is_not_temp_witness :
  _is_temp_file "Export.PDF" = false.
Proof.
  apply (pdf_name_is_not_temp "Export.PDF"). reflexivity.
Defined.

Lemma read_recipients_reads_first_list_witness :
  exists r env2,
    respond (Platform := Demo.platform
               (Demo.second_fails ["leia.md"; "lista.txt"; "outra.csv"]))
      (ReadLines (Path.join (P := Demo.platform Demo.smooth) "mail" "lista.txt")) (now (Demo.world 0)) Demo.start
    = (r, env2) /\
    read_recipients (P := Demo.platform
                       (Demo.second_fails ["leia.md"; "lista.txt"; "outra.csv"]))
      "mail" (Demo.world 0)
    = (match r with
       | Done lines => Ret (filter Py.truthy_str (map Py.strip lines))
       | Fails x => Raise (External x)
       end,
       {| now := now (Demo.world 0); env := env2;
          trace := trace (Demo.world 0) ++
            [ECall (OsListdir "mail") (Done (["leia.md"] ++ "lista.txt" :: ["outra.csv"]));
             ECall (ReadLines (Path.join (P := Demo.platform Demo.smooth) "mail" "lista.txt")) r] |}).
Proof.
  apply (read_recipients_reads_first_list
           (P := Demo.platform (Demo.second_fails ["leia.md"; "lista.txt"; "outra.csv"]))
           "mail" (Demo.world 0) ["leia.md"] ["outra.csv"] "lista.txt" Demo.start).
  - reflexivity.
  - intros x [<-|[]]. reflexivity.
  - reflexivity.
Defined.

Lemma read_recipients_without_list_witness :
  read_recipients (P := Demo.platform (Demo.second_fails ["leia.md"]))
    "mail" (Demo.world 0)
  = (Ret [],
     {| now := now (Demo.world 0); env := Demo.start;
        trace := trace (Demo.world 0) ++ [ECall (OsListdir "mail") (Done ["leia.md"])] |}).
Proof.
  apply (read_recipients_without_list
           (P := Demo.platform (Demo.second_fails ["leia.md"]))
           "mail" (Demo.world 0) ["leia.md"] Demo.start).
  - reflexivity.
  - intros x [<-|[]]. reflexivity.
Defined.

Lemma send_failure_is_logged_witness :
  exists r env3,
    respond (Platform := Demo.patched Demo.no_send Demo.smooth) MailSend
      (now (Demo.world 0)) Demo.start = (r, env3) /\
    send_email_outlook_html (P := Demo.patched Demo.no_send Demo.smooth)
      ["ana@example.org"] "Indicadores" "<p>Bom dia</p>" "run\final.pdf" (Demo.world 0)
    = (Ret tt,
       {| now := now (Demo.world 0); env := env3;
          trace := trace (Demo.world 0) ++
            [ECall OutlookDispatch (Done tt);
             ECall (MailCompose ["ana@example.org"] "Indicadores" "<p>Bom dia</p>"
                      "run\final.pdf") (Done tt);
             ECall MailSend r;
             match r with
             | Done _ => ELog INFO MsgMailSent
             | Fails x => ELog ERROR (MsgMailFailed (External x) ["ana@example.org"])
             end] |}).
Proof.
  apply (send_failure_is_logged (P := Demo.patched Demo.no_send Demo.smooth)
           ["ana@example.org"] "Indicadores" "<p>Bom dia</p>" "run\final.pdf"
           (Demo.world 0) Demo.start Demo.start).
  - reflexivity.
  - reflexivity.
Defined.

(* ================================================================== *)
(** ** The main flow around the batch *)

Section MainFlow.
Context {Env : Type} {P : Platform Env}.
Variable cfg : Config.

(** X26 — Once the browser was started, [main] always ends by quitting it and
    logging the end of the run, whatever the batch, the merge or the mail
    did: an error of theirs leaves [main] only after that, and an error of
    [driver.quit()] itself is swallowed. *)
Theorem main_always_quits (w ws : World Env) :
  setup_edge_driver cfg (RUN_DIR cfg) (noted (ELog INFO MsgMainStart) w)
  = (Ret tt, ws) ->
  exists o wb r env',
    main_body cfg ws = (o, wb) /\
    o <> Diverged /\
    respond DriverQuit (now wb) (env wb) = (r, env') /\
    main cfg w
    = (o, {| now := now wb; env := env';
             trace := trace wb ++ [ECall DriverQuit r; ELog INFO MsgMainEnd] |}).
Proof.
  intros Esetup.
  destruct (main_body cfg ws) as [o wb] eqn:Eb.
  destruct (respond DriverQuit (now wb) (env wb)) as [r env'] eqn:Eq.
  exists o, wb, r, env'. split; [reflexivity|].
  pose proof (safe_main_body cfg _ _ _ Eb) as [Hd _].
  split; [exact Hd|]. split; [exact Eq|].
  unfold main, log_info. rewrite run_emit_bind, run_bind, Esetup.
  unfold try_finally. rewrite Eb, run_bind, run_catch. unfold call. rewrite Eq.
  destruct o as [[]|e|]; [| |congruence];
    destruct r as [[]|x]; rewrite ?run_ret; unfold log_info, emit, noted;
    cbn [now env trace]; rewrite <- !app_assoc; reflexivity.
Qed.

(** X27 — Without the driver executable [main] stops before anything is
    started: it raises FileNotFoundError after the check of the path, no
    browser is opened, none is quit, and the end of the run is not logged. *)
Theorem main_without_driver (w : World Env) env1 :
  respond (OsPathExists (MSEDGEDRIVER_PATH cfg)) (now w) (env w) = (Done false, env1) ->
  main cfg w
  = (Raise (FileNotFoundError_driver (MSEDGEDRIVER_PATH cfg)),
     {| now := now w; env := env1;
        trace := trace w ++ [ELog INFO MsgMainStart;
                             ECall (OsPathExists (MSEDGEDRIVER_PATH cfg)) (Done false)] |}).
Proof.
  intros Hex. unfold main, log_info. rewrite run_emit_bind, run_bind.
  unfold setup_edge_driver. rewrite run_bind. unfold call.
  cbn [now env trace noted]. rewrite Hex. cbn [negb]. rewrite run_raise.
  rewrite <- app_assoc. reflexivity.
Qed.

Lemma falsy_rules_skip (rep : Report) (destino : string) (w : World Env) :
  extract_page rep = None \/ extract_page rep = Some 0 ->
  drop_last_pages rep = None \/ drop_last_pages rep = Some 0 ->
  drop_pages rep = None \/ drop_pages rep = Some [] ->
  apply_page_rule cfg rep destino w = (Ret destino, w).
Proof.
  unfold apply_page_rule. intros [-> | ->] [-> | ->] [-> | ->]; reflexivity.
Qed.

(** X28 — A page rule whose value is 0, or an empty list of pages, is no rule
    for [process_single_report]: such a value is falsy.  When the report
    succeeds, what is returned is the path of the raw download after its
    move, and the end of the report is logged right after the save: no PDF
    is read or written in between. *)
Theorem falsy_page_rule_is_no_rule
    (rep : Report) (wait : Z) (w w' : World Env) (p : string) :
  extract_page rep = None \/ extract_page rep = Some 0 ->
  drop_last_pages rep = None \/ drop_last_pages rep = Some 0 ->
  drop_pages rep = None \/ drop_pages rep = Some [] ->
  process_single_report cfg rep wait w = (Ret (Some p), w') ->
  p = raw_artifact cfg rep /\
  exists pre,
    trace w' = pre ++ [ELog INFO (MsgSaved (name rep) (raw_artifact cfg rep));
                       ELog INFO (MsgFinished (name rep))].
Proof.
  intros He Hl Hp E. unfold process_single_report in E.
  apply bind_ret_inv in E as ([] & w1 & _ & E).
  apply catch_ret_inv in E as [E | (e0 & w0 & _ & E)].
  - apply bind_ret_inv in E as (q & w2 & Eb & E).
    rewrite run_ret in E. inversion E; subst q w2. clear E.
    unfold process_report_body in Eb. cbv zeta in Eb.
    do 6 (apply bind_ret_inv in Eb as (? & ? & _ & Eb)).
    unfold log_info in Eb. rewrite run_emit_bind in Eb.
    rewrite run_bind, (falsy_rules_skip rep _ _ He Hl Hp) in Eb.
    rewrite run_emit_bind, run_ret in Eb. inversion Eb; subst.
    split; [reflexivity|]. cbn [trace noted]. rewrite <- app_assoc.
    eexists. reflexivity.
  - unfold log_error in E. rewrite run_emit_bind, run_ret in E. discriminate E.
Qed.

Lemma prefix_app_r (a b c : string) :
  String.prefix a b = true -> String.prefix a (b ++ c) = true.
Proof.
  revert b. induction a as [|x a IH]; intros b H.
  - destruct (b ++ c)%string; reflexivity.
  - destruct b as [|y b]; [discriminate H|].
    cbn [String.append String.prefix] in *.
    destruct (ascii_dec x y); [apply IH; exact H | discriminate H].
Qed.

Lemma string_app_assoc (a b c : string) : ((a ++ b) ++ c = a ++ (b ++ c))%string.
Proof. induction a as [|x a IH]; cbn [String.append]; [reflexivity | f_equal; exact IH]. Qed.

(** The final artifact is its file name joined to the run folder. *)
Lemma final_artifact_joined (rep : Report) :
  final_artifact cfg rep = Path.join (RUN_DIR cfg) (final_file cfg rep).
Proof.
  unfold final_artifact, final_file, derived_artifact, raw_artifact.
  destruct (Py.truthy_int (extract_page rep)); [reflexivity|].
  destruct (Py.truthy_int (drop_last_pages rep)); [reflexivity|].
  destruct (Py.truthy_opt_list (drop_pages rep)); reflexivity.
Qed.

(** The file name starts with the name of the report and an underscore. *)
Lemma final_file_name (rep : Report) :
  exists tail, final_file cfg rep = ((name rep ++ "_") ++ tail)%string.
Proof.
  unfold final_file.
  destruct (Py.truthy_int (extract_page rep));
    [eexists; symmetry; apply string_app_assoc|].
  destruct (Py.truthy_int (drop_last_pages rep));
    [eexists; symmetry; apply string_app_assoc|].
  destruct (Py.truthy_opt_list (drop_pages rep));
    eexists; symmetry; apply string_app_assoc.
Qed.

(** The list of processed reports of the mail is found by file-name
    prefix: a report is listed when a successful path has a base name that
    starts with the name of the report and an underscore. *)
Lemma listed_by_prefix (r1 r2 : Report) (ok_paths : list string) :
  In r1 (REPORTS cfg) ->
  String.prefix (name r1 ++ "_") (name r2 ++ "_") = true ->
  Path.basename (final_artifact cfg r2) = final_file cfg r2 ->
  In (final_artifact cfg r2) ok_paths ->
  In r1 (reports_done cfg ok_paths).
Proof.
  intros Hin Hpre Hb Hok. unfold reports_done. apply filter_In.
  split; [exact Hin|]. apply existsb_exists.
  exists (final_artifact cfg r2). split; [exact Hok|].
  rewrite Hb. destruct (final_file_name r2) as [tail ->].
  unfold Py.startswith. apply prefix_app_r. exact Hpre.
Qed.

(** X29 — Every report of the configuration whose final artifact is among the
    successful paths is listed as processed in the mail, when
    [os.path.basename] gives back, of the path of the artifact, the file
    name that [os.path.join] was given. *)
Theorem succeeded_reports_are_listed (rep : Report) (ok_paths : list string) :
  In rep (REPORTS cfg) ->
  Path.basename (final_artifact cfg rep) = final_file cfg rep ->
  In (final_artifact cfg rep) ok_paths ->
  In rep (reports_done cfg ok_paths).
Proof.
  intros Hin Hb Hok. unfold reports_done. apply filter_In.
  split; [exact Hin|]. apply existsb_exists.
  exists (final_artifact cfg rep). split; [exact Hok|].
  rewrite Hb. destruct (final_file_name rep) as [tail ->].
  unfold Py.startswith. apply prefix_app.
Qed.

(** X30 — The match by prefix can list a report that did not succeed: when the
    name of another report is this report's name, an underscore and more,
    the success of the other one makes this one be listed as processed,
    whether or not its own artifact is among the successful paths
    ([os.path.basename] giving back, of the path of the other's artifact,
    the file name that [os.path.join] was given). *)
Theorem report_listed_for_another
    (r1 r2 : Report) (more : string) (ok_paths : list string) :
  In r1 (REPORTS cfg) ->
  name r2 = (name r1 ++ "_" ++ more)%string ->
  Path.basename (final_artifact cfg r2) = final_file cfg r2 ->
  In (final_artifact cfg r2) ok_paths ->
  In r1 (reports_done cfg ok_paths).
Proof.
  intros Hin Hname Hb Hok. apply (listed_by_prefix r1 r2 ok_paths Hin); auto.
  rewrite Hname.
  pose proof (prefix_app (name r1 ++ "_") (more ++ "_")) as Hp.
  rewrite string_app_assoc in Hp. rewrite string_app_assoc.
  exact Hp.
Qed.

End MainFlow.

Lemma main_always_quits_witness :
  exists o wb r env',
    main_body (P := Demo.platform Demo.smooth) (Demo.config [Demo.ambiguous]) Demo.started
    = (o, wb) /\
    o <> Diverged /\
    respond (Platform := Demo.platform Demo.smooth) DriverQuit (now wb) (env wb)
    = (r, env') /\
    main (P := Demo.platform Demo.smooth) (Demo.config [Demo.ambiguous]) (Demo.world 0)
    = (o, {| now := now wb; env := env';
             trace := trace wb ++ [ECall DriverQuit r; ELog INFO MsgMainEnd] |}).
Proof.
  apply (main_always_quits (P := Demo.platform Demo.smooth)
           (Demo.config [Demo.ambiguous]) (Demo.world 0) Demo.started).
  reflexivity.
Defined.

Lemma main_without_driver_witness :
  main (P := Demo.patched Demo.no_driver Demo.smooth) (Demo.config Demo.reports)
    (Demo.world 0)
  = (Raise (FileNotFoundError_driver "msedgedriver.exe"),
     {| now := 0; env := Demo.start;
        trace := [] ++ [ELog INFO MsgMainStart;
                        ECall (OsPathExists "msedgedriver.exe") (Done false)] |}).
Proof.
  apply (main_without_driver (P := Demo.patched Demo.no_driver Demo.smooth)
           (Demo.config Demo.reports) (Demo.world 0) Demo.start).
  reflexivity.
Defined.

Lemma falsy_page_rule_is_no_rule_witness :
  exists w',
    process_single_report (P := Demo.platform Demo.smooth) (Demo.config [])
      {| name := "Relatorio_A"; url := "[seu link]"; extract_page := Some 0;
         drop_pages := None; drop_last_pages := None |} 60 (Demo.world 0)
    = (Ret (Some "run\Relatorio_A_2024-05-06.pdf"), w') /\
    "run\Relatorio_A_2024-05-06.pdf"%string
    = raw_artifact (P := Demo.platform Demo.smooth) (Demo.config [])
        {| name := "Relatorio_A"; url := "[seu link]"; extract_page := Some 0;
           drop_pages := None; drop_last_pages := None |} /\
    exists pre,
      trace w'
      = pre ++ [ELog INFO (MsgSaved "Relatorio_A"
                             (raw_artifact (P := Demo.platform Demo.smooth)
                                (Demo.config [])
                                {| name := "Relatorio_A"; url := "[seu link]";
                                   extract_page := Some 0;
                                   drop_pages := None; drop_last_pages := None |}));
                ELog INFO (MsgFinished "Relatorio_A")].
Proof.
  eexists. split; [vm_compute; reflexivity|].
  apply (falsy_page_rule_is_no_rule (P := Demo.platform Demo.smooth) (Demo.config [])
           {| name := "Relatorio_A"; url := "[seu link]"; extract_page := Some 0;
              drop_pages := None; drop_last_pages := None |} 60 (Demo.world 0)).
  - right. reflexivity.
  - left. reflexivity.
  - left. reflexivity.
  - vm_compute. reflexivity.
Defined.

Lemma succeeded_reports_are_listed_witness :
  In (Demo.report "Relatorio_A")
     (reports_done (P := Demo.platform Demo.smooth) (Demo.config Demo.reports)
        [final_artifact (P := Demo.platform Demo.smooth)
           (Demo.config Demo.reports) (Demo.report "Relatorio_A")]).
Proof.
  apply (succeeded_reports_are_listed (P := Demo.platform Demo.smooth)
           (Demo.config Demo.reports)
           (Demo.report "Relatorio_A")
           [final_artifact (P := Demo.platform Demo.smooth)
              (Demo.config Demo.reports) (Demo.report "Relatorio_A")]).
  - left. reflexivity.
  - vm_compute. reflexivity.
  - left. reflexivity.
Defined.

Lemma report_listed_for_another_witness :
  In (Demo.report "Vendas")
     (reports_done (P := Demo.platform Demo.smooth)
        (Demo.config [Demo.report "Vendas"; Demo.report "Vendas_Sul"])
        [final_artifact (P := Demo.platform Demo.smooth)
           (Demo.config [Demo.report "Vendas"; Demo.report "Vendas_Sul"])
           (Demo.report "Vendas_Sul")]).
Proof.
  apply (report_listed_for_another (P := Demo.platform Demo.smooth)
           (Demo.config [Demo.report "Vendas"; Demo.report "Vendas_Sul"])
           (Demo.report "Vendas") (Demo.report "Vendas_Sul") "Sul"
           [final_artifact (P := Demo.platform Demo.smooth)
              (Demo.config [Demo.report "Vendas"; Demo.report "Vendas_Sul"])
              (Demo.report "Vendas_Sul")]).
  - left. reflexivity.
  - reflexivity.
  - vm_compute. reflexivity.
  - left. reflexivity.
Defined.

(* ================================================================== *)
(** ** One export attempt *)

Section ExportAttempt.
Context {Env : Type} {P : Platform Env}.
Variable cfg : Config.

#[local] Hint Resolve safe_click_anywhere safe_confirm_pdf_export
  safe_open_export_menu_unified : safe.

(** X10 — [export_to_pdf_immediate] returns only right after the dialog was
    confirmed: the record that the export was triggered directly follows
    the record of the confirmation, and the configured cooldown, when it is
    positive, has passed since the call. *)
Theorem export_to_pdf_immediate_confirms
    (wait : Z) (rep_name : string) (w w' : World Env) :
  export_to_pdf_immediate cfg wait rep_name w = (Ret tt, w') ->
  now w + 1000 * Z.max 0 (PRE_EXPORT_COOLDOWN_SEC cfg) <= now w' /\
  exists pre confirmation,
    (confirmation = MsgConfirmed rep_name \/
     confirmation = MsgConfirmedByText rep_name) /\
    trace w' = pre ++ [ELog INFO confirmation; ELog INFO (MsgExportTriggered rep_name)].
Proof.
  unfold export_to_pdf_immediate. intros E.
  apply bind_ret_inv in E as ([] & w1 & Ec & E).
  assert (Hc : now w + 1000 * Z.max 0 (PRE_EXPORT_COOLDOWN_SEC cfg) <= now w1).
  { destruct (0 <? PRE_EXPORT_COOLDOWN_SEC cfg) eqn:Hpos.
    - apply Z.ltb_lt in Hpos.
      assert (Hw : w1 = later (1000 * PRE_EXPORT_COOLDOWN_SEC cfg) w)
        by (rewrite run_sleep in Ec by lia; congruence).
      rewrite Hw. cbn [now later]. lia.
    - apply Z.ltb_ge in Hpos. rewrite run_ret in Ec.
      assert (Hw : w1 = w) by congruence. rewrite Hw. lia. }
  assert (Hrest : now w1 <= now w').
  { revert E. apply safe_clock with (Q := export_event). prove_safe. }
  split; [lia|].
  apply bind_ret_inv in E as (path_used & w2 & _ & E).
  apply bind_ret_inv in E as ([] & w3 & _ & E).
  apply bind_ret_inv in E as (b & w4 & Ecf & E).
  apply confirm_pdf_export_ret in Ecf as [pre Hpre].
  unfold log_info in E. inversion E; subst. cbn [trace noted].
  destruct Hpre as [Hpre|Hpre]; rewrite Hpre, <- app_assoc; eauto.
Qed.

End ExportAttempt.

Lemma export_to_pdf_immediate_confirms_witness :
  exists w',
    export_to_pdf_immediate (P := Demo.platform Demo.smooth) (Demo.config [])
      60 "Relatorio_A" (Demo.world 0) = (Ret tt, w') /\
    now (Demo.world 0) + 1000 * Z.max 0 (PRE_EXPORT_COOLDOWN_SEC (Demo.config []))
    <= now w' /\
    exists pre confirmation,
      (confirmation = MsgConfirmed "Relatorio_A" \/
       confirmation = MsgConfirmedByText "Relatorio_A") /\
      trace w' = pre ++ [ELog INFO confirmation;
                         ELog INFO (MsgExportTriggered "Relatorio_A")].
Proof.
  eexists. split; [vm_compute; reflexivity|].
  apply (export_to_pdf_immediate_confirms (P := Demo.platform Demo.smooth)
           (Demo.config []) 60 "Relatorio_A" (Demo.world 0)).
  vm_compute; reflexivity.
Defined.
